(** * Security report analyzer: a shallow embedding of
      [backend-app/scripts/analyze-security-reports.py]

    The script reads OWASP ZAP reports (JSON and XML), normalises every
    alert into a finding, counts findings per risk level, groups them into
    recommendations and renders a Markdown report.

    Conventions of the embedding.
    - A Python [str] is the Rocq [string] of its UTF-8 bytes.  [len],
      slicing and iteration count characters (code points), not bytes: a
      character is a byte that is no continuation byte, together with the
      continuation bytes that follow it.  Splitting at a space and the
      tests [startswith], [endswith] and [in] give the same answer on
      bytes as on characters, one encoded character never being part of
      another.
    - A value loaded by [json.load] is a [pyval]; JSON numbers are integers.
    - An element of [xml.etree.ElementTree] is an [xml] node: tag, text and
      children (attributes and tails are never read by the script).
    - A raised exception is [Raise]; the script never inspects the class of
      an exception, it either lets it escape or catches [Exception].
    - Methods of [SecurityReportAnalyzer] are actions of the monad [M] over
      a [world]: the analyzer object, the console, the file system. *)

From Stdlib Require Import List String Ascii Bool Arith ZArith QArith Lia.
From Stdlib Require Import Qpower Qabs Lqa Permutation Sorting.Sorted DecimalString.
From Stdlib Require Import SpecFloat.
Import ListNotations.

Set Warnings "-register-all".

Local Open Scope string_scope.
Local Open Scope list_scope.
Local Open Scope nat_scope.

Declare Scope pystr_scope.
Delimit Scope pystr_scope with py.
Infix "+++" := String.append (right associativity, at level 60) : pystr_scope.
Local Open Scope pystr_scope.

(** ** Python strings *)

Module PyStr.

Definition space : ascii := " "%char.

(** [s.split(sep)] for a one-character separator: every occurrence of
    [sep] cuts, empty pieces are kept, the result is never empty. *)
Fixpoint split (sep : ascii) (s : string) : list string :=
  match s with
  | EmptyString => [EmptyString]
  | String c s' =>
      if Ascii.eqb c sep then EmptyString :: split sep s'
      else match split sep s' with
           | w :: ws => String c w :: ws
           | [] => [String c EmptyString]
           end
  end.

(** The characters of [s] before the first occurrence of [sep]. *)
Fixpoint before (sep : ascii) (s : string) : string :=
  match s with
  | EmptyString => EmptyString
  | String c s' => if Ascii.eqb c sep then EmptyString else String c (before sep s')
  end.

(** A byte [10xxxxxx], which continues the character begun before it. *)
Definition is_continuation (c : ascii) : bool :=
  let n := nat_of_ascii c in (128 <=? n) && (n <? 192).

(** [len(s)]: the number of characters. *)
Fixpoint len (s : string) : nat :=
  match s with
  | EmptyString => 0
  | String c s' => (if is_continuation c then 0 else 1) + len s'
  end.

(** [s[:n]]: the first [n] characters, each with all its bytes. *)
Fixpoint take (n : nat) (s : string) : string :=
  match s with
  | EmptyString => EmptyString
  | String c s' =>
      if is_continuation c then String c (take n s')
      else match n with
           | O => EmptyString
           | S n' => String c (take n' s')
           end
  end.

(** The continuation bytes at the head of [s]: the rest of a character
    whose first byte stood before [s]. *)
Fixpoint continuation (s : string) : string :=
  match s with
  | EmptyString => EmptyString
  | String c s' => if is_continuation c then String c (continuation s') else EmptyString
  end.

(** [s[0]]: the first character, an [IndexError] on the empty string. *)
Definition first_char (s : string) : option string :=
  match s with
  | EmptyString => None
  | String c s' => Some (String c (continuation s'))
  end.

Definition is_upper (c : ascii) : bool :=
  let n := nat_of_ascii c in (65 <=? n) && (n <=? 90).
Definition is_lower (c : ascii) : bool :=
  let n := nat_of_ascii c in (97 <=? n) && (n <=? 122).
Definition to_lower (c : ascii) : ascii :=
  if is_upper c then ascii_of_nat (nat_of_ascii c + 32) else c.
Definition to_upper (c : ascii) : ascii :=
  if is_lower c then ascii_of_nat (nat_of_ascii c - 32) else c.

(** [s.lower()], on the letters A to Z.  The script lowers a file name
    only to ask whether it contains "zap", and no character beyond ASCII
    has a lower-case form with a z, an a or a p in it. *)
Fixpoint lower (s : string) : string :=
  match s with
  | EmptyString => EmptyString
  | String c s' => String (to_lower c) (lower s')
  end.

(** [s.title()]: a letter is upper-cased when it follows a non-letter
    and lower-cased when it follows a letter.  The letters are A to Z:
    the script titles risk levels, which the normalizers take from their
    tables of ASCII words. *)
Fixpoint title_from (after_letter : bool) (s : string) : string :=
  match s with
  | EmptyString => EmptyString
  | String c s' =>
      let letter := is_upper c || is_lower c in
      String (if after_letter then to_lower c else to_upper c)
             (title_from letter s')
  end.
Definition title (s : string) : string := title_from false s.

(** [s.startswith(p)] *)
Definition startswith (p s : string) : bool := String.prefix p s.

(** [sub in s] *)
Fixpoint contains (sub s : string) : bool :=
  startswith sub s ||
  match s with
  | EmptyString => false
  | String _ s' => contains sub s'
  end.

(** [s.endswith(suf)] *)
Fixpoint endswith (suf s : string) : bool :=
  String.eqb suf s ||
  match s with
  | EmptyString => false
  | String _ s' => endswith suf s'
  end.

(** [str(n)] for a non-negative integer. *)
Definition of_nat (n : nat) : string := NilZero.string_of_uint (Nat.to_uint n).

(** [str(z)] for an integer. *)
Definition of_Z (z : Z) : string := NilZero.string_of_int (Z.to_int z).

(** [sep.join(l)] *)
Fixpoint join (sep : string) (l : list string) : string :=
  match l with
  | [] => EmptyString
  | [s] => s
  | s :: l' => s +++ sep +++ join sep l'
  end.

(** [s * n] *)
Fixpoint repeat (s : string) (n : nat) : string :=
  match n with
  | O => EmptyString
  | S n' => s +++ repeat s n'
  end.

End PyStr.

(** ** Exceptions *)

Inductive result (A : Type) : Type :=
| Ok (a : A)
| Raise.
Arguments Ok {A} a.
Arguments Raise {A}.

Definition rbind {A B : Type} (r : result A) (k : A -> result B) : result B :=
  match r with
  | Ok a => k a
  | Raise => Raise
  end.

Declare Scope result_scope.
Delimit Scope result_scope with res.
Notation "x <- r ;; k" := (rbind r (fun x => k))
  (at level 61, r at next level, right associativity) : result_scope.

(** [[g(x) for x in l]] where [g] may raise. *)
Fixpoint rmap {A B : Type} (g : A -> result B) (l : list A) : result (list B) :=
  match l with
  | [] => Ok []
  | x :: l' =>
      match g x with
      | Ok y => match rmap g l' with
                | Ok ys => Ok (y :: ys)
                | Raise => Raise
                end
      | Raise => Raise
      end
  end.

(** ** Python values, as [json.load] builds them

    A dict is the list of its items in insertion order; its keys are
    distinct, as those of a Python dict are. *)

Inductive pyval : Type :=
| PNone
| PBool (b : bool)
| PInt (n : Z)
| PStr (s : string)
| PList (l : list pyval)
| PDict (d : list (string * pyval)).

Module Py.

(** [d.get(k)] on the items of a dict. *)
Fixpoint lookup {V : Type} (k : string) (d : list (string * V)) : option V :=
  match d with
  | [] => None
  | (k', v) :: d' => if String.eqb k k' then Some v else lookup k d'
  end.

(** [d.get(k, dflt)] *)
Definition get {V : Type} (d : list (string * V)) (k : string) (dflt : V) : V :=
  match lookup k d with
  | Some v => v
  | None => dflt
  end.

(** [x.get(k, dflt)]: an [AttributeError] unless [x] is a dict. *)
Definition obj_get (x : pyval) (k : string) (dflt : pyval) : result pyval :=
  match x with
  | PDict d => Ok (get d k dflt)
  | _ => Raise
  end.

(** [len(x)]: a [TypeError] on [None], booleans and numbers. *)
Definition len (x : pyval) : result nat :=
  match x with
  | PStr s => Ok (PyStr.len s)
  | PList l => Ok (List.length l)
  | PDict d => Ok (List.length d)
  | _ => Raise
  end.

(** The characters of a string, each a string of its own: a byte that
    begins a character is taken with the continuation bytes behind it,
    which are then passed over. *)
Fixpoint chars (s : string) : list pyval :=
  match s with
  | EmptyString => []
  | String c s' =>
      if PyStr.is_continuation c then chars s'
      else PStr (String c (PyStr.continuation s')) :: chars s'
  end.

(** The items [for x in v] visits: elements of a list, characters of a
    string, keys of a dict; a [TypeError] otherwise. *)
Definition iter (x : pyval) : result (list pyval) :=
  match x with
  | PStr s => Ok (chars s)
  | PList l => Ok l
  | PDict d => Ok (map (fun kv => PStr (fst kv)) d)
  | _ => Raise
  end.

(** Truth value of [x] in a condition. *)
Definition truthy (x : pyval) : bool :=
  match x with
  | PNone => false
  | PBool b => b
  | PInt n => negb (Z.eqb n 0)
  | PStr s => negb (String.eqb s EmptyString)
  | PList l => match l with [] => false | _ => true end
  | PDict d => match d with [] => false | _ => true end
  end.

(** Hashable values as dict keys and set members: [hash] and [==] agree
    on [True]/[1] and [False]/[0]; lists and dicts are unhashable. *)
Inductive hkey : Type :=
| KNone
| KInt (n : Z)
| KStr (s : string).

Definition key_of (x : pyval) : option hkey :=
  match x with
  | PNone => Some KNone
  | PBool b => Some (KInt (if b then 1 else 0)%Z)
  | PInt n => Some (KInt n)
  | PStr s => Some (KStr s)
  | PList _ | PDict _ => None
  end.

Definition hkey_eqb (a b : hkey) : bool :=
  match a, b with
  | KNone, KNone => true
  | KInt n, KInt m => Z.eqb n m
  | KStr s, KStr t => String.eqb s t
  | _, _ => false
  end.

Definition hashable (x : pyval) : bool :=
  match key_of x with Some _ => true | None => false end.

End Py.

(** ** ElementTree elements *)

Inductive xml : Type :=
| Element (tag : string) (text : option string) (children : list xml).

Module ET.

Definition tag (e : xml) : string := match e with Element t _ _ => t end.
Definition text (e : xml) : option string := match e with Element _ x _ => x end.
Definition children (e : xml) : list xml := match e with Element _ _ cs => cs end.

Definition has_tag (t : string) (e : xml) : bool := String.eqb t (tag e).

(** [e.find(t)]: the first child with tag [t], or [None]. *)
Definition find (t : string) (e : xml) : option xml :=
  List.find (has_tag t) (children e).

(** [e.findall('a/b')]: the [b] children of the [a] children, in
    document order. *)
Definition findall2 (a b : string) (e : xml) : list xml :=
  flat_map (fun c => filter (has_tag b) (children c))
           (filter (has_tag a) (children e)).

(** Every proper descendant of [e], in document order. *)
Fixpoint descendants (e : xml) : list xml :=
  match e with
  | Element _ _ cs => flat_map (fun c => c :: descendants c) cs
  end.

(** [e.findall('.//t')] *)
Definition findall_desc (t : string) (e : xml) : list xml :=
  filter (has_tag t) (descendants e).

(** [x.text if x is not None else dflt], where [x = e.find(t)]; the text
    of an element without character data is [None]. *)
Definition text_or (t : string) (dflt : string) (e : xml) : pyval :=
  match find t e with
  | Some x => match text x with Some s => PStr s | None => PNone end
  | None => PStr dflt
  end.

End ET.

(** ** Findings and recommendations *)

Module Finding.
Record t : Type := make {
  id : pyval;
  name : pyval;
  risk : string;
  confidence : pyval;
  description : pyval;
  solution : pyval;
  reference : pyval;
  instances : nat;
  urls : list pyval;
  cwe_id : pyval;
  wasc_id : pyval;
  source : string
}.
End Finding.
Abbreviation finding := Finding.t.

Module Recommendation.
Record t : Type := make {
  priority : string;
  finding_type : pyval;
  count : nat;
  risk : string;
  description : pyval;
  solution : pyval;
  affected_urls : list pyval;
  cwe_id : pyval
}.
End Recommendation.
Abbreviation recommendation := Recommendation.t.

(** ** Finding normalizer, JSON encoding *)

Definition zap_json_risk_map : list (string * string) :=
  [("High", "high"); ("Medium", "medium"); ("Low", "low");
   ("Informational", "informational")].

(** [risk_desc.split(' ')]: an [AttributeError] unless [risk_desc] is a
    string. *)
Definition py_split_space (x : pyval) : result (list string) :=
  match x with
  | PStr s => Ok (PyStr.split PyStr.space s)
  | _ => Raise
  end.

(** [l[0]] on a list of strings. *)
Definition first_word (l : list string) : result string :=
  match l with
  | w :: _ => Ok w
  | [] => Raise
  end.

(** Lines 82-83: the risk of a JSON alert. *)
Definition zap_json_risk (alert : pyval) : result string :=
  (risk_desc <- Py.obj_get alert "riskdesc" (PStr "Unknown") ;;
   words <- py_split_space risk_desc ;;
   word <- first_word words ;;
   Ok (Py.get zap_json_risk_map word "unknown"))%res.

(** [inst.get('uri', '')] *)
Definition instance_uri (inst : pyval) : result pyval :=
  Py.obj_get inst "uri" (PStr EmptyString).

Definition _parse_zap_alert (alert : pyval) : result finding :=
  (risk <- zap_json_risk alert ;;
   id <- Py.obj_get alert "pluginid" (PStr "unknown") ;;
   name <- Py.obj_get alert "name" (PStr "Unknown Alert") ;;
   confidence <- Py.obj_get alert "confidence" (PStr "Unknown") ;;
   description <- Py.obj_get alert "desc" (PStr EmptyString) ;;
   solution <- Py.obj_get alert "solution" (PStr EmptyString) ;;
   reference <- Py.obj_get alert "reference" (PStr EmptyString) ;;
   insts <- Py.obj_get alert "instances" (PList []) ;;
   instances <- Py.len insts ;;
   insts' <- Py.obj_get alert "instances" (PList []) ;;
   items <- Py.iter insts' ;;
   urls <- rmap instance_uri items ;;
   cwe_id <- Py.obj_get alert "cweid" (PStr EmptyString) ;;
   wasc_id <- Py.obj_get alert "wascid" (PStr EmptyString) ;;
   Ok (Finding.make id name risk confidence description solution reference
         instances urls cwe_id wasc_id "ZAP"))%res.

(** ** Finding normalizer, XML encoding *)

Definition zap_xml_risk_map : list (string * string) :=
  [("3", "high"); ("2", "medium"); ("1", "low"); ("0", "informational")].

(** Lines 109-110.  The key handed to [risk_map.get] is the text of the
    [riskcode] child, which is [None] for an element without character
    data, or ['0'] when there is no such child; [None] is not a key of the
    table. *)
Definition zap_xml_risk (alert : xml) : string :=
  match ET.find "riskcode" alert with
  | Some risk_code =>
      match ET.text risk_code with
      | Some code => Py.get zap_xml_risk_map code "unknown"
      | None => "unknown"
      end
  | None => Py.get zap_xml_risk_map "0" "unknown"
  end.

(** [[inst.find('uri').text for inst in instances
      if inst.find('uri') is not None]] *)
Fixpoint instance_uris (instances : list xml) : list pyval :=
  match instances with
  | [] => []
  | inst :: rest =>
      match ET.find "uri" inst with
      | Some uri =>
          (match ET.text uri with Some s => PStr s | None => PNone end)
            :: instance_uris rest
      | None => instance_uris rest
      end
  end.

Definition _parse_zap_xml_alert (alert : xml) : finding :=
  let risk := zap_xml_risk alert in
  let instances := ET.findall2 "instances" "instance" alert in
  Finding.make
    (ET.text_or "pluginid" "unknown" alert)
    (ET.text_or "name" "Unknown Alert" alert)
    risk
    (ET.text_or "confidence" "Unknown" alert)
    (ET.text_or "desc" EmptyString alert)
    (ET.text_or "solution" EmptyString alert)
    (ET.text_or "reference" EmptyString alert)
    (List.length instances)
    (instance_uris instances)
    (ET.text_or "cweid" EmptyString alert)
    (ET.text_or "wascid" EmptyString alert)
    "ZAP".

(** ** Risk classifier *)

(** The dict [self.risk_summary], in insertion order. *)
Definition risk_summary_t : Type := list (string * nat).

Definition initial_risk_summary : risk_summary_t :=
  [("critical", 0); ("high", 0); ("medium", 0); ("low", 0);
   ("informational", 0)].

(** [k in d] *)
Definition has_key {V : Type} (k : string) (d : list (string * V)) : bool :=
  match Py.lookup k d with Some _ => true | None => false end.

(** [d[k] += 1] for a key of [d]; the entry keeps its place. *)
Fixpoint increment (k : string) (d : risk_summary_t) : risk_summary_t :=
  match d with
  | [] => []
  | (k', n) :: d' =>
      if String.eqb k k' then (k', S n) :: d' else (k', n) :: increment k d'
  end.

(** Lines 131-132. *)
Definition update_risk_summary (risk : string) (rs : risk_summary_t) : risk_summary_t :=
  if has_key risk rs then increment risk rs else rs.

(** [sum(d.values())] *)
Definition sum_values (d : risk_summary_t) : nat :=
  fold_right (fun kv acc => snd kv + acc) 0 d.

(** [d[k]]: a [KeyError] when [k] is not a key. *)
Definition subscript {V : Type} (d : list (string * V)) (k : string) : result V :=
  match Py.lookup k d with
  | Some v => Ok v
  | None => Raise
  end.

(** ** The analyzer object, the console and the file system *)

Record analyzer : Type := mkAnalyzer {
  reports_dir : string;
  findings : list finding;
  recommendations : list recommendation;
  risk_summary : risk_summary_t
}.

(** [SecurityReportAnalyzer.__init__] *)
Definition init_analyzer (dir : string) : analyzer :=
  mkAnalyzer dir [] [] initial_risk_summary.

(** One call of [print].  [Printed_error p] is [print(f"{p}{e}")] for a
    caught exception [e], whose message is not modelled. *)
Inductive line : Type :=
| Printed (s : string)
| Printed_error (p : string).

(** What a file holds, as the two parsers see it: a JSON document, an XML
    document, or text that is neither. *)
Inductive content : Type :=
| Json (data : pyval)
| Xml (root : xml)
| Text (s : string).

Inductive node : Type :=
| File (c : content)
| Dir (names : list string).

(** [set_order l] is [list(set(l))] in the running interpreter: the
    iteration order of a set depends on the hashes of its members, which
    change from one process to the next.  [clock] is
    [datetime.now().strftime('%Y-%m-%d %H:%M:%S')]. *)
Record world : Type := mkWorld {
  self : analyzer;
  stdout : list line;
  disk : list (string * node);
  set_order : list pyval -> list pyval;
  clock : string
}.

(** An action returns a value or raises, and changes the world either
    way: what was done before an exception stays done. *)
Definition M (A : Type) : Type := world -> world * result A.

Definition ret {A : Type} (a : A) : M A := fun w => (w, Ok a).

Definition raise {A : Type} : M A := fun w => (w, Raise).

Definition bind {A B : Type} (m : M A) (k : A -> M B) : M B :=
  fun w =>
    match m w with
    | (w', Ok a) => k a w'
    | (w', Raise) => (w', Raise)
    end.

Declare Scope action_scope.
Delimit Scope action_scope with act.
Bind Scope action_scope with M.
Notation "x <- m ;; k" := (bind m (fun x => k))
  (at level 61, m at next level, right associativity) : action_scope.
Notation "m ;;; k" := (bind m (fun _ => k))
  (at level 61, right associativity) : action_scope.

(** A pure computation that may raise. *)
Definition lift {A : Type} (r : result A) : M A := fun w => (w, r).

(** [try: body except Exception as e: handler] *)
Definition try_except (body handler : M unit) : M unit :=
  fun w =>
    match body w with
    | (w', Ok tt) => (w', Ok tt)
    | (w', Raise) => handler w'
    end.

(** [for x in l: body(x)] *)
Fixpoint for_each {A : Type} (l : list A) (body : A -> M unit) : M unit :=
  match l with
  | [] => ret tt
  | x :: l' => (body x ;;; for_each l' body)%act
  end.

Definition get_self : M analyzer := fun w => (w, Ok (self w)).

Definition set_self (a : analyzer) : M unit :=
  fun w => (mkWorld a (stdout w) (disk w) (set_order w) (clock w), Ok tt).

Definition print (s : string) : M unit :=
  fun w => (mkWorld (self w) (stdout w ++ [Printed s]) (disk w) (set_order w) (clock w), Ok tt).

Definition print_error (p : string) : M unit :=
  fun w => (mkWorld (self w) (stdout w ++ [Printed_error p]) (disk w) (set_order w) (clock w), Ok tt).

(** [os.path.exists(p)] *)
Definition path_exists (p : string) : M bool :=
  fun w => (w, Ok (has_key p (disk w))).

(** [os.listdir(p)] *)
Definition listdir (p : string) : M (list string) :=
  fun w =>
    match Py.lookup p (disk w) with
    | Some (Dir names) => (w, Ok names)
    | _ => (w, Raise)
    end.

(** [with open(p, 'r') as f: json.load(f)] *)
Definition json_load (p : string) : M pyval :=
  fun w =>
    match Py.lookup p (disk w) with
    | Some (File (Json data)) => (w, Ok data)
    | _ => (w, Raise)
    end.

(** [ET.parse(p).getroot()] *)
Definition et_parse (p : string) : M xml :=
  fun w =>
    match Py.lookup p (disk w) with
    | Some (File (Xml root)) => (w, Ok root)
    | _ => (w, Raise)
    end.

(** [d[k] = v] *)
Fixpoint assign {V : Type} (k : string) (v : V) (d : list (string * V)) : list (string * V) :=
  match d with
  | [] => [(k, v)]
  | (k', v') :: d' =>
      if String.eqb k k' then (k, v) :: d' else (k', v') :: assign k v d'
  end.

Definition is_dir (p : string) (d : list (string * node)) : bool :=
  match Py.lookup p d with Some (Dir _) => true | _ => false end.

(** [p[:p.rfind('/') + 1]]: the path up to its last slash, the slash
    included; empty for a bare name. *)
Fixpoint dir_part (p : string) : string :=
  match p with
  | EmptyString => EmptyString
  | String c p' =>
      let d := dir_part p' in
      if Ascii.eqb c "/" || negb (String.eqb d EmptyString) then String c d
      else EmptyString
  end.

(** [s.rstrip('/')] *)
Fixpoint rstrip_slashes (s : string) : string :=
  match s with
  | EmptyString => EmptyString
  | String c s' =>
      let t := rstrip_slashes s' in
      if Ascii.eqb c "/" && String.eqb t EmptyString then EmptyString
      else String c t
  end.

(** [os.path.dirname(p)] on POSIX: the directory part without its
    trailing slashes, unless it consists of slashes only. *)
Definition dirname (p : string) : string :=
  let head := dir_part p in
  if String.eqb (rstrip_slashes head) EmptyString then head
  else rstrip_slashes head.

(** The directory that is to hold a new file [p] exists.  A bare name
    lies in the working directory, which exists; otherwise the directory
    part must name a directory, under the spelling of the path or under
    that of [dirname], the file system being a table of spellings. *)
Definition parent_is_dir (p : string) (d : list (string * node)) : bool :=
  String.eqb (dir_part p) EmptyString
  || is_dir (dir_part p) d
  || is_dir (dirname p) d.

(** [open(p, 'w')] succeeds: on an existing file; on a path that names
    nothing yet, has a last component and lies in an existing directory.
    It raises on a directory ([IsADirectoryError]), on the empty path and
    on a missing parent directory ([FileNotFoundError]).  Permissions and
    a full disk are not modelled. *)
Definition can_open_for_writing (p : string) (d : list (string * node)) : bool :=
  match Py.lookup p d with
  | Some (Dir _) => false
  | Some (File _) => true
  | None =>
      negb (String.eqb p EmptyString)
      && negb (String.eqb (dir_part p) p)
      && parent_is_dir p d
  end.

(** [with open(p, 'w') as f: f.write(doc)].  The parent directory's
    listing is left as it is: the script lists the directory once, before
    it writes. *)
Definition write_file (p : string) (doc : string) : M unit :=
  fun w =>
    if can_open_for_writing p (disk w) then
      (mkWorld (self w) (stdout w) (assign p (File (Text doc)) (disk w))
         (set_order w) (clock w), Ok tt)
    else (w, Raise).

(** [os.path.join(a, b)] on POSIX. *)
Definition path_join (a b : string) : string :=
  if PyStr.startswith "/" b then b
  else if String.eqb a EmptyString || PyStr.endswith "/" a then a +++ b
  else a +++ "/" +++ b.

(** ** Methods that ingest one report *)

(** [self.findings.append(finding)] *)
Definition append_finding (f : finding) : M unit :=
  (a <- get_self ;;
   set_self (mkAnalyzer (reports_dir a) (findings a ++ [f]) (recommendations a)
               (risk_summary a)))%act.

Definition _update_risk_summary (risk : string) : M unit :=
  (a <- get_self ;;
   set_self (mkAnalyzer (reports_dir a) (findings a) (recommendations a)
               (update_risk_summary risk (risk_summary a))))%act.

(** [k in x] for a string [k]: key of a dict, element of a list,
    substring of a string; a [TypeError] otherwise. *)
Definition py_in (k : string) (x : pyval) : result bool :=
  match x with
  | PDict d => Ok (has_key k d)
  | PList l =>
      Ok (existsb (fun y => match y with PStr s => String.eqb k s | _ => false end) l)
  | PStr s => Ok (PyStr.contains k s)
  | _ => Raise
  end.

(** [x[k]] for a string [k]: only a dict can be indexed by a string. *)
Definition py_item (x : pyval) (k : string) : result pyval :=
  match x with
  | PDict d => subscript d k
  | _ => Raise
  end.

(** [x[0]]: the first element of a list, the first character of a string;
    a dict loaded from JSON has no key [0]. *)
Definition py_item0 (x : pyval) : result pyval :=
  match x with
  | PList (y :: _) => Ok y
  | PStr s => match PyStr.first_char s with
              | Some c => Ok (PStr c)
              | None => Raise
              end
  | _ => Raise
  end.

(** The condition ['site' in data and len(data['site']) > 0]. *)
Definition has_site (data : pyval) : result bool :=
  (present <- py_in "site" data ;;
   if present : bool then
     (site <- py_item data "site" ;;
      n <- Py.len site ;;
      Ok (0 <? n))
   else Ok false)%res.

(** Lines 42-44, one turn of the loop over the alerts. *)
Definition ingest_json_alert (alert : pyval) : M unit :=
  (finding <- lift (_parse_zap_alert alert) ;;
   append_finding finding ;;;
   _update_risk_summary (Finding.risk finding))%act.

Definition analyze_zap_json_report (json_file : string) : M unit :=
  try_except
    (data <- json_load json_file ;;
     print ("📊 Analyzing ZAP JSON report: " +++ json_file) ;;;
     site_ok <- lift (has_site data) ;;
     if site_ok : bool then
       (site <- lift (py_item data "site") ;;
        site0 <- lift (py_item0 site) ;;
        alerts <- lift (Py.obj_get site0 "alerts" (PList [])) ;;
        items <- lift (Py.iter alerts) ;;
        for_each items ingest_json_alert ;;;
        n <- lift (Py.len alerts) ;;
        print ("   Found " +++ PyStr.of_nat n +++ " security alerts"))
     else
       print "   No alerts found in ZAP report")%act
    (print_error "❌ Error analyzing ZAP JSON report: ").

(** Lines 64-66, one turn of the loop over the alert items. *)
Definition ingest_xml_alert (alert : xml) : M unit :=
  (let finding := _parse_zap_xml_alert alert in
   append_finding finding ;;;
   _update_risk_summary (Finding.risk finding))%act.

Definition analyze_zap_xml_report (xml_file : string) : M unit :=
  try_except
    (root <- et_parse xml_file ;;
     print ("📊 Analyzing ZAP XML report: " +++ xml_file) ;;;
     let alerts := ET.findall_desc "alertitem" root in
     for_each alerts ingest_xml_alert ;;;
     print ("   Found " +++ PyStr.of_nat (List.length alerts) +++ " security alerts"))%act
    (print_error "❌ Error analyzing ZAP XML report: ").

(** ** Recommendation engine *)

(** The dict [finding_types], in insertion order.  An entry keeps the key
    object that created it and the findings appended since. *)
Definition groups_t : Type := list (Py.hkey * (pyval * list finding)).

Definition group_mem (k : Py.hkey) (g : groups_t) : bool :=
  existsb (fun e => Py.hkey_eqb k (fst e)) g.

(** [finding_types[k].append(f)] *)
Fixpoint group_append (k : Py.hkey) (f : finding) (g : groups_t) : groups_t :=
  match g with
  | [] => []
  | (k', (n, fs)) :: g' =>
      if Py.hkey_eqb k k' then (k', (n, fs ++ [f])) :: g'
      else (k', (n, fs)) :: group_append k f g'
  end.

(** Lines 141-144, one turn of the grouping loop; an unhashable name is a
    [TypeError]. *)
Definition group_finding (g : groups_t) (f : finding) : result groups_t :=
  match Py.key_of (Finding.name f) with
  | None => Raise
  | Some k =>
      let g' := if group_mem k g then g else g ++ [(k, (Finding.name f, []))] in
      Ok (group_append k f g')
  end.

(** Lines 139-144. *)
Fixpoint group_findings (g : groups_t) (fs : list finding) : result groups_t :=
  match fs with
  | [] => Ok g
  | f :: fs' =>
      match group_finding g f with
      | Ok g' => group_findings g' fs'
      | Raise => Raise
      end
  end.

(** Lines 148-153. *)
Definition priority_of (risk : string) : string :=
  if existsb (String.eqb risk) ["critical"; "high"] then "HIGH"
  else if String.eqb risk "medium" then "MEDIUM"
  else "LOW".

(** [d[:200] + '...' if len(d) > 200 else d].  [len] raises on [None],
    booleans and numbers; a long list cannot be added to a string and a
    dict cannot be sliced. *)
Definition truncate_description (d : pyval) : result pyval :=
  (n <- Py.len d ;;
   if 200 <? n then
     match d with
     | PStr s => Ok (PStr (PyStr.take 200 s +++ "..."))
     | _ => Raise
     end
   else Ok d)%res.

(** [list(set([url for finding in findings for url in finding['urls']]))[:5]];
    [set] raises on an unhashable member. *)
Definition affected_urls_of (order : list pyval -> list pyval)
    (members : list finding) : result (list pyval) :=
  let all := flat_map Finding.urls members in
  if forallb Py.hashable all then Ok (firstn 5 (order all)) else Raise.

(** Lines 148-164: the recommendation of one group. *)
Definition make_recommendation (order : list pyval -> list pyval)
    (finding_type : pyval) (members : list finding) : result recommendation :=
  match members with
  | [] => Raise
  | first :: _ =>
      (let priority := priority_of (Finding.risk first) in
       description <- truncate_description (Finding.description first) ;;
       affected_urls <- affected_urls_of order members ;;
       Ok (Recommendation.make priority finding_type (List.length members)
             (Finding.risk first) description (Finding.solution first)
             affected_urls (Finding.cwe_id first)))%res
  end.

Definition priority_order : list (string * nat) :=
  [("HIGH", 0); ("MEDIUM", 1); ("LOW", 2)].

Definition risk_order : list (string * nat) :=
  [("critical", 0); ("high", 1); ("medium", 2); ("low", 3); ("informational", 4)].

(** The key of line 172. *)
Definition sort_key (x : recommendation) : nat * nat :=
  (Py.get priority_order (Recommendation.priority x) 3,
   Py.get risk_order (Recommendation.risk x) 5).

(** Comparison of two key tuples, [a <= b]. *)
Definition key_leb (a b : nat * nat) : bool :=
  (fst a <? fst b) || ((fst a =? fst b) && (snd a <=? snd b)).


(** [l.sort(key=key)].  Python's sort is stable, which fixes its result;
    the model is the insertion sort that places an element before the
    elements of an equal key that followed it. *)
Section StableSort.

Variable A : Type.
Variable key : A -> nat * nat.

Fixpoint insert_by_key (x : A) (l : list A) : list A :=
  match l with
  | [] => [x]
  | y :: l' =>
      if key_leb (key x) (key y) then x :: y :: l'
      else y :: insert_by_key x l'
  end.

Definition sort_by_key (l : list A) : list A :=
  fold_right insert_by_key [] l.

End StableSort.
Arguments insert_by_key {A} key x l.
Arguments sort_by_key {A} key l.

(** [self.recommendations.append(recommendation)] *)
Definition append_recommendation (r : recommendation) : M unit :=
  (a <- get_self ;;
   set_self (mkAnalyzer (reports_dir a) (findings a) (recommendations a ++ [r])
               (risk_summary a)))%act.

(** [self.recommendations.sort(key=...)] *)
Definition sort_recommendations : M unit :=
  (a <- get_self ;;
   set_self (mkAnalyzer (reports_dir a) (findings a)
               (sort_by_key sort_key (recommendations a)) (risk_summary a)))%act.

Definition get_set_order : M (list pyval -> list pyval) :=
  fun w => (w, Ok (set_order w)).

(** Lines 147-166, one turn of the loop over [finding_types.items()]. *)
Definition recommend_group (order : list pyval -> list pyval)
    (item : Py.hkey * (pyval * list finding)) : M unit :=
  (let finding_type := fst (snd item) in
   let members := snd (snd item) in
   recommendation <- lift (make_recommendation order finding_type members) ;;
   append_recommendation recommendation)%act.

Definition generate_recommendations : M unit :=
  (print "🔍 Generating security recommendations..." ;;;
   a <- get_self ;;
   finding_types <- lift (group_findings [] (findings a)) ;;
   order <- get_set_order ;;
   for_each finding_types (recommend_group order) ;;;
   sort_recommendations)%act.

(** ** Report renderer *)

Definition nl : string := String (ascii_of_nat 10) EmptyString.

Definition status_excellent : string :=
  "✅ **EXCELLENT**: No security vulnerabilities were identified during the assessment.".
Definition status_good : string :=
  "✅ **GOOD**: No critical or high-risk vulnerabilities found.".
Definition status_attention : string :=
  "⚠️ **ATTENTION REQUIRED**: Few high-risk vulnerabilities identified.".
Definition status_immediate : string :=
  "🚨 **IMMEDIATE ACTION REQUIRED**: Multiple high-risk vulnerabilities found.".

(** Lines 183-188. *)
Definition status_of (critical_high : nat) : string :=
  if critical_high =? 0 then status_good
  else if critical_high <=? 3 then status_attention
  else status_immediate.

(** Lines 190-201: the f-string of the summary. *)
Definition summary_paragraph (status : string)
    (critical high medium low informational total_findings : nat) : string :=
  nl +++ status +++ nl +++ nl
  +++ "**Risk Distribution:**" +++ nl
  +++ "- Critical: " +++ PyStr.of_nat critical +++ nl
  +++ "- High: " +++ PyStr.of_nat high +++ nl
  +++ "- Medium: " +++ PyStr.of_nat medium +++ nl
  +++ "- Low: " +++ PyStr.of_nat low +++ nl
  +++ "- Informational: " +++ PyStr.of_nat informational +++ nl
  +++ nl
  +++ "**Total Findings:** " +++ PyStr.of_nat total_findings +++ nl.

(** Lines 176-202 as a function of [self.risk_summary]; subscripting the
    dict with a missing key is a [KeyError]. *)
Definition executive_summary (rs : risk_summary_t) : result string :=
  let total_findings := sum_values rs in
  if total_findings =? 0 then Ok status_excellent
  else
    (critical <- subscript rs "critical" ;;
     high <- subscript rs "high" ;;
     let critical_high := critical + high in
     let status := status_of critical_high in
     critical' <- subscript rs "critical" ;;
     high' <- subscript rs "high" ;;
     medium <- subscript rs "medium" ;;
     low <- subscript rs "low" ;;
     informational <- subscript rs "informational" ;;
     Ok (summary_paragraph status critical' high' medium low informational
           total_findings))%res.

Definition generate_executive_summary : M string :=
  (a <- get_self ;; lift (executive_summary (risk_summary a)))%act.

(** The integer nearest to [q], ties to even. *)
Definition round_half_even (q : Q) : Z :=
  let n := Qnum q in
  let d := Zpos (Qden q) in
  let fl := (n / d)%Z in
  let r2 := (2 * (n mod d))%Z in
  if (r2 <? d)%Z then fl
  else if (d <? r2)%Z then (fl + 1)%Z
  else if Z.even fl then fl else (fl + 1)%Z.

(** Python's [float] is IEEE 754 binary64: 53 significant bits, the last
    of them of weight [2^e] with [-1074 <= e <= 971], results rounded to
    the nearest float, ties to the even significand.  A finite float is
    kept as the rational number it denotes.  Zero has no sign here: the
    script divides and multiplies counts, which are never negative. *)
Module Float.

Inductive t : Type :=
| Finite (v : Q)
| Infinite (negative : bool).

Definition pow2 (e : Z) : Q := (2 ^ e)%Q.

(** The [k] with [2^k <= n/d < 2^(k+1)]. *)
Definition binade (n d : positive) : Z :=
  let k := (Z.log2 (Zpos n) - Z.log2 (Zpos d))%Z in
  if Qle_bool (pow2 k) (Zpos n # d) then k else (k - 1)%Z.

(** The weight of the last bit of a float in the binade [k]; below
    [2^-1022] the floats are evenly spaced (subnormal). *)
Definition ulp_exponent (k : Z) : Z := Z.max (k - 52) (-1074).

(** The float nearest to the positive number [q], whose numerator is
    [n]. *)
Definition round_positive (n : positive) (q : Q) : t :=
  let e := ulp_exponent (binade n (Qden q)) in
  let m := round_half_even (q / pow2 e) in
  let v := (inject_Z m * pow2 e)%Q in
  if Qle_bool (pow2 1024) v then Infinite false else Finite v.

Definition opp (x : t) : t :=
  match x with
  | Finite v => Finite (- v)
  | Infinite s => Infinite (negb s)
  end.

(** The float nearest to [q]. *)
Definition round (q : Q) : t :=
  match Qnum q with
  | Z0 => Finite 0
  | Zpos n => round_positive n q
  | Zneg n => opp (round_positive n (- q))
  end.

(** [x * y] for two finite floats. *)
Definition mul (x y : Q) : t := round (x * y).

End Float.

(** [a / b] on integers: a [ZeroDivisionError] when [b] is zero, otherwise
    the float nearest to the quotient, which is finite, or an
    [OverflowError] when the quotient is beyond the largest float. *)
Definition truediv (a b : nat) : result Q :=
  if b =? 0 then Raise
  else match Float.round (Z.of_nat a # Pos.of_nat b) with
       | Float.Finite v => Ok v
       | Float.Infinite _ => Raise
       end.

(** Line 224: [(count / total * 100) if total > 0 else 0].  The integer
    [100] becomes the float [100.0], which is exact; the integer [0] of
    the second branch is printed by [.1f] as the float zero is. *)
Definition percentage (count total : nat) : result Float.t :=
  if 0 <? total then (q <- truediv count total ;; Ok (Float.mul q 100))%res
  else Ok (Float.Finite 0).

(** The value of [q] in tenths, as [f"{q:.1f}"] prints it: the decimal
    expansion of the float, rounded to one place, ties to even. *)
Definition tenths (q : Q) : Z := round_half_even (q * 10)%Q.

(** [f"{x:.1f}"] *)
Definition format_1f (x : Float.t) : string :=
  match x with
  | Float.Finite v =>
      let a := Z.abs (tenths v) in
      (if (Qnum v <? 0)%Z then "-" else EmptyString)
        +++ PyStr.of_Z (a / 10) +++ "." +++ PyStr.of_Z (a mod 10)
  | Float.Infinite s => if s then "-inf" else "inf"
  end.

(** Lines 224-225: one row of the risk table. *)
Definition risk_table_row (total : nat) (item : string * nat) : result string :=
  (let risk := fst item in
   let count := snd item in
   pct <- percentage count total ;;
   Ok ("| " +++ PyStr.title risk +++ " | " +++ PyStr.of_nat count +++ " | "
       +++ format_1f pct +++ "% |" +++ nl))%res.

(** Lines 222-226. *)
Definition risk_table (rs : risk_summary_t) : result string :=
  (let total := sum_values rs in
   rows <- rmap (risk_table_row total) rs ;;
   Ok (String.concat EmptyString rows +++ nl))%res.

Definition quote2 : ascii := ascii_of_nat 34.
Definition quote1 : ascii := "'"%char.
Definition backslash : ascii := "\"%char.

Definition hex_digit (n : nat) : ascii :=
  if n <? 10 then ascii_of_nat (48 + n) else ascii_of_nat (87 + n).

(** The body of [repr(s)] between quotes [q]; characters beyond ASCII are
    kept as they are. *)
Fixpoint repr_escape (q : ascii) (s : string) : string :=
  match s with
  | EmptyString => EmptyString
  | String c s' =>
      let n := nat_of_ascii c in
      (if Ascii.eqb c backslash then String backslash (String backslash EmptyString)
       else if Ascii.eqb c q then String backslash (String q EmptyString)
       else if n =? 10 then String backslash "n"
       else if n =? 13 then String backslash "r"
       else if n =? 9 then String backslash "t"
       else if (n <? 32) || (n =? 127) then
         String backslash (String "x" (String (hex_digit (n / 16))
                                         (String (hex_digit (n mod 16)) EmptyString)))
       else String c EmptyString)
        +++ repr_escape q s'
  end.

(** [repr(s)] for a string. *)
Definition repr_str (s : string) : string :=
  let q := if PyStr.contains "'" s && negb (PyStr.contains (String quote2 EmptyString) s)
           then quote2 else quote1 in
  String q (repr_escape q s +++ String q EmptyString).

(** [repr(v)] *)
Fixpoint py_repr (v : pyval) : string :=
  match v with
  | PNone => "None"
  | PBool true => "True"
  | PBool false => "False"
  | PInt n => PyStr.of_Z n
  | PStr s => repr_str s
  | PList l => "[" +++ PyStr.join ", " (map py_repr l) +++ "]"
  | PDict d =>
      "{" +++ PyStr.join ", "
                (map (fun kv : string * pyval =>
                      let (k, x) := kv in repr_str k +++ ": " +++ py_repr x) d)
          +++ "}"
  end.

(** [str(v)], the text an f-string substitutes for [{v}]. *)
Definition py_str (v : pyval) : string :=
  match v with
  | PStr s => s
  | _ => py_repr v
  end.

(** [enumerate(l, i)] *)
Fixpoint enumerate {A : Type} (i : nat) (l : list A) : list (nat * A) :=
  match l with
  | [] => []
  | x :: l' => (i, x) :: enumerate (S i) l'
  end.

Definition is_high_priority (r : recommendation) : bool :=
  String.eqb (Recommendation.priority r) "HIGH".

(** Lines 234-246. *)
Definition render_recommendation (item : nat * recommendation) : string :=
  let i := fst item in
  let rec := snd item in
  "### " +++ PyStr.of_nat i +++ ". " +++ py_str (Recommendation.finding_type rec)
    +++ " (" +++ PyStr.of_nat (Recommendation.count rec) +++ " instances)" +++ nl
  +++ "**Risk Level:** " +++ PyStr.title (Recommendation.risk rec) +++ nl
  +++ "**Priority:** " +++ Recommendation.priority rec +++ nl +++ nl
  +++ "**Description:** " +++ py_str (Recommendation.description rec) +++ nl +++ nl
  +++ "**Solution:** " +++ py_str (Recommendation.solution rec) +++ nl +++ nl
  +++ (if Py.truthy (Recommendation.cwe_id rec)
       then "**CWE ID:** " +++ py_str (Recommendation.cwe_id rec) +++ nl +++ nl
       else EmptyString)
  +++ (match Recommendation.affected_urls rec with
       | [] => EmptyString
       | urls =>
           "**Sample Affected URLs:**" +++ nl
           +++ String.concat EmptyString (map (fun url => "- " +++ py_str url +++ nl) urls)
           +++ nl
       end)
  +++ "---" +++ nl +++ nl.

(** Lines 253-263. *)
Definition render_finding (item : nat * finding) : string :=
  let i := fst item in
  let f := snd item in
  "### Finding " +++ PyStr.of_nat i +++ ": " +++ py_str (Finding.name f) +++ nl
  +++ "- **Risk:** " +++ PyStr.title (Finding.risk f) +++ nl
  +++ "- **Confidence:** " +++ py_str (Finding.confidence f) +++ nl
  +++ "- **Plugin ID:** " +++ py_str (Finding.id f) +++ nl
  +++ "- **Instances:** " +++ PyStr.of_nat (Finding.instances f) +++ nl
  +++ (if Py.truthy (Finding.cwe_id f)
       then "- **CWE ID:** " +++ py_str (Finding.cwe_id f) +++ nl
       else EmptyString)
  +++ nl +++ "**Description:** " +++ py_str (Finding.description f) +++ nl +++ nl
  +++ (if Py.truthy (Finding.solution f)
       then "**Solution:** " +++ py_str (Finding.solution f) +++ nl +++ nl
       else EmptyString)
  +++ "---" +++ nl +++ nl.

(** Lines 209-263: the text written to the output file. *)
Definition detailed_report (now : string) (a : analyzer) : result string :=
  (summary <- executive_summary (risk_summary a) ;;
   table <- risk_table (risk_summary a) ;;
   let high_priority := filter is_high_priority (recommendations a) in
   Ok ("# Security Analysis Report" +++ nl
       +++ "## Blockchain EMR System" +++ nl +++ nl
       +++ "**Generated:** " +++ now +++ nl +++ nl
       +++ "## Executive Summary" +++ nl
       +++ summary
       +++ nl +++ nl
       +++ "## Risk Summary" +++ nl +++ nl
       +++ "| Risk Level | Count | Percentage |" +++ nl
       +++ "|------------|-------|------------|" +++ nl
       +++ table
       +++ "## Priority Recommendations" +++ nl +++ nl
       +++ (match high_priority with
            | [] => "No high-priority recommendations at this time." +++ nl +++ nl
            | _ => String.concat EmptyString
                     (map render_recommendation (enumerate 1 (firstn 10 high_priority)))
            end)
       +++ "## Detailed Findings" +++ nl +++ nl
       +++ String.concat EmptyString (map render_finding (enumerate 1 (findings a)))))%res.

Definition get_clock : M string := fun w => (w, Ok (clock w)).

(** The rows of the table written before a row raises. *)
Fixpoint written_rows (total : nat) (rs : risk_summary_t) : string :=
  match rs with
  | [] => EmptyString
  | item :: rest =>
      match risk_table_row total item with
      | Ok row => row +++ written_rows total rest
      | Raise => EmptyString
      end
  end.

(** What lines 209-226 have written when one of them raises: the
    heading up to the call of [generate_executive_summary] when that
    raises, and up to the last complete row of the table when a
    percentage does.  Nothing after the table can raise. *)
Definition written_before_failure (now : string) (a : analyzer) : string :=
  let head :=
    "# Security Analysis Report" +++ nl
    +++ "## Blockchain EMR System" +++ nl +++ nl
    +++ "**Generated:** " +++ now +++ nl +++ nl
    +++ "## Executive Summary" +++ nl in
  match executive_summary (risk_summary a) with
  | Raise => head
  | Ok summary =>
      head +++ summary +++ nl +++ nl
      +++ "## Risk Summary" +++ nl +++ nl
      +++ "| Risk Level | Count | Percentage |" +++ nl
      +++ "|------------|-------|------------|" +++ nl
      +++ written_rows (sum_values (risk_summary a)) (risk_summary a)
  end.

(** The body of the [with] statement: the whole document, or what was
    written of it when an exception ends the block, which closes the
    file and lets the exception pass. *)
Definition write_report (output_file now : string) (a : analyzer) : M unit :=
  match detailed_report now a with
  | Ok doc => write_file output_file doc
  | Raise =>
      (write_file output_file (written_before_failure now a) ;;; raise)%act
  end.

(** The file is created or emptied when it is opened. *)
Definition generate_detailed_report (output_file : string) : M unit :=
  (print ("📝 Generating detailed report: " +++ output_file) ;;;
   write_file output_file EmptyString ;;;
   now <- get_clock ;;
   a <- get_self ;;
   write_report output_file now a)%act.

(** ** Report discovery *)

Definition is_zap_report (ext filename : string) : bool :=
  PyStr.endswith ext filename && PyStr.contains "zap" (PyStr.lower filename).

Definition analyze_all_reports : M unit :=
  (a <- get_self ;;
   print ("🔍 Scanning for security reports in: " +++ reports_dir a) ;;;
   found <- path_exists (reports_dir a) ;;
   if negb found then
     print ("❌ Reports directory not found: " +++ reports_dir a)
   else
     (names <- listdir (reports_dir a) ;;
      for_each names (fun filename =>
        let filepath := path_join (reports_dir a) filename in
        if is_zap_report ".json" filename then analyze_zap_json_report filepath
        else if is_zap_report ".xml" filename then analyze_zap_xml_report filepath
        else ret tt) ;;;
      a' <- get_self ;;
      print ("📊 Analysis complete. Found " +++ PyStr.of_nat (List.length (findings a'))
             +++ " total findings.") ;;;
      generate_recommendations ;;;
      let output_file := path_join (reports_dir a) "security-analysis-report.md" in
      generate_detailed_report output_file ;;;
      print (nl +++ PyStr.repeat "=" 60) ;;;
      print "SECURITY ANALYSIS SUMMARY" ;;;
      print (PyStr.repeat "=" 60) ;;;
      summary <- generate_executive_summary ;;
      print summary ;;;
      print (nl +++ "📄 Detailed report saved to: " +++ output_file)))%act.

(** [main] with [--reports-dir dir]: a fresh analyzer, one run. *)
Definition main (dir : string) : M unit :=
  (set_self (init_analyzer dir) ;;; analyze_all_reports)%act.

(** ** Vocabulary of the statements *)

(** The values the [risk] field of a finding may take. *)
Definition risk_values : list string :=
  ["critical"; "high"; "medium"; "low"; "informational"; "unknown"].

(** The part of a risk description that names the level. *)
Definition risk_token (risk_desc : string) : string :=
  PyStr.before PyStr.space risk_desc.

(** An [instance] node with a [uri] child. *)
Definition has_uri (inst : xml) : bool :=
  match ET.find "uri" inst with Some _ => true | None => false end.

(** A risk label that has a bucket in the summary. *)
Definition recognized (risk : string) : bool :=
  has_key risk initial_risk_summary.

(** The summary after one update per risk label, in order. *)
Definition classify_all (risks : list string) (rs : risk_summary_t) : risk_summary_t :=
  fold_left (fun acc risk => update_risk_summary risk acc) risks rs.

(** Number of findings of a given risk. *)
Definition count_risk (risk : string) (fs : list finding) : nat :=
  List.length (filter (fun f => String.eqb (Finding.risk f) risk) fs).

(** Number of findings whose risk has a bucket. *)
Definition count_recognized (fs : list finding) : nat :=
  List.length (filter (fun f => recognized (Finding.risk f)) fs).

(** The analyzer after the findings [new] were appended and classified. *)
Definition ingest (new : list finding) (a : analyzer) : analyzer :=
  mkAnalyzer (reports_dir a) (findings a ++ new) (recommendations a)
    (classify_all (map Finding.risk new) (risk_summary a)).

(** The world with another analyzer; the world after more console output. *)
Definition with_self (a : analyzer) (w : world) : world :=
  mkWorld a (stdout w) (disk w) (set_order w) (clock w).
Definition with_output (out : list line) (w : world) : world :=
  mkWorld (self w) (stdout w ++ out) (disk w) (set_order w) (clock w).

(** The summary agrees with the findings: it is what one update per
    finding makes of the all-zero summary. *)
Definition consistent (a : analyzer) : Prop :=
  risk_summary a
  = classify_all (map Finding.risk (findings a)) initial_risk_summary.

(** The analyzer [a'] has the findings of [a] and possibly more, each
    classified into the summary of [a]. *)
Definition extends (a a' : analyzer) : Prop :=
  exists new,
    findings a' = findings a ++ new /\
    risk_summary a' = classify_all (map Finding.risk new) (risk_summary a).

(** An action that only ever appends findings and classifies them. *)
Definition accumulates {A : Type} (m : M A) : Prop :=
  forall w, extends (self w) (self (fst (m w))).

(** The key under which a finding is grouped, when its name is hashable. *)
Definition name_key (f : finding) : option Py.hkey := Py.key_of (Finding.name f).

(** The keys of the findings with a hashable name, in order. *)
Definition keys_of (fs : list finding) : list Py.hkey :=
  flat_map (fun f => match name_key f with Some k => [k] | None => [] end) fs.

(** The distinct keys of a list, in order of first appearance. *)
Fixpoint distinct (ks : list Py.hkey) : list Py.hkey :=
  match ks with
  | [] => []
  | k :: ks' => k :: filter (fun k' => negb (Py.hkey_eqb k k')) (distinct ks')
  end.

Definition has_name_key (k : Py.hkey) (f : finding) : bool :=
  match name_key f with
  | Some k' => Py.hkey_eqb k k'
  | None => false
  end.

(** The findings that share the name of key [k], in order. *)
Definition members (k : Py.hkey) (fs : list finding) : list finding :=
  filter (has_name_key k) fs.

(** Grouping, stated on the whole list: one group per distinct name in
    order of first appearance, holding the name as first seen and the
    findings of that name. *)
Definition group_of (fs : list finding) (k : Py.hkey)
    : Py.hkey * (pyval * list finding) :=
  (k, (match members k fs with f :: _ => Finding.name f | [] => PNone end,
       members k fs)).

Definition grouped (fs : list finding) : groups_t :=
  map (group_of fs) (distinct (keys_of fs)).

(** The recommendation [r] stands for the findings of key [k]: it counts
    them and takes its fields from the first of them. *)
Definition describes_group (fs : list finding) (r : recommendation) (k : Py.hkey) : Prop :=
  exists first rest,
    members k fs = first :: rest /\
    Py.key_of (Recommendation.finding_type r) = Some k /\
    Recommendation.finding_type r = Finding.name first /\
    Recommendation.count r = List.length (members k fs) /\
    Recommendation.risk r = Finding.risk first /\
    Recommendation.solution r = Finding.solution first /\
    Recommendation.cwe_id r = Finding.cwe_id first /\
    (Finding.risk first = "critical" \/ Finding.risk first = "high" ->
     Recommendation.priority r = "HIGH") /\
    (Finding.risk first = "medium" -> Recommendation.priority r = "MEDIUM") /\
    (Finding.risk first <> "critical" -> Finding.risk first <> "high" ->
     Finding.risk first <> "medium" -> Recommendation.priority r = "LOW").

(** Ascending order of the sort keys. *)
Definition sorted_by_key (recs : list recommendation) : Prop :=
  StronglySorted (fun a b => key_leb (sort_key a) (sort_key b) = true) recs.






(** The keys of the hashable values of a list, in order. *)
Definition value_keys (l : list pyval) : list Py.hkey :=
  flat_map (fun x => match Py.key_of x with Some k => [k] | None => [] end) l.

(** [l] is a listing of the set of the values [all]: its members are
    members of [all], no two of them are equal as set members, and every
    member of [all] is equal to one of them. *)
Definition lists_the_set (l all : list pyval) : Prop :=
  NoDup (map Py.key_of l) /\
  (forall x, In x l -> In x all) /\
  (forall x, In x all -> In (Py.key_of x) (map Py.key_of l)).


(** The entries one run of the engine appends, in the order of the
    groups. *)
Definition new_recommendations (order : list pyval -> list pyval)
    (fs : list finding) : result (list recommendation) :=
  (finding_types <- group_findings [] fs ;;
   rmap (fun item => make_recommendation order (fst (snd item)) (snd (snd item)))
     finding_types)%res.

(** The analyzer with another recommendation list. *)
Definition with_recommendations (recs : list recommendation) (a : analyzer) : analyzer :=
  mkAnalyzer (reports_dir a) (findings a) recs (risk_summary a).

(** An action under which a property of the world, once true, stays
    true, whether the action returns or raises. *)
Definition keeps (I : world -> Prop) {A : Type} (m : M A) : Prop :=
  forall w, I w -> I (fst (m w)).

(** Properties that do not depend on the console, on the file system, on
    the recommendation list. *)
Definition ignores_stdout (I : world -> Prop) : Prop :=
  forall w out, I w -> I (mkWorld (self w) out (disk w) (set_order w) (clock w)).
Definition ignores_disk (I : world -> Prop) : Prop :=
  forall w d, I w -> I (mkWorld (self w) (stdout w) d (set_order w) (clock w)).
Definition ignores_recommendations (I : world -> Prop) : Prop :=
  forall w recs, I w -> I (with_self (with_recommendations recs (self w)) w).

(** [w'] differs from [w] at most in the recommendation list and the
    console. *)
Definition same_but_recommendations (w w' : world) : Prop :=
  reports_dir (self w') = reports_dir (self w) /\
  findings (self w') = findings (self w) /\
  risk_summary (self w') = risk_summary (self w) /\
  disk w' = disk w /\
  set_order w' = set_order w /\
  clock w' = clock w.

(** A finding as the two normalizers make them: a risk out of their
    tables, or "unknown", and the scanner's tag. *)
Definition normalized (f : finding) : Prop :=
  In (Finding.risk f) ["high"; "medium"; "low"; "informational"; "unknown"] /\
  Finding.source f = "ZAP".

Definition is_dict (x : pyval) : bool :=
  match x with PDict _ => true | _ => false end.

(** The [instances] array of a JSON alert, empty when it has none. *)
Definition json_instances (alert : pyval) : list pyval :=
  match alert with
  | PDict d =>
      match Py.get d "instances" (PList []) with
      | PList l => l
      | _ => []
      end
  | _ => []
  end.

(** A JSON alert of the documented shape: an object whose [riskdesc], when
    present, is a string and whose [instances], when present, is an array
    of objects. *)
Definition valid_json_alert (alert : pyval) : bool :=
  match alert with
  | PDict d =>
      match Py.get d "riskdesc" (PStr "Unknown") with
      | PStr _ => true
      | _ => false
      end
      && match Py.get d "instances" (PList []) with
         | PList l => forallb is_dict l
         | _ => false
         end
  | _ => false
  end.

(** The [alerts] array of the first site of a JSON report. *)
Definition json_alerts (data : pyval) : option (list pyval) :=
  match data with
  | PDict d =>
      match Py.lookup "site" d with
      | Some (PList (PDict site0 :: _)) =>
          match Py.get site0 "alerts" (PList []) with
          | PList l => Some l
          | _ => None
          end
      | _ => None
      end
  | _ => None
  end.

(** Number of elements with tag [t] in the tree [e], [e] included. *)
Fixpoint count_elements (t : string) (e : xml) : nat :=
  match e with
  | Element tag _ cs =>
      (if String.eqb t tag then 1 else 0) + list_sum (map (count_elements t) cs)
  end.

(** Number of [instance] children of the [instances] children of an
    alert item. *)
Definition count_instance_nodes (alert : xml) : nat :=
  list_sum
    (map (fun c =>
            if ET.has_tag "instances" c
            then List.length (filter (ET.has_tag "instance") (ET.children c))
            else 0)
       (ET.children alert)).

(** Sum of a list of rationals, of a list of integers. *)
Definition sum_Q (l : list Q) : Q := fold_right Qplus 0%Q l.
Definition sum_Z (l : list Z) : Z := fold_right Z.add 0%Z l.

(** The percentage of a count in a total, as a number: what line 224
    would give were it computed without rounding. *)
Definition exact_percentage (count total : nat) : Q :=
  (100 * Z.of_nat count # Pos.of_nat total).

(** A bound on what the two roundings of line 224 can add to or take
    from a percentage: a millionth of a millionth. *)
Definition percentage_error : Q := 1 # 1000000000000.

(** A row of the table as the document shows it: the level, its count,
    and a percentage of [t] tenths. *)
Definition table_row (row : (string * nat) * Z) : string :=
  "| " +++ PyStr.title (fst (fst row)) +++ " | "
  +++ PyStr.of_nat (snd (fst row)) +++ " | "
  +++ PyStr.of_Z (snd row / 10) +++ "." +++ PyStr.of_Z (snd row mod 10)
  +++ "% |" +++ nl.

(** Line 224 once more, with the operations of the standard library's
    specification of IEEE 754 arithmetic at 53 bits of precision: the
    integers converted to floats, the division, the multiplication. *)
Definition ieee_of_int (z : Z) : spec_float := binary_normalize 53 1024 z 0 false.

Definition ieee_percentage (count total : nat) : spec_float :=
  SFmul 53 1024
    (SFdiv 53 1024 (ieee_of_int (Z.of_nat count)) (ieee_of_int (Z.of_nat total)))
    (ieee_of_int 100).

Definition ieee_value (x : spec_float) : option Q :=
  match x with
  | S754_zero _ => Some 0%Q
  | S754_finite s m e =>
      Some ((if s then -1 else 1) * inject_Z (Zpos m) * Float.pow2 e)%Q
  | _ => None
  end.

Definition agrees_with_ieee (count total : nat) : bool :=
  match percentage count total, ieee_value (ieee_percentage count total) with
  | Ok (Float.Finite p), Some v => Qeq_bool p v
  | _, _ => false
  end.

(** The pairs of a count and a positive total up to [n], the count from
    zero to one more than the total. *)
Definition counts_up_to (n : nat) : list (nat * nat) :=
  flat_map (fun t => map (fun c => (c, S t)) (seq 0 (S (S t)))) (seq 0 n).

(** ** Sample inputs *)

Definition sample_instance_with_uri : xml :=
  Element "instance" None
    [Element "uri" (Some "http://emr.local/login") [];
     Element "method" (Some "GET") []].

Definition sample_instance_without_uri : xml :=
  Element "instance" None [Element "method" (Some "POST") []].

(** An [alertitem] with two instances, one of them without a [uri]. *)
Definition sample_xml_alert : xml :=
  Element "alertitem" None
    [Element "pluginid" (Some "40012") [];
     Element "name" (Some "Cross Site Scripting") [];
     Element "riskcode" (Some "3") [];
     Element "desc" (Some "Reflected input") [];
     Element "instances" None
       [sample_instance_with_uri; sample_instance_without_uri]].

(** An [alertitem] without a [riskcode] child. *)
Definition sample_xml_alert_no_riskcode : xml :=
  Element "alertitem" None
    [Element "pluginid" (Some "10020") [];
     Element "name" (Some "Missing Header") []].

(** An [alertitem] whose [riskcode] child has no text. *)
Definition sample_xml_alert_empty_riskcode : xml :=
  Element "alertitem" None
    [Element "name" (Some "Missing Header") [];
     Element "riskcode" None []].

Definition sample_xml_report : xml :=
  Element "OWASPZAPReport" None
    [Element "site" None
       [Element "alerts" None
          [sample_xml_alert; sample_xml_alert_no_riskcode;
           sample_xml_alert_empty_riskcode]]].

Definition sample_json_alert_high : pyval :=
  PDict [("pluginid", PStr "40012");
         ("name", PStr "Cross Site Scripting");
         ("riskdesc", PStr "High (Warning)");
         ("desc", PStr "Reflected input");
         ("solution", PStr "Encode output");
         ("instances",
          PList [PDict [("uri", PStr "http://emr.local/login")];
                 PDict [("method", PStr "GET")]]);
         ("cweid", PStr "79")].

Definition sample_json_alert_low : pyval :=
  PDict [("pluginid", PStr "10020");
         ("name", PStr "Missing Header");
         ("riskdesc", PStr "Low (Info)")].

Definition sample_json_report : pyval :=
  PDict [("site",
          PList [PDict [("alerts",
                         PList [sample_json_alert_high; sample_json_alert_low])]])].

(** A finding with string fields, as a report that follows the schema
    yields them. *)
Definition sample_finding (name risk : string) (urls : list pyval) : finding :=
  Finding.make (PStr "10020") (PStr name) risk (PStr "Medium")
    (PStr "description") (PStr "solution") (PStr EmptyString)
    (List.length urls) urls (PStr "16") (PStr "15") "ZAP".

Definition same_key (x y : pyval) : bool :=
  match Py.key_of x, Py.key_of y with
  | Some a, Some b => Py.hkey_eqb a b
  | _, _ => false
  end.

(** One possible iteration order of a set: members in the order in which
    they were first added. *)
Fixpoint first_seen_order (l : list pyval) : list pyval :=
  match l with
  | [] => []
  | x :: l' => x :: filter (fun y => negb (same_key x y)) (first_seen_order l')
  end.

(** A reports directory with one JSON report, one XML report and a file
    that is no report. *)
Definition sample_world : world :=
  mkWorld (init_analyzer "reports") []
    [("reports", Dir ["zap-baseline.json"; "ZAP-full.xml"; "notes.txt"]);
     ("reports/zap-baseline.json", File (Json sample_json_report));
     ("reports/ZAP-full.xml", File (Xml sample_xml_report));
     ("reports/notes.txt", File (Text "remember to rescan"))]
    first_seen_order "2024-05-01 12:00:00".

(** The same machine, asked for a directory that is not there. *)
Definition sample_world_no_dir : world :=
  mkWorld (init_analyzer "security/reports") [] (disk sample_world)
    first_seen_order "2024-05-01 12:00:00".

Definition sample_findings : list finding :=
  [sample_finding "Cross Site Scripting" "high" [PStr "http://emr.local/login"];
   sample_finding "Missing Header" "low" [];
   sample_finding "SQL Injection" "high" [PStr "http://emr.local/records"];
   sample_finding "Cross Site Scripting" "high"
     [PStr "http://emr.local/login"; PStr "http://emr.local/search"]].

(** An analyzer that has read its reports and made no recommendation
    yet. *)
Definition sample_loaded_world : world :=
  mkWorld
    (mkAnalyzer "reports" sample_findings []
       (classify_all (map Finding.risk sample_findings) initial_risk_summary))
    [] (disk sample_world) first_seen_order "2024-05-01 12:00:00".

(** A machine with one file holding the JSON document [data]. *)
Definition world_with_json (data : pyval) : world :=
  mkWorld (init_analyzer "r") [] [("r", Dir ["zap.json"]); ("r/zap.json", File (Json data))]
    first_seen_order "2024-05-01 12:00:00".

(** A report whose second alert has a number for a [riskdesc]. *)
Definition sample_json_report_malformed : pyval :=
  PDict [("site",
          PList [PDict [("alerts",
                         PList [sample_json_alert_high;
                                PDict [("riskdesc", PInt 3)];
                                sample_json_alert_low])]])].

(** An [alertitem] whose [desc] element has no text. *)
Definition sample_xml_alert_empty_desc : xml :=
  Element "alertitem" None
    [Element "name" (Some "Missing Header") [];
     Element "riskcode" (Some "1") [];
     Element "desc" None []].


(** A description of 201 characters, each of three bytes, and one of 67
    such characters, which has 201 bytes. *)
Definition sample_long_description : string := PyStr.repeat "漏" 201.
Definition sample_short_description : string := PyStr.repeat "漏" 67.

(** A finding with the given description. *)
Definition sample_finding_described (description : string) : finding :=
  Finding.make (PStr "10020") (PStr "Missing Header") "low" (PStr "Medium")
    (PStr description) (PStr "solution") (PStr EmptyString)
    0 [] (PStr "16") (PStr "15") "ZAP".

(** Two findings of one name with seven urls between them, six of them
    distinct. *)
Definition sample_findings_many_urls : list finding :=
  [sample_finding "Cross Site Scripting" "high"
     [PStr "http://emr.local/a"; PStr "http://emr.local/b"; PStr "http://emr.local/c"];
   sample_finding "Cross Site Scripting" "high"
     [PStr "http://emr.local/c"; PStr "http://emr.local/d"; PStr "http://emr.local/e";
      PStr "http://emr.local/f"]].

(** An analyzer holding the given findings and no recommendation. *)
Definition world_with_findings (fs : list finding) : world :=
  mkWorld
    (mkAnalyzer "reports" fs []
       (classify_all (map Finding.risk fs) initial_risk_summary))
    [] (disk sample_world) first_seen_order "2024-05-01 12:00:00".

(** A finding whose name is a JSON array. *)
Definition sample_finding_list_name : finding :=
  Finding.make (PStr "10020") (PList [PStr "Missing"; PStr "Header"]) "low"
    (PStr "Medium") (PStr "description") (PStr "solution") (PStr EmptyString)
    0 [] (PStr "16") (PStr "15") "ZAP".

(** The last character of a string. *)
Fixpoint last_char (s : string) : option ascii :=
  match s with
  | EmptyString => None
  | String c EmptyString => Some c
  | String _ s' => last_char s'
  end.

(** The [uri] of a JSON instance object, the empty string when it has
    none. *)
Definition json_instance_uri (inst : pyval) : pyval :=
  match inst with
  | PDict d => Py.get d "uri" (PStr EmptyString)
  | _ => PStr EmptyString
  end.

(** * Properties *)

(** ** Strings and exceptions *)

Lemma split_starts_with_before (sep : ascii) (s : string) :
  exists ws, PyStr.split sep s = PyStr.before sep s :: ws.
Proof.
  induction s as [| c s IH]; simpl.
  - now exists [].
  - destruct (Ascii.eqb c sep).
    + now exists (PyStr.split sep s).
    + destruct IH as [ws ->]. now exists ws.
Qed.

Lemma rbind_ok {A B : Type} (r : result A) (k : A -> result B) (b : B) :
  rbind r k = Ok b -> exists a, r = Ok a /\ k a = Ok b.
Proof.
  destruct r as [a |]; simpl; intro H; [now exists a | discriminate].
Qed.

Ltac bind_inv H :=
  repeat (apply rbind_ok in H;
          let x := fresh "x" in
          let E := fresh "E" in
          destruct H as (x & E & H); cbv beta in H).

Lemma rmap_length {A B : Type} (g : A -> result B) (l : list A) (l' : list B) :
  rmap g l = Ok l' -> List.length l' = List.length l.
Proof.
  revert l'; induction l as [| x l IH]; simpl; intros l' H.
  - now inversion H.
  - destruct (g x); [| discriminate].
    destruct (rmap g l) as [ys |]; [| discriminate].
    inversion H; subst; simpl. now rewrite (IH ys).
Qed.

Lemma chars_length (s : string) : List.length (Py.chars s) = PyStr.len s.
Proof.
  induction s as [| c s IH]; simpl; [reflexivity |].
  destruct (PyStr.is_continuation c); simpl; now rewrite IH.
Qed.

Lemma len_iter_agree (x : pyval) (n : nat) (items : list pyval) :
  Py.len x = Ok n -> Py.iter x = Ok items -> List.length items = n.
Proof.
  destruct x; simpl; intros Hn Hi; try discriminate;
    inversion Hn; inversion Hi; subst.
  - apply chars_length.
  - reflexivity.
  - apply length_map.
Qed.

Lemma obj_get_dict (x : pyval) (k : string) (dflt v : pyval) :
  Py.obj_get x k dflt = Ok v -> exists d, x = PDict d /\ v = Py.get d k dflt.
Proof.
  destruct x; simpl; intro H; try discriminate.
  inversion H. eauto.
Qed.

(** ** Risk normalization *)

Lemma get_json_risk_cases (token : string) :
  let r := Py.get zap_json_risk_map token "unknown" in
  (token = "High" -> r = "high") /\
  (token = "Medium" -> r = "medium") /\
  (token = "Low" -> r = "low") /\
  (token = "Informational" -> r = "informational") /\
  (token <> "High" -> token <> "Medium" -> token <> "Low" ->
   token <> "Informational" -> r = "unknown").
Proof.
  cbv zeta. repeat split; try (intros ->; reflexivity).
  intros H1 H2 H3 H4. unfold Py.get, zap_json_risk_map; simpl.
  apply String.eqb_neq in H1, H2, H3, H4.
  now rewrite H1, H2, H3, H4.
Qed.

Lemma get_xml_risk_cases (code : string) :
  let r := Py.get zap_xml_risk_map code "unknown" in
  (code = "3" -> r = "high") /\
  (code = "2" -> r = "medium") /\
  (code = "1" -> r = "low") /\
  (code = "0" -> r = "informational") /\
  (code <> "3" -> code <> "2" -> code <> "1" -> code <> "0" -> r = "unknown").
Proof.
  cbv zeta. repeat split; try (intros ->; reflexivity).
  intros H1 H2 H3 H4. unfold Py.get, zap_xml_risk_map; simpl.
  apply String.eqb_neq in H1, H2, H3, H4.
  now rewrite H1, H2, H3, H4.
Qed.

Lemma get_risk_map_value (m : list (string * string)) (k : string) :
  Forall (fun kv => In (snd kv) risk_values) m ->
  In (Py.get m k "unknown") risk_values.
Proof.
  unfold Py.get. induction m as [| [k' v] m IH]; simpl; intro H.
  - right; right; right; right; right; now left.
  - inversion H as [| ? ? Hv Hm]; subst. simpl in Hv.
    destruct (String.eqb k k'); [exact Hv | exact (IH Hm)].
Qed.

Lemma json_risk_map_values :
  Forall (fun kv => In (snd kv) risk_values) zap_json_risk_map.
Proof.
  repeat (apply Forall_cons; [simpl; intuition auto |]). apply Forall_nil.
Qed.

Lemma xml_risk_map_values :
  Forall (fun kv => In (snd kv) risk_values) zap_xml_risk_map.
Proof.
  repeat (apply Forall_cons; [simpl; intuition auto |]). apply Forall_nil.
Qed.

Lemma zap_json_risk_of_desc (d : list (string * pyval)) (s : string) :
  Py.get d "riskdesc" (PStr "Unknown") = PStr s ->
  zap_json_risk (PDict d) = Ok (Py.get zap_json_risk_map (risk_token s) "unknown").
Proof.
  intro H. unfold zap_json_risk; simpl. rewrite H; simpl.
  destruct (split_starts_with_before PyStr.space s) as [ws ->]. reflexivity.
Qed.

Lemma zap_json_risk_value (alert : pyval) (r : string) :
  zap_json_risk alert = Ok r -> In r risk_values.
Proof.
  unfold zap_json_risk. intro H. bind_inv H. inversion H; subst.
  apply get_risk_map_value, json_risk_map_values.
Qed.

Lemma zap_xml_risk_value (alert : xml) : In (zap_xml_risk alert) risk_values.
Proof.
  unfold zap_xml_risk. destruct (ET.find "riskcode" alert) as [rc |].
  - destruct (ET.text rc).
    + apply get_risk_map_value, xml_risk_map_values.
    + simpl; auto 10.
  - apply get_risk_map_value, xml_risk_map_values.
Qed.

Lemma parse_zap_alert_inv (alert : pyval) (f : finding) :
  _parse_zap_alert alert = Ok f ->
  exists d insts items,
    alert = PDict d /\
    insts = Py.get d "instances" (PList []) /\
    zap_json_risk alert = Ok (Finding.risk f) /\
    Py.len insts = Ok (Finding.instances f) /\
    Py.iter insts = Ok items /\
    rmap instance_uri items = Ok (Finding.urls f).
Proof.
  unfold _parse_zap_alert. intro H. bind_inv H.
  inversion H; subst; clear H; simpl.
  destruct (obj_get_dict _ _ _ _ E6) as (d & -> & ->).
  destruct (obj_get_dict _ _ _ _ E8) as (d' & Hd & ->).
  inversion Hd; subst d'.
  exists d, (Py.get d "instances" (PList [])), x9. auto 10.
Qed.


(** C10.  In the XML normalizer an [alertitem] without a [riskcode] child
    gets the risk "informational", because code "0" stands in for the
    missing element before the table is consulted; an [alertitem] whose
    [riskcode] child has no text gets the risk "unknown". *)
Theorem xml_riskcode_absent_vs_empty (alert : xml) :
  (ET.find "riskcode" alert = None ->
   Finding.risk (_parse_zap_xml_alert alert) = "informational") /\
  (forall risk_code : xml,
      ET.find "riskcode" alert = Some risk_code ->
      ET.text risk_code = None \/ ET.text risk_code = Some EmptyString ->
      Finding.risk (_parse_zap_xml_alert alert) = "unknown").
Proof.
  unfold _parse_zap_xml_alert, zap_xml_risk; simpl. split.
  - intros ->. reflexivity.
  - intros rc -> [-> | ->]; reflexivity.
Qed.

Lemma xml_riskcode_absent_vs_empty_witness :
  Finding.risk (_parse_zap_xml_alert sample_xml_alert_no_riskcode) = "informational" /\
  Finding.risk (_parse_zap_xml_alert sample_xml_alert_empty_riskcode) = "unknown".
Proof.
  split.
  - apply (proj1 (xml_riskcode_absent_vs_empty sample_xml_alert_no_riskcode)).
    reflexivity.
  - apply (proj2 (xml_riskcode_absent_vs_empty sample_xml_alert_empty_riskcode)
             (Element "riskcode" None [])).
    + reflexivity.
    + left; reflexivity.
Defined.

(** ** Instance counts *)

Lemma instance_uris_length (nodes : list xml) :
  List.length (instance_uris nodes) = List.length (filter has_uri nodes).
Proof.
  induction nodes as [| inst nodes IH]; simpl; [reflexivity |].
  unfold has_uri. destruct (ET.find "uri" inst); simpl; now rewrite IH.
Qed.

Lemma filter_length_all {A : Type} (p : A -> bool) (l : list A) :
  List.length (filter p l) = List.length l <-> forallb p l = true.
Proof.
  induction l as [| x l IH]; simpl; [tauto |].
  pose proof (filter_length_le p l) as Hle.
  destruct (p x); simpl.
  - rewrite <- IH. split; intro H; lia.
  - split; intro H; [lia | discriminate].
Qed.

Lemma parse_zap_alert_instances (alert : pyval) (f : finding) :
  _parse_zap_alert alert = Ok f ->
  Finding.instances f = List.length (Finding.urls f).
Proof.
  intro H.
  destruct (parse_zap_alert_inv alert f H)
    as (d & insts & items & _ & _ & _ & Hlen & Hiter & Hurls).
  rewrite (rmap_length _ _ _ Hurls).
  symmetry. now apply len_iter_agree with insts.
Qed.

(** C2, as the code has it.  A finding of the JSON normalizer has an
    instance count equal to the length of its url list.  A finding of the
    XML normalizer counts the [instances/instance] nodes of the alert,
    while its url list has one entry per node with a [uri] child: the
    list is never longer than the count, and they agree exactly when every
    instance node has a [uri] child. *)
Theorem instance_count_and_urls :
  (forall (alert : pyval) (f : finding),
      _parse_zap_alert alert = Ok f ->
      Finding.instances f = List.length (Finding.urls f)) /\
  (forall alert : xml,
      let f := _parse_zap_xml_alert alert in
      let nodes := ET.findall2 "instances" "instance" alert in
      Finding.instances f = List.length nodes /\
      List.length (Finding.urls f) = List.length (filter has_uri nodes) /\
      List.length (Finding.urls f) <= Finding.instances f /\
      (Finding.instances f = List.length (Finding.urls f) <->
       forallb has_uri nodes = true)).
Proof.
  split; [exact parse_zap_alert_instances |].
  intro alert; cbv zeta. unfold _parse_zap_xml_alert; simpl.
  rewrite instance_uris_length.
  split; [reflexivity |]. split; [reflexivity |].
  split; [apply filter_length_le |].
  rewrite <- filter_length_all. split; intro H; lia.
Qed.

Lemma instance_count_and_urls_witness :
  Finding.instances (_parse_zap_xml_alert sample_xml_alert) = 2 /\
  List.length (Finding.urls (_parse_zap_xml_alert sample_xml_alert)) = 1 /\
  (forall f, _parse_zap_alert sample_json_alert_high = Ok f ->
             Finding.instances f = List.length (Finding.urls f)).
Proof.
  destruct instance_count_and_urls as [HJ HX].
  destruct (HX sample_xml_alert) as (Hn & Hu & _).
  repeat apply conj.
  - rewrite Hn. reflexivity.
  - rewrite Hu. reflexivity.
  - intros f Hf. exact (HJ _ f Hf).
Defined.

(** The XML normalizer drops the instances without a [uri] from the url
    list and still counts them. *)
Lemma instance_count_differs_from_urls :
  Finding.instances (_parse_zap_xml_alert sample_xml_alert)
  <> List.length (Finding.urls (_parse_zap_xml_alert sample_xml_alert)).
Proof. vm_compute. discriminate. Qed.

(** ** Ingestion of one report *)

Lemma with_self_ingest_nil (w : world) : with_self (ingest [] (self w)) w = w.
Proof.
  destruct w as [[dir fs recs rs] out dsk ord clk].
  unfold with_self, ingest; simpl. now rewrite app_nil_r.
Qed.

Lemma ingest_cons (f : finding) (new : list finding) (a : analyzer) :
  ingest new (ingest [f] a) = ingest (f :: new) a.
Proof.
  unfold ingest; simpl. now rewrite <- app_assoc.
Qed.

Lemma ingest_one_step (f : finding) (w : world) :
  (append_finding f ;;; _update_risk_summary (Finding.risk f))%act w
  = (with_self (ingest [f] (self w)) w, Ok tt).
Proof. reflexivity. Qed.

Lemma rmap_Forall2 {A B : Type} (g : A -> result B) (l : list A) (l' : list B) :
  rmap g l = Ok l' -> Forall2 (fun x y => g x = Ok y) l l'.
Proof.
  revert l'; induction l as [| x l IH]; simpl; intros l' H.
  - inversion H. constructor.
  - destruct (g x) as [y |] eqn:E; [| discriminate].
    destruct (rmap g l) as [ys |]; [| discriminate].
    inversion H; subst. constructor; auto.
Qed.

(** The loop over JSON alerts appends the findings parsed before the
    first failure, if any, and classifies each of them. *)
Lemma ingest_json_alerts_run (items : list pyval) (w : world) :
  exists new r,
    for_each items ingest_json_alert w = (with_self (ingest new (self w)) w, r) /\
    (r = Ok tt -> rmap _parse_zap_alert items = Ok new).
Proof.
  revert w. induction items as [| alert items IH]; intro w.
  - exists [], (Ok tt). simpl. unfold ret. now rewrite with_self_ingest_nil.
  - cbn [for_each]. unfold bind at 1. unfold ingest_json_alert at 1.
    unfold bind at 1, lift at 1.
    destruct (_parse_zap_alert alert) as [f |] eqn:Hf.
    + rewrite ingest_one_step.
      destruct (IH (with_self (ingest [f] (self w)) w)) as (new & r & Hrun & Hok).
      exists (f :: new), r. rewrite Hrun. split.
      * unfold with_self; simpl. now rewrite ingest_cons.
      * intro Hr. simpl. rewrite Hf. now rewrite (Hok Hr).
    + exists [], Raise. rewrite with_self_ingest_nil. split; [reflexivity | discriminate].
Qed.

Lemma ingest_xml_alerts_run (alerts : list xml) (w : world) :
  for_each alerts ingest_xml_alert w
  = (with_self (ingest (map _parse_zap_xml_alert alerts) (self w)) w, Ok tt).
Proof.
  revert w. induction alerts as [| alert alerts IH]; intro w.
  - simpl. unfold ret. now rewrite with_self_ingest_nil.
  - cbn [for_each map]. unfold bind at 1. unfold ingest_xml_alert at 1.
    cbv zeta. rewrite ingest_one_step, IH.
    unfold with_self; simpl. now rewrite ingest_cons.
Qed.

Lemma instance_uri_dicts (l : list pyval) :
  forallb is_dict l = true -> exists urls, rmap instance_uri l = Ok urls.
Proof.
  induction l as [| x l IH]; simpl; intro H; [eauto |].
  apply andb_prop in H as [Hx Hl].
  destruct x; try discriminate. simpl.
  destruct (IH Hl) as [urls ->]. eauto.
Qed.

Lemma valid_json_alert_parses (alert : pyval) :
  valid_json_alert alert = true ->
  exists f, _parse_zap_alert alert = Ok f /\
            Finding.instances f = List.length (json_instances alert).
Proof.
  destruct alert as [| | | | | d]; try discriminate. simpl.
  intro H. apply andb_prop in H as [Hdesc Hinst].
  destruct (Py.get d "riskdesc" (PStr "Unknown")) as [| | | s | |] eqn:Ed;
    try discriminate.
  destruct (Py.get d "instances" (PList [])) as [| | | | l |] eqn:Ei;
    try discriminate.
  destruct (instance_uri_dicts l Hinst) as [urls Hurls].
  unfold _parse_zap_alert.
  rewrite (zap_json_risk_of_desc d s Ed). simpl. rewrite Ei. simpl.
  rewrite Hurls. simpl. eauto.
Qed.

Lemma valid_json_alerts_parse (alerts : list pyval) :
  forallb valid_json_alert alerts = true ->
  exists new,
    rmap _parse_zap_alert alerts = Ok new /\
    Forall2 (fun f alert => Finding.instances f = List.length (json_instances alert))
      new alerts.
Proof.
  induction alerts as [| alert alerts IH]; simpl; intro H.
  - exists []. split; [reflexivity | constructor].
  - apply andb_prop in H as [Ha Hrest].
    destruct (valid_json_alert_parses alert Ha) as (f & -> & Hf).
    destruct (IH Hrest) as (new & -> & Hnew).
    exists (f :: new). split; [reflexivity | now constructor].
Qed.

Lemma ingest_valid_json_alerts (alerts : list pyval) (w : world) :
  forallb valid_json_alert alerts = true ->
  exists new,
    for_each alerts ingest_json_alert w = (with_self (ingest new (self w)) w, Ok tt) /\
    Forall2 (fun f alert => Finding.instances f = List.length (json_instances alert))
      new alerts.
Proof.
  intro H. destruct (valid_json_alerts_parse alerts H) as (new & Hparse & Hnew).
  exists new. split; [| exact Hnew].
  clear Hnew H. revert new Hparse w.
  induction alerts as [| alert alerts IH]; intros new Hparse w.
  - inversion Hparse. simpl. unfold ret. now rewrite with_self_ingest_nil.
  - simpl in Hparse.
    destruct (_parse_zap_alert alert) as [f |] eqn:Hf; [| discriminate].
    destruct (rmap _parse_zap_alert alerts) as [new' |]; [| discriminate].
    inversion Hparse; subst new; clear Hparse.
    cbn [for_each]. unfold bind at 1. unfold ingest_json_alert at 1.
    unfold bind at 1, lift at 1. rewrite Hf.
    rewrite ingest_one_step, (IH new' eq_refl).
    unfold with_self; simpl. now rewrite ingest_cons.
Qed.

Lemma Forall2_length_eq {A B : Type} (R : A -> B -> Prop) (l : list A) (l' : list B) :
  Forall2 R l l' -> List.length l = List.length l'.
Proof. induction 1; simpl; congruence. Qed.

(** ** Element trees *)

Lemma xml_induction (P : xml -> Prop) :
  (forall tag text cs, Forall P cs -> P (Element tag text cs)) ->
  forall e, P e.
Proof.
  intro H. fix IH 1. intros [tag text cs]. apply H.
  induction cs as [| c cs IHcs]; constructor; [apply IH | exact IHcs].
Qed.

Lemma length_filter_flat_map {A B : Type} (p : B -> bool) (g : A -> list B)
    (l : list A) :
  List.length (filter p (flat_map g l))
  = list_sum (map (fun x => List.length (filter p (g x))) l).
Proof.
  induction l as [| x l IH]; simpl; [reflexivity |].
  now rewrite filter_app, length_app, IH.
Qed.

Lemma count_elements_descendants (t : string) (e : xml) :
  (if ET.has_tag t e then 1 else 0) + List.length (ET.findall_desc t e)
  = count_elements t e.
Proof.
  unfold ET.findall_desc.
  induction e as [tag text cs IH] using xml_induction.
  cbn [ET.descendants count_elements]. unfold ET.has_tag at 1; cbn [ET.tag].
  f_equal. rewrite length_filter_flat_map. f_equal.
  apply map_ext_Forall. revert IH. apply Forall_impl.
  intros c Hc. rewrite <- Hc. simpl.
  destruct (ET.has_tag t c); reflexivity.
Qed.

Lemma count_instance_nodes_findall (alert : xml) :
  List.length (ET.findall2 "instances" "instance" alert)
  = count_instance_nodes alert.
Proof.
  unfold ET.findall2, count_instance_nodes.
  induction (ET.children alert) as [| c cs IH]; simpl; [reflexivity |].
  destruct (ET.has_tag "instances" c); simpl; [| exact IH].
  now rewrite length_app, IH.
Qed.

Lemma json_alerts_shape (data : pyval) (alerts : list pyval) :
  json_alerts data = Some alerts ->
  exists d site0 rest,
    data = PDict d /\
    Py.lookup "site" d = Some (PList (PDict site0 :: rest)) /\
    Py.get site0 "alerts" (PList []) = PList alerts.
Proof.
  unfold json_alerts. destruct data as [| | | | | d]; try discriminate.
  destruct (Py.lookup "site" d) as [[| | | | [| [| | | | | site0] rest] |] |] eqn:Hs;
    try discriminate.
  destruct (Py.get site0 "alerts" (PList [])) as [| | | | l |] eqn:Ha;
    try discriminate.
  intro H; inversion H; subst. eauto 10.
Qed.

Lemma bind_lift {A B : Type} (r : result A) (k : A -> M B) (w : world) :
  bind (lift r) k w = match r with Ok a => k a w | Raise => (w, Raise) end.
Proof. destruct r; reflexivity. Qed.

Lemma bind_run {A B : Type} (m : M A) (k : A -> M B) (w w' : world) (a : A) :
  m w = (w', Ok a) -> bind m k w = k a w'.
Proof. unfold bind. now intros ->. Qed.

Lemma has_site_first_object (d site0 : list (string * pyval)) (rest : list pyval) :
  Py.lookup "site" d = Some (PList (PDict site0 :: rest)) ->
  has_site (PDict d) = Ok true.
Proof.
  intro H. unfold has_site, py_in, has_key, py_item, subscript.
  rewrite H. reflexivity.
Qed.

Lemma analyze_valid_json_report (w : world) (json_file : string) (data : pyval)
    (alerts : list pyval) :
  Py.lookup json_file (disk w) = Some (File (Json data)) ->
  json_alerts data = Some alerts ->
  forallb valid_json_alert alerts = true ->
  exists new,
    analyze_zap_json_report json_file w
    = (with_output
         [Printed ("   Found " +++ PyStr.of_nat (List.length alerts) +++ " security alerts")]
         (with_self (ingest new (self w))
            (with_output [Printed ("📊 Analyzing ZAP JSON report: " +++ json_file)] w)),
       Ok tt) /\
    Forall2 (fun f alert => Finding.instances f = List.length (json_instances alert))
      new alerts.
Proof.
  intros Hfile Hdata Hvalid.
  destruct (json_alerts_shape data alerts Hdata) as (d & site0 & rest & -> & Hsite & Halerts).
  set (w1 := with_output [Printed ("📊 Analyzing ZAP JSON report: " +++ json_file)] w).
  destruct (ingest_valid_json_alerts alerts w1 Hvalid) as (new & Hrun & Hnew).
  exists new. split; [| exact Hnew].
  unfold analyze_zap_json_report, try_except.
  unfold bind at 1. unfold json_load at 1. rewrite Hfile.
  unfold bind at 1. unfold print at 1.
  change (mkWorld (self w)
            (stdout w ++ [Printed ("📊 Analyzing ZAP JSON report: " +++ json_file)])
            (disk w) (set_order w) (clock w)) with w1.
  rewrite bind_lift, (has_site_first_object d site0 rest Hsite).
  rewrite bind_lift. unfold py_item, subscript. rewrite Hsite.
  rewrite bind_lift. cbn [py_item0].
  rewrite bind_lift. cbn [Py.obj_get]. rewrite Halerts.
  rewrite bind_lift. cbn [Py.iter].
  rewrite (bind_run _ _ _ _ _ Hrun).
  rewrite bind_lift. cbn [Py.len].
  reflexivity.
Qed.

Lemma analyze_parsed_xml_report (w : world) (xml_file : string) (root : xml) :
  Py.lookup xml_file (disk w) = Some (File (Xml root)) ->
  let alerts := ET.findall_desc "alertitem" root in
  analyze_zap_xml_report xml_file w
  = (with_output
       [Printed ("   Found " +++ PyStr.of_nat (List.length alerts) +++ " security alerts")]
       (with_self (ingest (map _parse_zap_xml_alert alerts) (self w))
          (with_output [Printed ("📊 Analyzing ZAP XML report: " +++ xml_file)] w)),
     Ok tt).
Proof.
  intros Hfile alerts.
  unfold analyze_zap_xml_report, try_except.
  unfold bind at 1. unfold et_parse at 1. rewrite Hfile.
  unfold bind at 1. unfold print at 1.
  cbv zeta. fold alerts.
  rewrite (bind_run _ _ _ _ _ (ingest_xml_alerts_run alerts _)).
  reflexivity.
Qed.

(** C4.  A JSON report whose first site holds an array of well-formed
    alerts yields one finding per entry of that array, each with the
    length of that alert's [instances] array as its instance count.  An
    XML report whose root is not itself an [alertitem] yields one finding
    per [alertitem] element of the document, each with the number of that
    alert's [instances/instance] nodes as its instance count.  In both
    cases the findings are appended to those already collected. *)
Theorem report_cardinality :
  (forall (w : world) (json_file : string) (data : pyval) (alerts : list pyval),
      Py.lookup json_file (disk w) = Some (File (Json data)) ->
      json_alerts data = Some alerts ->
      forallb valid_json_alert alerts = true ->
      exists new,
        snd (analyze_zap_json_report json_file w) = Ok tt /\
        self (fst (analyze_zap_json_report json_file w)) = ingest new (self w) /\
        List.length new = List.length alerts /\
        Forall2 (fun f alert =>
                   Finding.instances f = List.length (json_instances alert))
          new alerts) /\
  (forall (w : world) (xml_file : string) (root : xml),
      Py.lookup xml_file (disk w) = Some (File (Xml root)) ->
      ET.tag root <> "alertitem" ->
      exists new,
        snd (analyze_zap_xml_report xml_file w) = Ok tt /\
        self (fst (analyze_zap_xml_report xml_file w)) = ingest new (self w) /\
        List.length new = count_elements "alertitem" root /\
        Forall2 (fun f alert => Finding.instances f = count_instance_nodes alert)
          new (ET.findall_desc "alertitem" root)).
Proof.
  split.
  - intros w json_file data alerts Hfile Hdata Hvalid.
    destruct (analyze_valid_json_report w json_file data alerts Hfile Hdata Hvalid)
      as (new & Hrun & Hnew).
    exists new. rewrite Hrun. repeat split; [| exact Hnew].
    apply (Forall2_length_eq _ _ _ Hnew).
  - intros w xml_file root Hfile Hroot.
    exists (map _parse_zap_xml_alert (ET.findall_desc "alertitem" root)).
    rewrite (analyze_parsed_xml_report w xml_file root Hfile). cbv zeta.
    repeat split.
    + rewrite length_map, <- count_elements_descendants.
      unfold ET.has_tag. destruct (String.eqb_spec "alertitem" (ET.tag root)); [| reflexivity].
      congruence.
    + induction (ET.findall_desc "alertitem" root) as [| alert l IH]; simpl;
        constructor; [| exact IH].
      simpl. apply count_instance_nodes_findall.
Qed.

Lemma report_cardinality_witness :
  List.length
    (findings (self (fst (analyze_zap_json_report "reports/zap-baseline.json"
                            sample_world)))) = 2 /\
  List.length
    (findings (self (fst (analyze_zap_xml_report "reports/ZAP-full.xml"
                            sample_world)))) = 3.
Proof.
  destruct report_cardinality as [HJ HX]. split.
  - destruct (HJ sample_world "reports/zap-baseline.json" sample_json_report
                [sample_json_alert_high; sample_json_alert_low]
                eq_refl eq_refl eq_refl) as (new & _ & Hself & Hlen & _).
    rewrite Hself. unfold ingest; cbn [findings self sample_world init_analyzer app].
    exact Hlen.
  - destruct (HX sample_world "reports/ZAP-full.xml" sample_xml_report eq_refl)
      as (new & _ & Hself & Hlen & _).
    + discriminate.
    + rewrite Hself. unfold ingest; cbn [findings self sample_world init_analyzer app].
      exact Hlen.
Defined.

(** ** What a run does to the findings and the summary *)

Lemma classify_all_app (r1 r2 : list string) (rs : risk_summary_t) :
  classify_all (r1 ++ r2) rs = classify_all r2 (classify_all r1 rs).
Proof. unfold classify_all. apply fold_left_app. Qed.

Lemma extends_refl (a : analyzer) : extends a a.
Proof. exists []. split; [now rewrite app_nil_r | reflexivity]. Qed.

Lemma extends_same (a a' : analyzer) :
  findings a' = findings a -> risk_summary a' = risk_summary a -> extends a a'.
Proof. intros Hf Hr. exists []. split; [now rewrite app_nil_r | exact Hr]. Qed.

Lemma extends_trans (a b c : analyzer) : extends a b -> extends b c -> extends a c.
Proof.
  intros (n1 & Hf1 & Hr1) (n2 & Hf2 & Hr2). exists (n1 ++ n2). split.
  - now rewrite Hf2, Hf1, app_assoc.
  - now rewrite Hr2, Hr1, map_app, classify_all_app.
Qed.

Lemma extends_ingest (new : list finding) (a : analyzer) : extends a (ingest new a).
Proof. exists new. split; reflexivity. Qed.

Lemma extends_consistent (a a' : analyzer) :
  consistent a -> extends a a' -> consistent a'.
Proof.
  unfold consistent. intros Ha (new & Hf & Hr).
  now rewrite Hr, Hf, Ha, map_app, classify_all_app.
Qed.

Lemma consistent_init (dir : string) : consistent (init_analyzer dir).
Proof. reflexivity. Qed.

Lemma accumulates_same_self {A : Type} (m : M A) :
  (forall w, self (fst (m w)) = self w) -> accumulates m.
Proof. intros H w. rewrite H. apply extends_refl. Qed.

Lemma accumulates_ret {A : Type} (a : A) : accumulates (ret a).
Proof. now apply accumulates_same_self. Qed.

Lemma accumulates_lift {A : Type} (r : result A) : accumulates (lift r).
Proof. now apply accumulates_same_self. Qed.

Lemma accumulates_print (s : string) : accumulates (print s).
Proof. now apply accumulates_same_self. Qed.

Lemma accumulates_print_error (s : string) : accumulates (print_error s).
Proof. now apply accumulates_same_self. Qed.

Lemma accumulates_get_self : accumulates get_self.
Proof. now apply accumulates_same_self. Qed.

Lemma accumulates_get_set_order : accumulates get_set_order.
Proof. now apply accumulates_same_self. Qed.

Lemma accumulates_get_clock : accumulates get_clock.
Proof. now apply accumulates_same_self. Qed.

Lemma accumulates_path_exists (p : string) : accumulates (path_exists p).
Proof. now apply accumulates_same_self. Qed.

Lemma accumulates_listdir (p : string) : accumulates (listdir p).
Proof.
  apply accumulates_same_self. intro w. unfold listdir.
  destruct (Py.lookup p (disk w)) as [[c | names] |]; reflexivity.
Qed.

Lemma accumulates_json_load (p : string) : accumulates (json_load p).
Proof.
  apply accumulates_same_self. intro w. unfold json_load.
  destruct (Py.lookup p (disk w)) as [[[data | root | s] | names] |]; reflexivity.
Qed.

Lemma accumulates_et_parse (p : string) : accumulates (et_parse p).
Proof.
  apply accumulates_same_self. intro w. unfold et_parse.
  destruct (Py.lookup p (disk w)) as [[[data | root | s] | names] |]; reflexivity.
Qed.

Lemma accumulates_write_file (p doc : string) : accumulates (write_file p doc).
Proof.
  apply accumulates_same_self. intro w. unfold write_file.
  destruct (can_open_for_writing p (disk w)); reflexivity.
Qed.

Lemma accumulates_bind {A B : Type} (m : M A) (k : A -> M B) :
  accumulates m -> (forall a, accumulates (k a)) -> accumulates (bind m k).
Proof.
  intros Hm Hk w. unfold bind. specialize (Hm w).
  destruct (m w) as [w' [a |]]; simpl in Hm.
  - eapply extends_trans; [exact Hm | apply Hk].
  - exact Hm.
Qed.

Lemma accumulates_try_except (body handler : M unit) :
  accumulates body -> accumulates handler -> accumulates (try_except body handler).
Proof.
  intros Hb Hh w. unfold try_except. specialize (Hb w).
  destruct (body w) as [w' [[] |]]; simpl in Hb.
  - exact Hb.
  - eapply extends_trans; [exact Hb | apply Hh].
Qed.

Lemma accumulates_for_each {A : Type} (l : list A) (body : A -> M unit) :
  (forall x, accumulates (body x)) -> accumulates (for_each l body).
Proof.
  intro Hb. induction l as [| x l IH]; simpl.
  - apply accumulates_ret.
  - apply accumulates_bind; [apply Hb | intros _; exact IH].
Qed.

Lemma accumulates_if {A : Type} (b : bool) (m1 m2 : M A) :
  accumulates m1 -> accumulates m2 -> accumulates (if b then m1 else m2).
Proof. now destruct b. Qed.

Lemma accumulates_ingest_step (f : finding) :
  accumulates (append_finding f ;;; _update_risk_summary (Finding.risk f))%act.
Proof. intro w. rewrite ingest_one_step. apply extends_ingest. Qed.

Create HintDb accumulate.
#[local] Hint Resolve accumulates_ret accumulates_lift accumulates_print
  accumulates_print_error accumulates_get_self accumulates_get_set_order
  accumulates_get_clock accumulates_path_exists accumulates_listdir
  accumulates_json_load accumulates_et_parse accumulates_write_file
  accumulates_ingest_step : accumulate.

Ltac accumulate :=
  repeat first
    [ progress auto with accumulate
    | apply accumulates_try_except
    | apply accumulates_for_each; intro
    | apply accumulates_bind; [| intro]
    | apply accumulates_if
    | match goal with |- accumulates (let _ := _ in _) => cbv zeta end ].

Lemma accumulates_ingest_json_alert (alert : pyval) :
  accumulates (ingest_json_alert alert).
Proof. unfold ingest_json_alert. accumulate. Qed.

Lemma accumulates_ingest_xml_alert (alert : xml) :
  accumulates (ingest_xml_alert alert).
Proof. unfold ingest_xml_alert. accumulate. Qed.

#[local] Hint Resolve accumulates_ingest_json_alert accumulates_ingest_xml_alert
  : accumulate.

Lemma accumulates_analyze_zap_json_report (json_file : string) :
  accumulates (analyze_zap_json_report json_file).
Proof. unfold analyze_zap_json_report. accumulate. Qed.

Lemma accumulates_analyze_zap_xml_report (xml_file : string) :
  accumulates (analyze_zap_xml_report xml_file).
Proof. unfold analyze_zap_xml_report. accumulate. Qed.

Lemma accumulates_append_recommendation (r : recommendation) :
  accumulates (append_recommendation r).
Proof. intro w. apply extends_same; reflexivity. Qed.

Lemma accumulates_sort_recommendations : accumulates sort_recommendations.
Proof. intro w. apply extends_same; reflexivity. Qed.

#[local] Hint Resolve accumulates_analyze_zap_json_report
  accumulates_analyze_zap_xml_report accumulates_append_recommendation
  accumulates_sort_recommendations : accumulate.

Lemma accumulates_generate_recommendations : accumulates generate_recommendations.
Proof. unfold generate_recommendations, recommend_group. accumulate. Qed.

Lemma accumulates_raise {A : Type} : accumulates (@raise A).
Proof. apply accumulates_same_self. reflexivity. Qed.

Lemma accumulates_write_report (output_file now : string) (a : analyzer) :
  accumulates (write_report output_file now a).
Proof.
  unfold write_report. destruct (detailed_report now a); [accumulate |].
  apply accumulates_bind; [accumulate | intros _; apply accumulates_raise].
Qed.

Lemma accumulates_generate_detailed_report (output_file : string) :
  accumulates (generate_detailed_report output_file).
Proof.
  unfold generate_detailed_report.
  repeat (apply accumulates_bind; [accumulate | intro]).
  apply accumulates_write_report.
Qed.

Lemma accumulates_generate_executive_summary : accumulates generate_executive_summary.
Proof. unfold generate_executive_summary. accumulate. Qed.

#[local] Hint Resolve accumulates_generate_recommendations
  accumulates_generate_detailed_report accumulates_generate_executive_summary
  : accumulate.

Lemma accumulates_analyze_all_reports : accumulates analyze_all_reports.
Proof. unfold analyze_all_reports. accumulate. Qed.

(** After a run of [main] the summary is the classification of the
    findings collected, whatever the directory holds. *)
Lemma main_consistent (dir : string) (w : world) :
  consistent (self (fst (main dir w))).
Proof.
  unfold main, bind. cbn [set_self].
  apply extends_consistent with (init_analyzer dir).
  - apply consistent_init.
  - apply (accumulates_analyze_all_reports
             (mkWorld (init_analyzer dir) (stdout w) (disk w) (set_order w) (clock w))).
Qed.

(** ** The risk of a finding *)

Lemma parse_zap_alert_risk (d : list (string * pyval)) (s : string) (f : finding) :
  Py.get d "riskdesc" (PStr "Unknown") = PStr s ->
  _parse_zap_alert (PDict d) = Ok f ->
  Finding.risk f = Py.get zap_json_risk_map (risk_token s) "unknown".
Proof.
  intros Hs Hf.
  destruct (parse_zap_alert_inv _ _ Hf) as (d' & insts & items & _ & _ & Hr & _).
  rewrite (zap_json_risk_of_desc d s Hs) in Hr. now inversion Hr.
Qed.

(** C3.  Risk normalization is exhaustive and total.  JSON path: the
    finding made from an alert whose [riskdesc] is a string, present or
    defaulted, has the level named by the token before the first space,
    high, medium, low or informational for High, Medium, Low or
    Informational, and "unknown" for every other token and for a missing
    [riskdesc]; the normalizer returns such a finding for every alert
    object whose [riskdesc] is absent or a string and whose [instances]
    are absent or an array of objects, and computing the risk never
    raises on a string.  XML path: the finding of an alert item whose
    [riskcode] has the text 3, 2, 1 or 0 has the risk high, medium, low or
    informational, and "unknown" for every other text; the normalizer is
    a total function.  Every finding either normalizer produces has a
    risk among critical, high, medium, low, informational and unknown. *)
Theorem risk_normalization_exhaustive_total :
  (forall (d : list (string * pyval)) (s : string) (f : finding),
      Py.get d "riskdesc" (PStr "Unknown") = PStr s ->
      _parse_zap_alert (PDict d) = Ok f ->
      (risk_token s = "High" -> Finding.risk f = "high") /\
      (risk_token s = "Medium" -> Finding.risk f = "medium") /\
      (risk_token s = "Low" -> Finding.risk f = "low") /\
      (risk_token s = "Informational" -> Finding.risk f = "informational") /\
      (risk_token s <> "High" -> risk_token s <> "Medium" ->
       risk_token s <> "Low" -> risk_token s <> "Informational" ->
       Finding.risk f = "unknown")) /\
  (forall (d : list (string * pyval)) (f : finding),
      Py.lookup "riskdesc" d = None ->
      _parse_zap_alert (PDict d) = Ok f ->
      Finding.risk f = "unknown") /\
  (forall d : list (string * pyval),
      valid_json_alert (PDict d) = true ->
      exists f, _parse_zap_alert (PDict d) = Ok f) /\
  (forall (d : list (string * pyval)) (s : string),
      Py.get d "riskdesc" (PStr "Unknown") = PStr s ->
      exists r,
        zap_json_risk (PDict d) = Ok r /\
        (risk_token s = "High" -> r = "high") /\
        (risk_token s = "Medium" -> r = "medium") /\
        (risk_token s = "Low" -> r = "low") /\
        (risk_token s = "Informational" -> r = "informational") /\
        (risk_token s <> "High" -> risk_token s <> "Medium" ->
         risk_token s <> "Low" -> risk_token s <> "Informational" ->
         r = "unknown")) /\
  (forall (alert risk_code : xml) (code : string),
      ET.find "riskcode" alert = Some risk_code ->
      ET.text risk_code = Some code ->
      let r := Finding.risk (_parse_zap_xml_alert alert) in
      (code = "3" -> r = "high") /\
      (code = "2" -> r = "medium") /\
      (code = "1" -> r = "low") /\
      (code = "0" -> r = "informational") /\
      (code <> "3" -> code <> "2" -> code <> "1" -> code <> "0" ->
       r = "unknown")) /\
  (forall (alert : pyval) (f : finding),
      _parse_zap_alert alert = Ok f -> In (Finding.risk f) risk_values) /\
  (forall alert : xml,
      In (Finding.risk (_parse_zap_xml_alert alert)) risk_values).
Proof.
  repeat apply conj.
  - intros d s f Hs Hf. rewrite (parse_zap_alert_risk d s f Hs Hf).
    apply get_json_risk_cases.
  - intros d f Hnone Hf.
    assert (Hg : Py.get d "riskdesc" (PStr "Unknown") = PStr "Unknown")
      by (unfold Py.get; now rewrite Hnone).
    now rewrite (parse_zap_alert_risk d _ f Hg Hf).
  - intros d Hvalid.
    destruct (valid_json_alert_parses (PDict d) Hvalid) as (f & Hf & _). eauto.
  - intros d s H. eexists. split; [apply (zap_json_risk_of_desc d s H) |].
    apply get_json_risk_cases.
  - intros alert rc code Hfind Htext.
    cbn [_parse_zap_xml_alert Finding.risk]. unfold zap_xml_risk.
    rewrite Hfind, Htext. apply get_xml_risk_cases.
  - intros alert f H.
    destruct (parse_zap_alert_inv alert f H) as (d & insts & items & _ & _ & Hr & _).
    now apply zap_json_risk_value with alert.
  - intro alert. apply zap_xml_risk_value.
Qed.

Lemma risk_normalization_witness :
  (exists f, _parse_zap_alert sample_json_alert_high = Ok f /\ Finding.risk f = "high") /\
  (exists f, _parse_zap_alert (PDict [("riskdesc", PStr "Critical (High)")]) = Ok f /\
             Finding.risk f = "unknown") /\
  (exists f, _parse_zap_alert (PDict []) = Ok f /\ Finding.risk f = "unknown") /\
  Finding.risk (_parse_zap_xml_alert sample_xml_alert) = "high" /\
  Finding.risk (_parse_zap_xml_alert
                  (Element "alertitem" None [Element "riskcode" (Some "high") []]))
  = "unknown".
Proof.
  destruct risk_normalization_exhaustive_total as (HJ & HM & HT & _ & HX & _ & _).
  repeat apply conj.
  - unfold sample_json_alert_high.
    match goal with
    | |- exists f, _parse_zap_alert (PDict ?d) = _ /\ _ =>
        destruct (HT d eq_refl) as [f Hf]; exists f; split; [exact Hf |];
        destruct (HJ d "High (Warning)" f eq_refl Hf) as (Hh & _)
    end.
    apply Hh. reflexivity.
  - destruct (HT [("riskdesc", PStr "Critical (High)")] eq_refl) as [f Hf].
    exists f. split; [exact Hf |].
    destruct (HJ [("riskdesc", PStr "Critical (High)")] "Critical (High)" f eq_refl Hf)
      as (_ & _ & _ & _ & Hu).
    apply Hu; discriminate.
  - destruct (HT [] eq_refl) as [f Hf]. exists f. split; [exact Hf |].
    apply (HM [] f eq_refl Hf).
  - apply (HX sample_xml_alert (Element "riskcode" (Some "3") []) "3");
      reflexivity.
  - apply (HX (Element "alertitem" None [Element "riskcode" (Some "high") []])
              (Element "riskcode" (Some "high") []) "high");
      [reflexivity | reflexivity | discriminate ..].
Defined.

(** ** Risk summary *)

Lemma increment_keys (k : string) (d : risk_summary_t) :
  map fst (increment k d) = map fst d.
Proof.
  induction d as [| [k' n] d IH]; simpl; [reflexivity |].
  destruct (String.eqb k k'); simpl; [reflexivity | now rewrite IH].
Qed.

Lemma update_keys (risk : string) (rs : risk_summary_t) :
  map fst (update_risk_summary risk rs) = map fst rs.
Proof.
  unfold update_risk_summary. destruct (has_key risk rs); [| reflexivity].
  apply increment_keys.
Qed.

Lemma has_key_by_keys {V : Type} (k : string) (d d' : list (string * V)) :
  map fst d = map fst d' -> has_key k d = has_key k d'.
Proof.
  unfold has_key. revert d'.
  induction d as [| [k1 v1] d IH]; intros [| [k2 v2] d'] H; simpl in *;
    try discriminate; [reflexivity |].
  inversion H; subst. destruct (String.eqb k k2); [reflexivity | now apply IH].
Qed.

Lemma sum_increment (k : string) (d : risk_summary_t) :
  has_key k d = true -> sum_values (increment k d) = S (sum_values d).
Proof.
  unfold has_key. induction d as [| [k' n] d IH]; simpl; [discriminate |].
  destruct (String.eqb k k'); simpl; intro H; [reflexivity |].
  rewrite (IH H). lia.
Qed.

Lemma sum_update (risk : string) (rs : risk_summary_t) :
  sum_values (update_risk_summary risk rs)
  = sum_values rs + (if has_key risk rs then 1 else 0).
Proof.
  unfold update_risk_summary. destruct (has_key risk rs) eqn:H.
  - rewrite (sum_increment _ _ H). lia.
  - lia.
Qed.

Lemma lookup_increment (k j : string) (d : risk_summary_t) :
  Py.lookup j (increment k d)
  = match Py.lookup j d with
    | Some n => Some (if String.eqb k j then S n else n)
    | None => None
    end.
Proof.
  induction d as [| [k' n] d IH]; simpl; [reflexivity |].
  destruct (String.eqb k k') eqn:Hk; simpl.
  - apply String.eqb_eq in Hk; subst k'.
    destruct (String.eqb j k) eqn:Hj.
    + apply String.eqb_eq in Hj; subst j. now rewrite String.eqb_refl.
    + destruct (Py.lookup j d); [| reflexivity].
      rewrite String.eqb_sym, Hj. reflexivity.
  - destruct (String.eqb j k') eqn:Hj; [| exact IH].
    apply String.eqb_eq in Hj; subst j. now rewrite Hk.
Qed.

Lemma lookup_update (risk j : string) (rs : risk_summary_t) :
  Py.lookup j (update_risk_summary risk rs)
  = match Py.lookup j rs with
    | Some n => Some (if String.eqb risk j then S n else n)
    | None => None
    end.
Proof.
  unfold update_risk_summary, has_key.
  destruct (Py.lookup risk rs) eqn:H; [apply lookup_increment |].
  destruct (Py.lookup j rs) eqn:Hj; [| reflexivity].
  destruct (String.eqb risk j) eqn:E; [| reflexivity].
  apply String.eqb_eq in E; subst j. congruence.
Qed.

Lemma update_never_decrements (risk k : string) (rs : risk_summary_t) :
  Py.get rs k 0 <= Py.get (update_risk_summary risk rs) k 0.
Proof.
  unfold Py.get. rewrite lookup_update.
  destruct (Py.lookup k rs); [| lia].
  destruct (String.eqb risk k); lia.
Qed.

Lemma update_outside_keys (risk : string) (rs : risk_summary_t) :
  has_key risk rs = false -> update_risk_summary risk rs = rs.
Proof. unfold update_risk_summary. now intros ->. Qed.

Lemma sum_classify_all (risks : list string) (rs : risk_summary_t) :
  sum_values (classify_all risks rs)
  = sum_values rs + List.length (filter (fun r => has_key r rs) risks).
Proof.
  unfold classify_all. revert rs.
  induction risks as [| r risks IH]; intro rs; simpl; [lia |].
  rewrite IH, sum_update.
  rewrite (filter_ext (fun r0 => has_key r0 (update_risk_summary r rs))
             (fun r0 => has_key r0 rs))
    by (intro r0; apply has_key_by_keys, update_keys).
  destruct (has_key r rs); simpl; lia.
Qed.

Lemma classify_all_never_decrements (risks : list string) (k : string)
    (rs : risk_summary_t) :
  Py.get rs k 0 <= Py.get (classify_all risks rs) k 0.
Proof.
  unfold classify_all. revert rs.
  induction risks as [| r risks IH]; intro rs; simpl; [lia |].
  etransitivity; [apply (update_never_decrements r k) | apply IH].
Qed.

Lemma count_recognized_filter (fs : list finding) :
  List.length (filter (fun r => has_key r initial_risk_summary) (map Finding.risk fs))
  = count_recognized fs.
Proof.
  unfold count_recognized, recognized.
  induction fs as [| f fs IH]; simpl; [reflexivity |].
  destruct (has_key (Finding.risk f) initial_risk_summary); simpl; now rewrite IH.
Qed.

Lemma sum_after_findings (fs : list finding) :
  sum_values (classify_all (map Finding.risk fs) initial_risk_summary)
  = count_recognized fs.
Proof. now rewrite sum_classify_all, count_recognized_filter. Qed.

(** C5.  After one classifier update per finding, starting from the
    all-zero summary, the five buckets sum to the number of findings whose
    risk is critical, high, medium, low or informational.  An update with
    "unknown", or with any label that is not one of the five keys, leaves
    the summary as it was, and no update lowers a bucket.  The analyzer a
    run of [main] leaves behind has such a summary for its findings. *)
Theorem risk_summary_counts_recognized_findings :
  (forall fs : list finding,
      sum_values (classify_all (map Finding.risk fs) initial_risk_summary)
      = count_recognized fs) /\
  (forall rs : risk_summary_t,
      map fst rs = map fst initial_risk_summary ->
      update_risk_summary "unknown" rs = rs /\
      forall risk : string,
        recognized risk = false -> update_risk_summary risk rs = rs) /\
  (forall (risk k : string) (rs : risk_summary_t),
      Py.get rs k 0 <= Py.get (update_risk_summary risk rs) k 0) /\
  (forall (fs : list finding) (k : string) (rs : risk_summary_t),
      Py.get rs k 0 <= Py.get (classify_all (map Finding.risk fs) rs) k 0) /\
  (forall (dir : string) (w : world),
      let a := self (fst (main dir w)) in
      risk_summary a
      = classify_all (map Finding.risk (findings a)) initial_risk_summary /\
      sum_values (risk_summary a) = count_recognized (findings a)).
Proof.
  split; [exact sum_after_findings |].
  split; [| split; [exact update_never_decrements | split]].
  - intros rs Hkeys.
    assert (H : forall risk, recognized risk = false ->
                             update_risk_summary risk rs = rs).
    { intros risk Hr. apply update_outside_keys.
      now rewrite (has_key_by_keys risk rs initial_risk_summary Hkeys). }
    split; [apply H; reflexivity | exact H].
  - intros fs k rs. apply classify_all_never_decrements.
  - intros dir w. cbv zeta. pose proof (main_consistent dir w) as H.
    unfold consistent in H. split; [exact H |].
    rewrite H. apply sum_after_findings.
Qed.

Lemma risk_summary_counts_witness :
  sum_values
    (classify_all ["high"; "unknown"; "low"; "High"; "high"] initial_risk_summary) = 3 /\
  update_risk_summary "unknown" (update_risk_summary "high" initial_risk_summary)
  = update_risk_summary "high" initial_risk_summary.
Proof.
  destruct risk_summary_counts_recognized_findings as (Hsum & Hout & _).
  split.
  - exact (Hsum (map (fun r => sample_finding "Missing Header" r [])
                   ["high"; "unknown"; "low"; "High"; "high"])).
  - destruct (Hout (update_risk_summary "high" initial_risk_summary) eq_refl)
      as [Hunknown _].
    exact Hunknown.
Defined.

(** ** Executive summary *)

Ltac bucket_eq :=
  repeat match goal with
         | |- (_ :: _) = (_ :: _) => f_equal
         | |- (_, _) = (_, _) => f_equal
         end;
  lia.

Lemma classify_all_buckets (risks : list string) (c h m l i : nat) :
  let count k := List.length (filter (fun r => String.eqb r k) risks) in
  classify_all risks
    [("critical", c); ("high", h); ("medium", m); ("low", l); ("informational", i)]
  = [("critical", c + count "critical"); ("high", h + count "high");
     ("medium", m + count "medium"); ("low", l + count "low");
     ("informational", i + count "informational")].
Proof.
  cbv zeta. unfold classify_all. revert c h m l i.
  induction risks as [| r risks IH]; intros c h m l i.
  - simpl. now rewrite !Nat.add_0_r.
  - cbn [fold_left filter].
    unfold update_risk_summary at 2, has_key. cbn [Py.lookup increment].
    destruct (String.eqb r "critical") eqn:E1.
    { apply String.eqb_eq in E1; subst r. simpl. rewrite IH. bucket_eq. }
    destruct (String.eqb r "high") eqn:E2.
    { apply String.eqb_eq in E2; subst r. simpl. rewrite IH. bucket_eq. }
    destruct (String.eqb r "medium") eqn:E3.
    { apply String.eqb_eq in E3; subst r. simpl. rewrite IH. bucket_eq. }
    destruct (String.eqb r "low") eqn:E4.
    { apply String.eqb_eq in E4; subst r. simpl. rewrite IH. bucket_eq. }
    destruct (String.eqb r "informational") eqn:E5.
    { apply String.eqb_eq in E5; subst r. simpl. rewrite IH. bucket_eq. }
    apply IH.
Qed.

Lemma count_risk_map (k : string) (fs : list finding) :
  List.length (filter (fun r => String.eqb r k) (map Finding.risk fs))
  = count_risk k fs.
Proof.
  unfold count_risk. induction fs as [| f fs IH]; simpl; [reflexivity |].
  destruct (String.eqb (Finding.risk f) k); simpl; now rewrite IH.
Qed.

Lemma summary_after_findings (fs : list finding) :
  classify_all (map Finding.risk fs) initial_risk_summary
  = [("critical", count_risk "critical" fs); ("high", count_risk "high" fs);
     ("medium", count_risk "medium" fs); ("low", count_risk "low" fs);
     ("informational", count_risk "informational" fs)].
Proof.
  unfold initial_risk_summary.
  rewrite (classify_all_buckets (map Finding.risk fs) 0 0 0 0 0).
  cbn [Nat.add]. now rewrite !count_risk_map.
Qed.

Lemma count_recognized_split (fs : list finding) :
  count_recognized fs
  = count_risk "critical" fs + count_risk "high" fs + count_risk "medium" fs
    + count_risk "low" fs + count_risk "informational" fs.
Proof.
  rewrite <- sum_after_findings, summary_after_findings.
  unfold sum_values; simpl. lia.
Qed.

(** C7.  The wording of the executive summary follows the threshold
    ladder on the summary the findings produce.  With no finding at all,
    and more generally when the five buckets sum to zero, the text is the
    sentence that no security vulnerabilities were identified.  When the
    buckets do not sum to zero the text is a paragraph: an empty line, a
    sentence, the five counts and the total.  The sentence says that no
    critical or high-risk vulnerabilities were found when there is no
    critical or high finding, that attention is required when there are
    one to three, and that immediate action is required when there are
    four or more.  The method returns this text for an analyzer whose
    summary classifies its findings. *)
Theorem executive_summary_threshold_ladder (fs : list finding) :
  let rs := classify_all (map Finding.risk fs) initial_risk_summary in
  let critical := count_risk "critical" fs in
  let high := count_risk "high" fs in
  let total := count_recognized fs in
  let paragraph (sentence : string) :=
    nl +++ sentence +++ nl +++ nl
    +++ "**Risk Distribution:**" +++ nl
    +++ "- Critical: " +++ PyStr.of_nat critical +++ nl
    +++ "- High: " +++ PyStr.of_nat high +++ nl
    +++ "- Medium: " +++ PyStr.of_nat (count_risk "medium" fs) +++ nl
    +++ "- Low: " +++ PyStr.of_nat (count_risk "low" fs) +++ nl
    +++ "- Informational: " +++ PyStr.of_nat (count_risk "informational" fs) +++ nl
    +++ nl
    +++ "**Total Findings:** " +++ PyStr.of_nat total +++ nl in
  let no_vulnerabilities :=
    "✅ **EXCELLENT**: No security vulnerabilities were identified during the assessment." in
  sum_values rs = total /\
  (fs = [] -> executive_summary rs = Ok no_vulnerabilities) /\
  (total = 0 -> executive_summary rs = Ok no_vulnerabilities) /\
  (total <> 0 -> critical + high = 0 ->
   executive_summary rs
   = Ok (paragraph "✅ **GOOD**: No critical or high-risk vulnerabilities found.")) /\
  (1 <= critical + high <= 3 ->
   executive_summary rs
   = Ok (paragraph
           "⚠️ **ATTENTION REQUIRED**: Few high-risk vulnerabilities identified.")) /\
  (4 <= critical + high ->
   executive_summary rs
   = Ok (paragraph
           "🚨 **IMMEDIATE ACTION REQUIRED**: Multiple high-risk vulnerabilities found.")) /\
  (forall w : world,
      findings (self w) = fs -> consistent (self w) ->
      generate_executive_summary w = (w, executive_summary rs)).
Proof.
  cbv zeta.
  pose proof (sum_after_findings fs) as Hsum.
  pose proof (count_recognized_split fs) as Hsplit.
  assert (Hrun : forall status,
             count_recognized fs <> 0 ->
             status_of (count_risk "critical" fs + count_risk "high" fs) = status ->
             executive_summary
               (classify_all (map Finding.risk fs) initial_risk_summary)
             = Ok (summary_paragraph status (count_risk "critical" fs)
                     (count_risk "high" fs) (count_risk "medium" fs)
                     (count_risk "low" fs) (count_risk "informational" fs)
                     (count_recognized fs))).
  { intros status Hne Hst. unfold executive_summary. rewrite Hsum.
    destruct (Nat.eqb_spec (count_recognized fs) 0) as [E | _]; [contradiction |].
    rewrite summary_after_findings.
    cbn [subscript Py.lookup String.eqb Ascii.eqb Bool.eqb rbind].
    now rewrite Hst. }
  assert (Hzero : count_recognized fs = 0 ->
                  executive_summary
                    (classify_all (map Finding.risk fs) initial_risk_summary)
                  = Ok status_excellent).
  { intro Hz. unfold executive_summary. now rewrite Hsum, Hz. }
  split; [exact Hsum |].
  split; [intros ->; reflexivity |].
  split; [exact Hzero |].
  split; [| split; [| split]].
  - intros Hne Hch. apply Hrun; [exact Hne |]. now rewrite Hch.
  - intros [Hlo Hhi]. apply Hrun; [lia |].
    unfold status_of.
    destruct (Nat.eqb_spec (count_risk "critical" fs + count_risk "high" fs) 0);
      [lia |].
    destruct (Nat.leb_spec (count_risk "critical" fs + count_risk "high" fs) 3);
      [reflexivity | lia].
  - intro Hlo. apply Hrun; [lia |].
    unfold status_of.
    destruct (Nat.eqb_spec (count_risk "critical" fs + count_risk "high" fs) 0);
      [lia |].
    destruct (Nat.leb_spec (count_risk "critical" fs + count_risk "high" fs) 3);
      [lia | reflexivity].
  - intros w Hfs Hc. unfold consistent in Hc. rewrite Hfs in Hc.
    unfold generate_executive_summary, bind, get_self, lift. now rewrite Hc.
Qed.

Lemma executive_summary_ladder_witness :
  executive_summary
    (classify_all ["high"; "unknown"; "low"] initial_risk_summary)
  = Ok (nl +++ "⚠️ **ATTENTION REQUIRED**: Few high-risk vulnerabilities identified."
        +++ nl +++ nl
        +++ "**Risk Distribution:**" +++ nl
        +++ "- Critical: 0" +++ nl
        +++ "- High: 1" +++ nl
        +++ "- Medium: 0" +++ nl
        +++ "- Low: 1" +++ nl
        +++ "- Informational: 0" +++ nl
        +++ nl
        +++ "**Total Findings:** 2" +++ nl) /\
  executive_summary (classify_all ["unknown"] initial_risk_summary)
  = Ok "✅ **EXCELLENT**: No security vulnerabilities were identified during the assessment.".
Proof.
  split.
  - destruct (executive_summary_threshold_ladder
                [sample_finding "Cross Site Scripting" "high" [];
                 sample_finding "Odd" "unknown" [];
                 sample_finding "Missing Header" "low" []])
      as (_ & _ & _ & _ & Hattention & _).
    apply Hattention. vm_compute. lia.
  - destruct (executive_summary_threshold_ladder [sample_finding "Odd" "unknown" []])
      as (_ & _ & Hzero & _).
    apply Hzero. reflexivity.
Defined.

(** ** Binary floating point *)

Lemma pow2_pos (e : Z) : (0 < Float.pow2 e)%Q.
Proof. apply Qpower_0_lt. reflexivity. Qed.

Lemma pow2_add (a b : Z) : (Float.pow2 (a + b) == Float.pow2 a * Float.pow2 b)%Q.
Proof. apply Qpower_plus. discriminate. Qed.

Lemma pow2_le (a b : Z) : (a <= b)%Z -> (Float.pow2 a <= Float.pow2 b)%Q.
Proof. intro H. apply Qpower_le_compat_l; [exact H | discriminate]. Qed.

Lemma pow2_le_inv (a b : Z) : (Float.pow2 a <= Float.pow2 b)%Q -> (a <= b)%Z.
Proof. intro H. apply (Qpower_le_compat_l_inv 2); [exact H | reflexivity]. Qed.

Lemma pow2_int (e : Z) : (0 <= e)%Z -> (Float.pow2 e == inject_Z (2 ^ e))%Q.
Proof. intro H. unfold Float.pow2. now rewrite Zpower_Qpower. Qed.

Lemma pow2_half (e : Z) : (Float.pow2 (e - 1) == Float.pow2 e * (1 # 2))%Q.
Proof.
  replace (e - 1)%Z with (e + -1)%Z by lia. rewrite pow2_add. reflexivity.
Qed.

Lemma pow2_opp (e : Z) : (Float.pow2 e * Float.pow2 (- e) == 1)%Q.
Proof. rewrite <- pow2_add. now replace (e + - e)%Z with 0%Z by lia. Qed.

Lemma binade_lower (n d : positive) :
  (Float.pow2 (Float.binade n d) <= Zpos n # d)%Q.
Proof.
  unfold Float.binade. cbv zeta.
  destruct (Qle_bool _ _) eqn:E; [now apply Qle_bool_iff |].
  set (a := Z.log2 (Zpos n)). set (b := Z.log2 (Zpos d)).
  assert (Ha : (0 <= a)%Z) by apply Z.log2_nonneg.
  assert (Hb : (0 <= b)%Z) by apply Z.log2_nonneg.
  destruct (Z.log2_spec (Zpos n) ltac:(lia)) as [Hn _]. fold a in Hn.
  destruct (Z.log2_spec (Zpos d) ltac:(lia)) as [_ Hd]. fold b in Hd.
  assert (Hx : (Float.pow2 (a - b - 1) * inject_Z (2 ^ (Z.succ b))
                == inject_Z (2 ^ a))%Q).
  { rewrite <- !pow2_int by lia. rewrite <- pow2_add. now replace (a - b - 1 + Z.succ b)%Z with a by lia. }
  pose proof (pow2_pos (a - b - 1)) as Hpos.
  set (x := Float.pow2 (a - b - 1)) in *.
  rewrite Qmake_Qdiv. apply Qle_shift_div_l.
  - change 0%Q with (inject_Z 0). rewrite <- Zlt_Qlt. lia.
  - apply Qle_trans with (x * inject_Z (2 ^ Z.succ b))%Q.
    + apply Qmult_le_l; [exact Hpos |]. rewrite <- Zle_Qle. lia.
    + rewrite Hx. rewrite <- Zle_Qle. exact Hn.
Qed.

Lemma binade_upper (n d : positive) :
  (Zpos n # d < Float.pow2 (Float.binade n d + 1))%Q.
Proof.
  unfold Float.binade. cbv zeta.
  destruct (Qle_bool _ _) eqn:E.
  - set (a := Z.log2 (Zpos n)). set (b := Z.log2 (Zpos d)).
    assert (Ha : (0 <= a)%Z) by apply Z.log2_nonneg.
    assert (Hb : (0 <= b)%Z) by apply Z.log2_nonneg.
    destruct (Z.log2_spec (Zpos n) ltac:(lia)) as [_ Hn]. fold a in Hn.
    destruct (Z.log2_spec (Zpos d) ltac:(lia)) as [Hd _]. fold b in Hd.
    assert (Hx : (Float.pow2 (a - b + 1) * inject_Z (2 ^ b)
                  == inject_Z (2 ^ (Z.succ a)))%Q).
    { rewrite <- !pow2_int by lia. rewrite <- pow2_add.
      now replace (a - b + 1 + b)%Z with (Z.succ a) by lia. }
    pose proof (pow2_pos (a - b + 1)) as Hpos.
    set (x := Float.pow2 (a - b + 1)) in *.
    rewrite Qmake_Qdiv. apply Qlt_shift_div_r.
    + change 0%Q with (inject_Z 0). rewrite <- Zlt_Qlt. lia.
    + apply Qlt_le_trans with (inject_Z (2 ^ Z.succ a)).
      * rewrite <- Zlt_Qlt. exact Hn.
      * rewrite <- Hx. apply Qmult_le_l; [exact Hpos |]. rewrite <- Zle_Qle. exact Hd.
  - replace (Z.log2 (Zpos n) - Z.log2 (Zpos d) - 1 + 1)%Z
      with (Z.log2 (Zpos n) - Z.log2 (Zpos d))%Z by lia.
    apply Qnot_le_lt. intro H. apply Qle_bool_iff in H. congruence.
Qed.

Lemma round_half_even_le (q : Q) (z : Z) :
  (q <= inject_Z z)%Q -> (round_half_even q <= z)%Z.
Proof.
  destruct q as [n d]. unfold Qle, inject_Z, round_half_even; cbn [Qnum Qden].
  rewrite Z.mul_1_r. intro H.
  pose proof (Z.div_mod n (Zpos d) ltac:(lia)) as Hdm.
  pose proof (Z.mod_pos_bound n (Zpos d) ltac:(lia)) as Hb.
  set (fl := (n / Zpos d)%Z) in *. set (rm := (n mod Zpos d)%Z) in *.
  clearbody fl rm.
  destruct (Z.ltb_spec (2 * rm) (Zpos d)); [nia |].
  assert (fl < z)%Z by nia.
  destruct (Z.ltb_spec (Zpos d) (2 * rm)); [lia |].
  destruct (Z.even fl); lia.
Qed.

Lemma round_half_even_ge (q : Q) (z : Z) :
  (inject_Z z <= q)%Q -> (z <= round_half_even q)%Z.
Proof.
  destruct q as [n d]. unfold Qle, inject_Z, round_half_even; cbn [Qnum Qden].
  rewrite Z.mul_1_r. intro H.
  pose proof (Z.div_mod n (Zpos d) ltac:(lia)) as Hdm.
  pose proof (Z.mod_pos_bound n (Zpos d) ltac:(lia)) as Hb.
  set (fl := (n / Zpos d)%Z) in *. set (rm := (n mod Zpos d)%Z) in *.
  clearbody fl rm.
  assert (z <= fl)%Z by nia.
  destruct (Z.ltb_spec (2 * rm) (Zpos d)); [lia |].
  destruct (Z.ltb_spec (Zpos d) (2 * rm)); [lia |].
  destruct (Z.even fl); lia.
Qed.

Lemma round_half_even_close (q : Q) :
  (inject_Z (round_half_even q) - q <= 1 # 2)%Q /\
  (q - inject_Z (round_half_even q) <= 1 # 2)%Q.
Proof.
  destruct q as [n d]. unfold round_half_even; cbn [Qnum Qden].
  pose proof (Z.div_mod n (Zpos d) ltac:(lia)) as Hdm.
  pose proof (Z.mod_pos_bound n (Zpos d) ltac:(lia)) as Hb.
  set (fl := (n / Zpos d)%Z) in *. set (rm := (n mod Zpos d)%Z) in *.
  clearbody fl rm.
  assert (Hcases :
            forall r : Z,
              (r = fl /\ 2 * rm <= Zpos d)%Z \/ (r = fl + 1 /\ Zpos d <= 2 * rm)%Z ->
              (inject_Z r - (n # d) <= 1 # 2)%Q /\ ((n # d) - inject_Z r <= 1 # 2)%Q).
  { intros r Hr. unfold Qle, Qminus, Qplus, Qopp, inject_Z; simpl.
    rewrite ?Pos.mul_1_r.
    destruct Hr as [[-> H] | [-> H]]; split; subst n; nia. }
  apply Hcases.
  destruct (Z.ltb_spec (2 * rm) (Zpos d)); [left; lia |].
  destruct (Z.ltb_spec (Zpos d) (2 * rm)); [right; lia |].
  destruct (Z.even fl); [left | right]; lia.
Qed.

(** Rounding a positive number that is at most the integer [b], itself
    at most [2^K] and within the range where floats are spaced by less
    than one: the result is finite, at most [b], and off by at most half
    the spacing of the floats below [2^K]. *)
Lemma round_positive_bounds (n : positive) (d : positive) (b K : Z) :
  (Zpos n # d <= inject_Z b)%Q ->
  (inject_Z b <= Float.pow2 K)%Q ->
  (-1022 <= K <= 52)%Z ->
  exists v,
    Float.round_positive n (Zpos n # d) = Float.Finite v /\
    (0 <= v)%Q /\ (v <= inject_Z b)%Q /\
    (v - (Zpos n # d) <= Float.pow2 (K - 53))%Q /\
    ((Zpos n # d) - v <= Float.pow2 (K - 53))%Q.
Proof.
  intros Hb HK Hrange.
  set (q := Zpos n # d) in *.
  assert (Hq : (0 < q)%Q) by (unfold q, Qlt; simpl; lia).
  unfold Float.round_positive. cbv zeta. change (Qden q) with d.
  set (e := Float.ulp_exponent (Float.binade n d)).
  assert (He : (e <= K - 52)%Z).
  { unfold e, Float.ulp_exponent.
    assert (Float.binade n d <= K)%Z.
    { apply pow2_le_inv. apply Qle_trans with q; [apply binade_lower |].
      now apply Qle_trans with (inject_Z b). }
    lia. }
  pose proof (pow2_pos e) as Hpe.
  pose proof (pow2_opp e) as Hinv.
  assert (Hne : ~ (Float.pow2 e == 0)%Q) by (intro H0; rewrite H0 in Hpe; discriminate).
  set (y := (q / Float.pow2 e)%Q).
  assert (Hy : (y * Float.pow2 e == q)%Q) by (unfold y; field; exact Hne).
  assert (Hy' : (y == q * Float.pow2 (- e))%Q).
  { unfold y. rewrite <- (Qmult_1_r (q / Float.pow2 e)), <- Hinv. field. exact Hne. }
  destruct (round_half_even_close y) as [Hup Hdown].
  set (m := round_half_even y) in *.
  assert (Hm0 : (0 <= m)%Z).
  { apply round_half_even_ge. unfold y. apply Qle_shift_div_l; [exact Hpe |].
    change (inject_Z 0) with 0%Q. lra. }
  assert (Hmb : (m <= b * 2 ^ (- e))%Z).
  { apply round_half_even_le. rewrite inject_Z_mult, <- pow2_int by lia.
    rewrite Hy'. apply Qmult_le_compat_r; [exact Hb |].
    apply Qlt_le_weak, pow2_pos. }
  assert (Hvb : (inject_Z m * Float.pow2 e <= inject_Z b)%Q).
  { apply Qle_trans with (inject_Z (b * 2 ^ (- e)) * Float.pow2 e)%Q.
    - apply Qmult_le_compat_r; [now rewrite <- Zle_Qle | lra].
    - rewrite inject_Z_mult, <- pow2_int by lia.
      rewrite <- Qmult_assoc, (Qmult_comm (Float.pow2 (- e))), Hinv. lra. }
  assert (Hhalf : (Float.pow2 e * (1 # 2) <= Float.pow2 (K - 53))%Q).
  { rewrite <- pow2_half. apply pow2_le. lia. }
  assert (Hfin : Qle_bool (Float.pow2 1024) (inject_Z m * Float.pow2 e) = false).
  { destruct (Qle_bool _ _) eqn:E; [| reflexivity].
    apply Qle_bool_iff in E.
    assert (Float.pow2 K < Float.pow2 1024)%Q
      by (apply Qpower_lt_compat_l; [lia | reflexivity]).
    lra. }
  rewrite Hfin. eexists. split; [reflexivity |].
  assert (Hm0' : (0 <= inject_Z m)%Q).
  { change 0%Q with (inject_Z 0). now rewrite <- Zle_Qle. }
  split; [| split; [exact Hvb |]].
  - apply Qmult_le_0_compat; lra.
  - assert (Hd1 : (inject_Z m * Float.pow2 e - q
                   == (inject_Z m - y) * Float.pow2 e)%Q) by (rewrite <- Hy; ring).
    assert (Hd2 : (q - inject_Z m * Float.pow2 e
                   == (y - inject_Z m) * Float.pow2 e)%Q) by (rewrite <- Hy; ring).
    rewrite Hd1, Hd2. split.
    + apply Qle_trans with ((1 # 2) * Float.pow2 e)%Q; [| lra].
      apply Qmult_le_compat_r; lra.
    + apply Qle_trans with ((1 # 2) * Float.pow2 e)%Q; [| lra].
      apply Qmult_le_compat_r; lra.
Qed.

Lemma round_bounds (q : Q) (b K : Z) :
  (0 <= q)%Q ->
  (q <= inject_Z b)%Q ->
  (inject_Z b <= Float.pow2 K)%Q ->
  (-1022 <= K <= 52)%Z ->
  exists v,
    Float.round q = Float.Finite v /\
    (0 <= v)%Q /\ (v <= inject_Z b)%Q /\
    (v - q <= Float.pow2 (K - 53))%Q /\ (q - v <= Float.pow2 (K - 53))%Q.
Proof.
  intros H0 Hb HK Hrange. destruct q as [[| n | n] d].
  - exists 0%Q. pose proof (pow2_pos (K - 53)). pose proof (pow2_pos K).
    assert ((0 # d) == 0)%Q by reflexivity.
    repeat split; try reflexivity; lra.
  - apply round_positive_bounds; assumption.
  - exfalso. unfold Qle in H0; simpl in H0. lia.
Qed.

(** The quotient of a count by a total it does not exceed: a float
    between 0 and 1, within [2^-53] of the exact quotient. *)
Lemma truediv_bounds (count total : nat) :
  0 < total -> count <= total ->
  exists v,
    truediv count total = Ok v /\
    (0 <= v)%Q /\ (v <= 1)%Q /\
    (v - (Z.of_nat count # Pos.of_nat total) <= Float.pow2 (-53))%Q /\
    ((Z.of_nat count # Pos.of_nat total) - v <= Float.pow2 (-53))%Q.
Proof.
  intros Hpos Hle. unfold truediv.
  destruct (Nat.eqb_spec total 0) as [-> | _]; [lia |].
  destruct (round_bounds (Z.of_nat count # Pos.of_nat total) 1 0)
    as (v & -> & Hv); [| | discriminate | lia |].
  - unfold Qle; simpl. lia.
  - unfold Qle; simpl. lia.
  - exists v. split; [reflexivity | exact Hv].
Qed.

(** A percentage of the table: a float between 0 and 100, within a
    millionth of a millionth of the exact value. *)
Lemma percentage_bounds (count total : nat) :
  0 < total -> count <= total ->
  exists p,
    percentage count total = Ok (Float.Finite p) /\
    (0 <= p)%Q /\ (p <= 100)%Q /\
    (p - (100 * Z.of_nat count # Pos.of_nat total) <= percentage_error)%Q /\
    ((100 * Z.of_nat count # Pos.of_nat total) - p <= percentage_error)%Q.
Proof.
  intros Hpos Hle. unfold percentage.
  destruct (Nat.ltb_spec 0 total) as [_ | ?]; [| lia].
  destruct (truediv_bounds count total Hpos Hle) as (v & -> & Hv0 & Hv1 & Hup & Hdown).
  cbn [rbind]. unfold Float.mul.
  destruct (round_bounds (v * 100) 100 7) as (p & -> & Hp0 & Hp1 & Hpup & Hpdown);
    [lra | change (inject_Z 100) with 100%Q; lra | discriminate | lia |].
  exists p. split; [reflexivity |]. split; [exact Hp0 |].
  split; [exact Hp1 |].
  assert (Hex : ((100 * Z.of_nat count # Pos.of_nat total)
                 == (Z.of_nat count # Pos.of_nat total) * 100)%Q).
  { unfold Qeq, Qmult. cbn [Qnum Qden]. rewrite Pos.mul_1_r. ring. }
  assert (Heps : (100 * Float.pow2 (-53) + Float.pow2 (7 - 53) <= percentage_error)%Q)
    by discriminate.
  rewrite Hex.
  set (x := (Z.of_nat count # Pos.of_nat total)) in *.
  set (A := Float.pow2 (-53)) in *. set (B := Float.pow2 (7 - 53)) in *.
  set (E := percentage_error) in *.
  clearbody x A B E. split; lra.
Qed.

(** ** Risk table *)

Lemma percentage_zero_total (count : nat) :
  percentage count 0 = Ok (Float.Finite 0).
Proof. reflexivity. Qed.

Lemma count_le_sum (rs : risk_summary_t) (item : string * nat) :
  In item rs -> snd item <= sum_values rs.
Proof.
  unfold sum_values. induction rs as [| x rs IH]; simpl; [tauto |].
  intros [-> | Hin]; [lia |]. specialize (IH Hin). lia.
Qed.

Lemma sum_values_zero (rs : risk_summary_t) :
  sum_values rs = 0 -> Forall (fun item => snd item = 0) rs.
Proof.
  unfold sum_values.
  induction rs as [| [k n] rs IH]; simpl; intro H; constructor.
  - simpl; lia.
  - apply IH. lia.
Qed.

Lemma tenths_bounds (p : Q) :
  (0 <= p)%Q -> (p <= 100)%Q ->
  (0 <= tenths p <= 1000)%Z /\
  ((tenths p # 10) - p <= 1 # 20)%Q /\ (p - (tenths p # 10) <= 1 # 20)%Q.
Proof.
  intros H0 H100. unfold tenths.
  destruct (round_half_even_close (p * 10)) as [Hup Hdown].
  split; [split |].
  - apply round_half_even_ge. change (inject_Z 0) with 0%Q. lra.
  - apply round_half_even_le. change (inject_Z 1000) with 1000%Q. lra.
  - set (t := round_half_even (p * 10)) in *.
    assert (Ht : ((t # 10) == inject_Z t * (1 # 10))%Q).
    { unfold Qeq, Qmult, inject_Z. cbn [Qnum Qden]. lia. }
    rewrite Ht. split; lra.
Qed.

Lemma append_assoc (a b c : string) : (a +++ b) +++ c = a +++ b +++ c.
Proof. induction a as [| x a IH]; simpl; [reflexivity | now rewrite IH]. Qed.

Lemma format_1f_nonneg (p : Q) :
  (0 <= p)%Q ->
  format_1f (Float.Finite p)
  = PyStr.of_Z (tenths p / 10) +++ "." +++ PyStr.of_Z (tenths p mod 10).
Proof.
  intro H0. unfold format_1f.
  assert (Ht : (0 <= tenths p)%Z).
  { apply round_half_even_ge. change (inject_Z 0) with 0%Q. lra. }
  destruct (Z.ltb_spec (Qnum p) 0) as [Hneg | _].
  - exfalso. unfold Qle in H0; simpl in H0. lia.
  - now rewrite Z.abs_eq.
Qed.

(** One row of the table for a count that does not exceed a positive
    total. *)
Lemma risk_table_row_positive (total : nat) (item : string * nat) :
  0 < total -> snd item <= total ->
  exists p,
    percentage (snd item) total = Ok (Float.Finite p) /\
    risk_table_row total item
    = Ok ("| " +++ PyStr.title (fst item) +++ " | " +++ PyStr.of_nat (snd item)
          +++ " | " +++ PyStr.of_Z (tenths p / 10) +++ "."
          +++ PyStr.of_Z (tenths p mod 10) +++ "% |" +++ nl) /\
    (0 <= p)%Q /\ (p <= 100)%Q /\
    (p - exact_percentage (snd item) total <= percentage_error)%Q /\
    (exact_percentage (snd item) total - p <= percentage_error)%Q.
Proof.
  intros Hpos Hle.
  destruct (percentage_bounds (snd item) total Hpos Hle)
    as (p & Hp & H0 & H100 & Hup & Hdown).
  exists p. split; [exact Hp |]. split; [| auto].
  unfold risk_table_row. cbv zeta. rewrite Hp. cbn [rbind].
  rewrite (format_1f_nonneg p H0).
  cbn [String.append]. now rewrite !append_assoc.
Qed.

Lemma risk_table_rows (total : nat) (items : risk_summary_t) :
  0 < total ->
  Forall (fun item => snd item <= total) items ->
  exists ps : list Q,
    rmap (fun item => percentage (snd item) total) items = Ok (map Float.Finite ps) /\
    rmap (risk_table_row total) items
    = Ok (map table_row (combine items (map tenths ps))) /\
    Forall2 (fun item p =>
               (0 <= p)%Q /\ (p <= 100)%Q /\
               (p - exact_percentage (snd item) total <= percentage_error)%Q /\
               (exact_percentage (snd item) total - p <= percentage_error)%Q)
      items ps.
Proof.
  intros Hpos. induction 1 as [| item items Hle _ IH].
  - exists []. repeat split. constructor.
  - destruct IH as (ps & Hps & Hrows & Hall).
    destruct (risk_table_row_positive total item Hpos Hle) as (p & Hp & Hrow & Hb).
    exists (p :: ps). cbn [rmap map combine]. rewrite Hp, Hps, Hrow, Hrows.
    split; [reflexivity |]. split; [reflexivity |]. now constructor.
Qed.

Lemma sum_exact_percentages (total : nat) (items : risk_summary_t) :
  (sum_Q (map (fun item => exact_percentage (snd item) total) items)
   == (100 * Z.of_nat (sum_values items) # Pos.of_nat total))%Q.
Proof.
  induction items as [| [k c] items IH].
  - reflexivity.
  - cbn [map sum_Q fold_right snd].
    fold (sum_Q (map (fun item => exact_percentage (snd item) total) items)).
    rewrite IH. unfold exact_percentage, sum_values. cbn [fold_right snd].
    fold (sum_values items).
    unfold Qeq, Qplus. cbn [Qnum Qden]. rewrite Nat2Z.inj_add, Pos2Z.inj_mul. ring.
Qed.

Lemma percentages_sum_close (total : nat) (items : risk_summary_t) (ps : list Q) :
  Forall2 (fun item p =>
             (0 <= p)%Q /\ (p <= 100)%Q /\
             (p - exact_percentage (snd item) total <= percentage_error)%Q /\
             (exact_percentage (snd item) total - p <= percentage_error)%Q)
    items ps ->
  let exact := sum_Q (map (fun item => exact_percentage (snd item) total) items) in
  let n := inject_Z (Z.of_nat (List.length items)) in
  (sum_Q ps - exact <= n * percentage_error)%Q /\
  (exact - sum_Q ps <= n * percentage_error)%Q /\
  ((sum_Z (map tenths ps) # 10) - sum_Q ps <= n * (1 # 20))%Q /\
  (sum_Q ps - (sum_Z (map tenths ps) # 10) <= n * (1 # 20))%Q.
Proof.
  cbv zeta. induction 1 as [| item p items ps (H0 & H100 & Hup & Hdown) _ IH].
  - cbn. repeat split; discriminate.
  - cbn [map sum_Q sum_Z fold_right List.length].
    fold (sum_Q ps). fold (sum_Z (map tenths ps)).
    fold (sum_Q (map (fun item => exact_percentage (snd item) total) items)).
    destruct IH as (I1 & I2 & I3 & I4).
    destruct (tenths_bounds p H0 H100) as (_ & T1 & T2).
    rewrite Nat2Z.inj_succ, <- Z.add_1_r, inject_Z_plus.
    change (inject_Z 1) with 1%Q.
    assert (Hsplit : ((tenths p + sum_Z (map tenths ps) # 10)
                      == (tenths p # 10) + (sum_Z (map tenths ps) # 10))%Q).
    { unfold Qeq, Qplus. cbn [Qnum Qden]. lia. }
    rewrite Hsplit.
    set (n := inject_Z (Z.of_nat (List.length items))) in *.
    set (E := percentage_error) in *.
    set (x := exact_percentage (snd item) total) in *.
    set (X := sum_Q (map (fun item => exact_percentage (snd item) total) items)) in *.
    set (t := (tenths p # 10)) in *.
    set (T := (sum_Z (map tenths ps) # 10)) in *.
    set (S := sum_Q ps) in *.
    clearbody n E x X t T S.
    repeat split; lra.
Qed.

Lemma risk_table_total (rs : risk_summary_t) : exists table, risk_table rs = Ok table.
Proof.
  unfold risk_table. cbv zeta.
  destruct (sum_values rs) as [| t] eqn:Etotal.
  - assert (H : exists rows, rmap (risk_table_row 0) rs = Ok rows).
    { clear Etotal. induction rs as [| item rs IH]; simpl; [eauto |].
      destruct IH as [rows ->]. eauto. }
    destruct H as [rows ->]. simpl. eauto.
  - destruct (risk_table_rows (S t) rs ltac:(lia)) as (ps & _ & -> & _).
    + rewrite <- Etotal. apply Forall_forall. intros item Hin.
      now apply count_le_sum.
    + simpl. eauto.
Qed.

Lemma risk_table_zero_rows (rs : risk_summary_t) :
  Forall (fun item => snd item = 0) rs ->
  rmap (risk_table_row 0) rs
  = Ok (map (fun item => "| " +++ PyStr.title (fst item) +++ " | 0 | 0.0% |" +++ nl) rs).
Proof.
  induction 1 as [| [k c] rs Hc _ IH]; [reflexivity |].
  simpl in Hc. subst c. cbn [rmap map]. rewrite IH. reflexivity.
Qed.

(** C8.  The risk table is rendered without an exception for every
    summary.  When the counts sum to zero every row shows the count 0
    and the percentage "0.0%": the division, which would raise, is not
    evaluated.  When the counts sum to a positive total, the row of a
    level shows its count and its percentage with one decimal; the
    percentage is the float nearest to count / total, times 100, which
    lies between 0 and 100 within a millionth of a millionth of the exact
    value; the percentages add up to 100 within that error per row, and
    the values shown with one decimal add up to 100 within half a tenth
    more per row.  For the five rows of the summary the shown values add
    up to a number from 99.8 to 100.2. *)
Theorem risk_table_percentages (rs : risk_summary_t) :
  let total := sum_values rs in
  let rows := inject_Z (Z.of_nat (List.length rs)) in
  (exists table, risk_table rs = Ok table) /\
  (total = 0 ->
   risk_table rs
   = Ok (String.concat EmptyString
           (map (fun item =>
                   "| " +++ PyStr.title (fst item) +++ " | 0 | 0.0% |" +++ nl) rs)
         +++ nl) /\
   Forall (fun item =>
             truediv (snd item) total = Raise /\
             percentage (snd item) total = Ok (Float.Finite 0)) rs) /\
  (0 < total ->
   exists ps : list Q,
     let ts := map tenths ps in
     rmap (fun item => percentage (snd item) total) rs = Ok (map Float.Finite ps) /\
     risk_table rs
     = Ok (String.concat EmptyString
             (map (fun row : (string * nat) * Z =>
                     "| " +++ PyStr.title (fst (fst row)) +++ " | "
                     +++ PyStr.of_nat (snd (fst row)) +++ " | "
                     +++ PyStr.of_Z (snd row / 10) +++ "."
                     +++ PyStr.of_Z (snd row mod 10) +++ "% |" +++ nl)
                  (combine rs ts))
           +++ nl) /\
     Forall2 (fun item p =>
                (0 <= p)%Q /\ (p <= 100)%Q /\
                (Qabs (p - exact_percentage (snd item) total) <= percentage_error)%Q)
       rs ps /\
     Forall2 (fun p t =>
                (0 <= t <= 1000)%Z /\ (Qabs ((t # 10) - p) <= 1 # 20)%Q) ps ts /\
     (Qabs (sum_Q ps - 100) <= rows * percentage_error)%Q /\
     (Qabs ((sum_Z ts # 10) - 100) <= rows * ((1 # 20) + percentage_error))%Q /\
     (List.length rs = 5 -> (998 <= sum_Z ts <= 1002)%Z)).
Proof.
  cbv zeta. split; [apply risk_table_total |]. split.
  - intro Hzero. rewrite Hzero. pose proof (sum_values_zero rs Hzero) as Hall. split.
    + unfold risk_table. cbv zeta. rewrite Hzero.
      now rewrite (risk_table_zero_rows rs Hall).
    + revert Hall. apply Forall_impl. intros [k c]; simpl. intros ->. now split.
  - intro Hpos.
    assert (Hle : Forall (fun item => snd item <= sum_values rs) rs).
    { apply Forall_forall. intros item Hin. now apply count_le_sum. }
    destruct (risk_table_rows (sum_values rs) rs Hpos Hle) as (ps & Hps & Hrows & Hall).
    pose proof (percentages_sum_close (sum_values rs) rs ps Hall) as Hsum.
    cbv zeta in Hsum. rewrite sum_exact_percentages in Hsum.
    assert (H100 : ((100 * Z.of_nat (sum_values rs) # Pos.of_nat (sum_values rs))
                    == 100)%Q).
    { unfold Qeq. cbn [Qnum Qden]. lia. }
    rewrite H100 in Hsum. destruct Hsum as (S1 & S2 & S3 & S4).
    exists ps. split; [exact Hps |]. split.
    { unfold risk_table. cbv zeta. rewrite Hrows. reflexivity. }
    split.
    { revert Hall. apply Forall2_impl. intros item p (H0 & Hp & Hup & Hdown).
      split; [exact H0 |]. split; [exact Hp |].
      apply Qabs_Qle_condition. split; lra. }
    split.
    { clear - Hall. induction Hall as [| item p items ps (H0 & Hp & _) _ IH];
        cbn [map]; constructor; [| exact IH].
      destruct (tenths_bounds p H0 Hp) as (Ht & T1 & T2).
      split; [exact Ht |]. apply Qabs_Qle_condition. split; lra. }
    set (n := inject_Z (Z.of_nat (List.length rs))) in *.
    set (T := (sum_Z (map tenths ps) # 10)) in *.
    split; [apply Qabs_Qle_condition; split; lra |].
    split; [apply Qabs_Qle_condition; split; lra |].
    intro Hfive. unfold n, T in S1, S2, S3, S4. rewrite Hfive in S1, S2, S3, S4.
    change (inject_Z (Z.of_nat 5)) with 5%Q in S1, S2, S3, S4.
    assert (Heps : (5 * ((1 # 20) + percentage_error) < 3 # 10)%Q) by reflexivity.
    assert (Hhi : ((sum_Z (map tenths ps) # 10) < 1003 # 10)%Q) by lra.
    assert (Hlo : ((997 # 10) < (sum_Z (map tenths ps) # 10))%Q) by lra.
    unfold Qlt in Hhi, Hlo. cbn [Qnum Qden] in Hhi, Hlo. lia.
Qed.

Lemma risk_table_percentages_witness :
  risk_table [("critical", 0); ("high", 0); ("medium", 0); ("low", 0);
              ("informational", 0)]
  = Ok ("| Critical | 0 | 0.0% |" +++ nl
        +++ "| High | 0 | 0.0% |" +++ nl
        +++ "| Medium | 0 | 0.0% |" +++ nl
        +++ "| Low | 0 | 0.0% |" +++ nl
        +++ "| Informational | 0 | 0.0% |" +++ nl +++ nl) /\
  exists ps,
    rmap (fun item => percentage (snd item) 80)
      [("critical", 0); ("high", 23); ("medium", 49); ("low", 8);
       ("informational", 0)]
    = Ok (map Float.Finite ps) /\
    (998 <= sum_Z (map tenths ps) <= 1002)%Z.
Proof.
  split.
  - destruct (risk_table_percentages
                [("critical", 0); ("high", 0); ("medium", 0); ("low", 0);
                 ("informational", 0)])
      as (_ & Hzero & _).
    destruct (Hzero eq_refl) as [Htable _]. exact Htable.
  - destruct (risk_table_percentages
                [("critical", 0); ("high", 23); ("medium", 49); ("low", 8);
                 ("informational", 0)])
      as (_ & _ & Hpos).
    destruct (Hpos ltac:(vm_compute; lia)) as (ps & Hps & _ & _ & _ & _ & _ & Hfive).
    exists ps. split; [exact Hps | exact (Hfive eq_refl)].
Defined.

(** The table of 23 high, 49 medium and 8 low findings.  The exact
    percentages of the first two are 28.75 and 61.25, which lie halfway
    between two values of one decimal; the floats of line 224 are just
    below the first and just above the second, and so are shown as 28.7
    and 61.3. *)
Lemma risk_table_of_eighty_findings :
  risk_table [("critical", 0); ("high", 23); ("medium", 49); ("low", 8);
              ("informational", 0)]
  = Ok ("| Critical | 0 | 0.0% |" +++ nl
        +++ "| High | 23 | 28.7% |" +++ nl
        +++ "| Medium | 49 | 61.3% |" +++ nl
        +++ "| Low | 8 | 10.0% |" +++ nl
        +++ "| Informational | 0 | 0.0% |" +++ nl +++ nl).
Proof. vm_compute. reflexivity. Qed.

(** The percentage of the model is the one the standard library's
    specification of IEEE 754 arithmetic gives, for every total from 1 to
    64 and every count from 0 to one more than the total. *)
Lemma percentage_agrees_with_ieee :
  forallb (fun ct => agrees_with_ieee (fst ct) (snd ct)) (counts_up_to 64) = true.
Proof. vm_compute. reflexivity. Qed.

(** ** A missing reports directory *)

(** C9.  When the reports directory does not exist the run prints the
    scanning line and the diagnostic and returns: the analyzer, with its
    findings, summary and recommendations, and the file system are what
    they were, so no report was read, no recommendation made and no
    document written.  For a run of [main], whose analyzer is fresh, the
    three collections are empty. *)
Theorem missing_directory_stops_run (dir : string) (w : world) :
  has_key dir (disk w) = false ->
  let diagnostics :=
    [Printed ("🔍 Scanning for security reports in: " +++ dir);
     Printed ("❌ Reports directory not found: " +++ dir)] in
  (reports_dir (self w) = dir ->
   analyze_all_reports w = (with_output diagnostics w, Ok tt)) /\
  (let w' := fst (main dir w) in
   snd (main dir w) = Ok tt /\
   findings (self w') = [] /\
   recommendations (self w') = [] /\
   risk_summary (self w') = initial_risk_summary /\
   disk w' = disk w /\
   stdout w' = stdout w ++ diagnostics).
Proof.
  intro Hmissing. cbv zeta.
  assert (Hrun : forall w0, reports_dir (self w0) = dir -> disk w0 = disk w ->
                   analyze_all_reports w0
                   = (mkWorld (self w0)
                        ((stdout w0
                          ++ [Printed ("🔍 Scanning for security reports in: " +++ dir)])
                         ++ [Printed ("❌ Reports directory not found: " +++ dir)])
                        (disk w0) (set_order w0) (clock w0), Ok tt)).
  { intros w0 Hdir Hdisk. unfold analyze_all_reports.
    unfold bind at 1. unfold get_self at 1. rewrite Hdir.
    unfold bind at 1. unfold print at 1.
    unfold bind at 1. unfold path_exists at 1. cbn [disk].
    rewrite Hdisk, Hmissing. reflexivity. }
  split.
  - intro Hdir. rewrite (Hrun w Hdir eq_refl).
    unfold with_output. now rewrite <- app_assoc.
  - unfold main, bind. cbn [set_self].
    rewrite Hrun by reflexivity.
    cbn [fst snd self findings recommendations risk_summary init_analyzer disk stdout].
    repeat split. now rewrite <- app_assoc.
Qed.

Lemma missing_directory_witness :
  fst (main "security/reports" sample_world)
  = mkWorld (init_analyzer "security/reports")
      [Printed "🔍 Scanning for security reports in: security/reports";
       Printed "❌ Reports directory not found: security/reports"]
      (disk sample_world) first_seen_order "2024-05-01 12:00:00".
Proof.
  destruct (missing_directory_stops_run "security/reports" sample_world eq_refl)
    as (_ & _ & Hf & Hr & Hs & Hd & Ho).
  destruct (fst (main "security/reports" sample_world))
    as [[dir fs recs rs] out dsk ord clk] eqn:E.
  cbn [self findings recommendations risk_summary disk stdout] in Hf, Hr, Hs, Hd, Ho.
  subst fs recs rs dsk out.
  assert (Hrest : dir = "security/reports" /\ ord = first_seen_order
                  /\ clk = "2024-05-01 12:00:00").
  { vm_compute in E. inversion E. auto. }
  destruct Hrest as (-> & -> & ->). reflexivity.
Defined.

(** With the directory in place the same run reads both reports and
    writes the document. *)
Lemma existing_directory_writes_report :
  snd (main "reports" sample_world) = Ok tt /\
  List.length (findings (self (fst (main "reports" sample_world)))) = 5 /\
  has_key "reports/security-analysis-report.md" (disk sample_world) = false /\
  has_key "reports/security-analysis-report.md"
    (disk (fst (main "reports" sample_world))) = true.
Proof. vm_compute. repeat split. Qed.

(** ** The stable sort *)

Lemma key_leb_total (a b : nat * nat) : key_leb a b = false -> key_leb b a = true.
Proof.
  unfold key_leb. destruct a as [a1 a2], b as [b1 b2]; simpl.
  destruct (Nat.ltb_spec a1 b1), (Nat.eqb_spec a1 b1), (Nat.leb_spec a2 b2);
    simpl; try discriminate; intros _;
    destruct (Nat.ltb_spec b1 a1), (Nat.eqb_spec b1 a1), (Nat.leb_spec b2 a2);
    simpl; try reflexivity; lia.
Qed.

Lemma key_leb_trans (a b c : nat * nat) :
  key_leb a b = true -> key_leb b c = true -> key_leb a c = true.
Proof.
  unfold key_leb. destruct a as [a1 a2], b as [b1 b2], c as [c1 c2]; simpl.
  destruct (Nat.ltb_spec a1 b1), (Nat.eqb_spec a1 b1), (Nat.leb_spec a2 b2);
    simpl; try discriminate; intros _;
    destruct (Nat.ltb_spec b1 c1), (Nat.eqb_spec b1 c1), (Nat.leb_spec b2 c2);
    simpl; try discriminate; intros _;
    destruct (Nat.ltb_spec a1 c1), (Nat.eqb_spec a1 c1), (Nat.leb_spec a2 c2);
    simpl; try reflexivity; lia.
Qed.



Section StableSortFacts.

Variable A : Type.
Variable key : A -> nat * nat.

Abbreviation le_key := (fun a b : A => key_leb (key a) (key b) = true).

Lemma insert_by_key_perm (x : A) (l : list A) :
  Permutation (insert_by_key key x l) (x :: l).
Proof.
  induction l as [| y l IH]; simpl; [reflexivity |].
  destruct (key_leb (key x) (key y)); [reflexivity |].
  rewrite IH. apply perm_swap.
Qed.

Lemma sort_by_key_perm (l : list A) : Permutation (sort_by_key key l) l.
Proof.
  induction l as [| x l IH]; simpl; [reflexivity |].
  rewrite insert_by_key_perm. now constructor.
Qed.

Lemma insert_by_key_sorted (x : A) (l : list A) :
  StronglySorted le_key l -> StronglySorted le_key (insert_by_key key x l).
Proof.
  induction 1 as [| y l Hs IH Hy]; simpl.
  - repeat constructor.
  - destruct (key_leb (key x) (key y)) eqn:E.
    + constructor; [now constructor |].
      constructor; [exact E |].
      revert Hy. apply Forall_impl. intros z Hz.
      now apply key_leb_trans with (key y).
    + constructor; [exact IH |].
      rewrite (insert_by_key_perm x l). constructor; [| exact Hy].
      now apply key_leb_total.
Qed.

Lemma sort_by_key_sorted (l : list A) : StronglySorted le_key (sort_by_key key l).
Proof.
  induction l as [| x l IH]; simpl; [constructor |].
  now apply insert_by_key_sorted.
Qed.



Lemma sort_by_key_length (l : list A) :
  List.length (sort_by_key key l) = List.length l.
Proof. apply Permutation_length, sort_by_key_perm. Qed.

End StableSortFacts.

(** ** Grouping by name *)

Lemma hkey_eqb_eq (a b : Py.hkey) : Py.hkey_eqb a b = true <-> a = b.
Proof.
  destruct a, b; simpl; split; intro H; try discriminate; try reflexivity.
  - apply Z.eqb_eq in H. now subst.
  - inversion H. apply Z.eqb_refl.
  - apply String.eqb_eq in H. now subst.
  - inversion H. apply String.eqb_refl.
Qed.

Lemma hkey_eqb_refl (a : Py.hkey) : Py.hkey_eqb a a = true.
Proof. now apply hkey_eqb_eq. Qed.

Lemma hkey_eqb_neq (a b : Py.hkey) : Py.hkey_eqb a b = false <-> a <> b.
Proof.
  rewrite <- hkey_eqb_eq. destruct (Py.hkey_eqb a b); split; congruence.
Qed.

Lemma hkey_eqb_sym (a b : Py.hkey) : Py.hkey_eqb a b = Py.hkey_eqb b a.
Proof.
  destruct (Py.hkey_eqb a b) eqn:E.
  - apply hkey_eqb_eq in E; subst. symmetry; apply hkey_eqb_refl.
  - apply hkey_eqb_neq in E. symmetry. apply hkey_eqb_neq. congruence.
Qed.

Lemma existsb_hkey_In (k : Py.hkey) (l : list Py.hkey) :
  existsb (Py.hkey_eqb k) l = true <-> In k l.
Proof.
  rewrite existsb_exists. split.
  - intros (x & Hx & E). apply hkey_eqb_eq in E. now subst.
  - intro H. exists k. split; [exact H | apply hkey_eqb_refl].
Qed.

Lemma in_distinct (k : Py.hkey) (ks : list Py.hkey) : In k (distinct ks) <-> In k ks.
Proof.
  induction ks as [| k0 ks IH]; simpl; [tauto |].
  rewrite filter_In, IH, negb_true_iff, hkey_eqb_neq.
  destruct (hkey_eqb_eq k0 k) as [_ H].
  destruct (Py.hkey_eqb k0 k) eqn:E.
  - apply hkey_eqb_eq in E. tauto.
  - apply hkey_eqb_neq in E. tauto.
Qed.

Lemma NoDup_distinct (ks : list Py.hkey) : NoDup (distinct ks).
Proof.
  induction ks as [| k0 ks IH]; simpl; constructor.
  - rewrite filter_In, negb_true_iff, hkey_eqb_refl. intros [_ H]; discriminate.
  - now apply NoDup_filter.
Qed.

Lemma distinct_snoc (ks : list Py.hkey) (k : Py.hkey) :
  distinct (ks ++ [k])
  = if existsb (Py.hkey_eqb k) (distinct ks) then distinct ks
    else distinct ks ++ [k].
Proof.
  induction ks as [| k0 ks IH]; [reflexivity |].
  cbn [app distinct existsb]. rewrite IH.
  assert (Hmem : existsb (Py.hkey_eqb k)
                   (filter (fun k' => negb (Py.hkey_eqb k0 k')) (distinct ks))
                 = negb (Py.hkey_eqb k0 k) && existsb (Py.hkey_eqb k) (distinct ks)).
  { destruct (Py.hkey_eqb k0 k) eqn:E0; simpl.
    - apply hkey_eqb_eq in E0; subst k0.
      apply not_true_is_false. rewrite existsb_hkey_In, filter_In.
      rewrite hkey_eqb_refl. intros [_ H]; discriminate.
    - destruct (existsb (Py.hkey_eqb k) (distinct ks)) eqn:Em.
      + apply existsb_hkey_In. apply filter_In. split.
        * now apply existsb_hkey_In.
        * now rewrite E0.
      + apply not_true_is_false. rewrite existsb_hkey_In, filter_In.
        intros [H _]. apply existsb_hkey_In in H. congruence. }
  rewrite Hmem, (hkey_eqb_sym k k0).
  destruct (Py.hkey_eqb k0 k) eqn:E0; simpl.
  - destruct (existsb (Py.hkey_eqb k) (distinct ks)); [reflexivity |].
    rewrite filter_app. simpl. rewrite E0. simpl. now rewrite app_nil_r.
  - destruct (existsb (Py.hkey_eqb k) (distinct ks)); [reflexivity |].
    rewrite filter_app. simpl. now rewrite E0.
Qed.

Lemma keys_of_app (p q : list finding) : keys_of (p ++ q) = keys_of p ++ keys_of q.
Proof. unfold keys_of. apply flat_map_app. Qed.

Lemma members_app (k : Py.hkey) (p q : list finding) :
  members k (p ++ q) = members k p ++ members k q.
Proof. unfold members. apply filter_app. Qed.

Lemma members_other (k k' : Py.hkey) (f : finding) :
  name_key f = Some k -> k' <> k -> members k' [f] = [].
Proof.
  intros Hf Hne. unfold members, has_name_key; simpl. rewrite Hf.
  apply hkey_eqb_neq in Hne. now rewrite Hne.
Qed.

Lemma members_same (k : Py.hkey) (f : finding) :
  name_key f = Some k -> members k [f] = [f].
Proof.
  intro Hf. unfold members, has_name_key; simpl. now rewrite Hf, hkey_eqb_refl.
Qed.

Lemma members_not_key (k : Py.hkey) (p : list finding) :
  ~ In k (keys_of p) -> members k p = [].
Proof.
  unfold members, keys_of, has_name_key.
  induction p as [| f p IH]; simpl; [reflexivity |].
  intro H. rewrite in_app_iff in H.
  destruct (name_key f) as [k' |] eqn:E.
  - destruct (Py.hkey_eqb k k') eqn:Ek.
    + apply hkey_eqb_eq in Ek; subst. exfalso. apply H. left. now left.
    + apply IH. tauto.
  - apply IH. tauto.
Qed.

Lemma members_of_key (k : Py.hkey) (p : list finding) :
  In k (keys_of p) -> exists f ms, members k p = f :: ms.
Proof.
  unfold members, keys_of, has_name_key.
  induction p as [| f p IH]; simpl; [tauto |].
  rewrite in_app_iff. intro H.
  destruct (name_key f) as [k' |] eqn:E.
  - destruct (Py.hkey_eqb k k') eqn:Ek; [eauto |].
    apply IH. destruct H as [[H | []] | H]; [| exact H].
    subst. now rewrite hkey_eqb_refl in Ek.
  - apply IH. destruct H as [[] | H]. exact H.
Qed.

Lemma members_In (k : Py.hkey) (fs : list finding) (f : finding) :
  In f (members k fs) -> In f fs /\ name_key f = Some k.
Proof.
  unfold members. rewrite filter_In. unfold has_name_key.
  intros [Hin H]. split; [exact Hin |].
  destruct (name_key f) as [k' |]; [| discriminate].
  apply hkey_eqb_eq in H. now subst.
Qed.

Lemma group_of_other (p : list finding) (f : finding) (k k' : Py.hkey) :
  name_key f = Some k -> k' <> k -> group_of (p ++ [f]) k' = group_of p k'.
Proof.
  intros Hf Hne. unfold group_of.
  now rewrite members_app, (members_other k k' f Hf Hne), app_nil_r.
Qed.

Lemma map_group_of_others (p : list finding) (f : finding) (k : Py.hkey)
    (l : list Py.hkey) :
  name_key f = Some k -> ~ In k l ->
  map (group_of (p ++ [f])) l = map (group_of p) l.
Proof.
  intros Hf Hnot. apply map_ext_in. intros k' Hk'.
  apply (group_of_other p f k k' Hf). congruence.
Qed.

Lemma group_mem_grouped (k : Py.hkey) (fs : list finding) (l : list Py.hkey) :
  group_mem k (map (group_of fs) l) = existsb (Py.hkey_eqb k) l.
Proof.
  unfold group_mem. induction l as [| k' l IH]; simpl; [reflexivity |].
  now rewrite IH.
Qed.

Lemma group_append_absent (k : Py.hkey) (f : finding) (fs : list finding)
    (l : list Py.hkey) (tail : groups_t) :
  ~ In k l ->
  group_append k f (map (group_of fs) l ++ tail)
  = map (group_of fs) l ++ group_append k f tail.
Proof.
  induction l as [| k' l IH]; simpl; intro H; [reflexivity |].
  assert (E : Py.hkey_eqb k k' = false) by (apply hkey_eqb_neq; intuition congruence).
  rewrite E. f_equal. apply IH. tauto.
Qed.

Lemma group_append_present (k : Py.hkey) (f : finding) (p : list finding)
    (l : list Py.hkey) :
  name_key f = Some k -> NoDup l -> In k l ->
  (forall k', In k' l -> In k' (keys_of p)) ->
  group_append k f (map (group_of p) l) = map (group_of (p ++ [f])) l.
Proof.
  intros Hf Hnd. induction Hnd as [| k' l Hk' Hnd IH]; simpl; [tauto |].
  intros Hin Hkeys.
  destruct (Py.hkey_eqb k k') eqn:E.
  - apply hkey_eqb_eq in E; subst k'.
    rewrite (map_group_of_others p f k l Hf Hk'). f_equal.
    unfold group_of. rewrite members_app, (members_same k f Hf).
    destruct (members_of_key k p (Hkeys k (or_introl eq_refl))) as (m & ms & ->).
    reflexivity.
  - apply hkey_eqb_neq in E.
    rewrite (group_of_other p f k k' Hf) by congruence.
    f_equal. apply IH.
    + destruct Hin as [-> | Hin]; [congruence | exact Hin].
    + intros k0 H0. apply Hkeys. now right.
Qed.

Lemma group_finding_grouped (p : list finding) (f : finding) (k : Py.hkey) :
  name_key f = Some k ->
  group_finding (grouped p) f = Ok (grouped (p ++ [f])).
Proof.
  intro Hf. unfold group_finding. fold (name_key f). rewrite Hf. f_equal.
  unfold grouped at 1 2.
  rewrite group_mem_grouped.
  unfold grouped. rewrite keys_of_app.
  assert (Hkf : keys_of [f] = [k]) by (unfold keys_of; simpl; now rewrite Hf).
  rewrite Hkf, distinct_snoc.
  destruct (existsb (Py.hkey_eqb k) (distinct (keys_of p))) eqn:Em.
  - apply group_append_present.
    + exact Hf.
    + apply NoDup_distinct.
    + now apply existsb_hkey_In.
    + intros k' Hk'. now apply in_distinct.
  - assert (Hnot : ~ In k (distinct (keys_of p))).
    { rewrite <- existsb_hkey_In. congruence. }
    rewrite (group_append_absent k f p _ _ Hnot).
    rewrite map_app, (map_group_of_others p f k _ Hf Hnot). f_equal.
    simpl. rewrite hkey_eqb_refl. unfold group_of.
    rewrite members_app, (members_same k f Hf).
    rewrite members_not_key by (now rewrite <- in_distinct).
    reflexivity.
Qed.

Lemma group_findings_app (g : groups_t) (p q : list finding) :
  group_findings g (p ++ q)
  = match group_findings g p with
    | Ok g' => group_findings g' q
    | Raise => Raise
    end.
Proof.
  revert g. induction p as [| f p IH]; intro g; simpl; [reflexivity |].
  destruct (group_finding g f); [apply IH | reflexivity].
Qed.

(** The grouping loop computes [grouped], and raises exactly when some
    name is unhashable. *)
Lemma group_findings_grouped (fs : list finding) :
  group_findings [] fs
  = if forallb (fun f => Py.hashable (Finding.name f)) fs then Ok (grouped fs)
    else Raise.
Proof.
  induction fs as [| f p IH] using rev_ind; [reflexivity |].
  rewrite group_findings_app, IH, forallb_app.
  destruct (forallb (fun f0 => Py.hashable (Finding.name f0)) p); [| reflexivity].
  cbn [forallb andb group_findings]. unfold Py.hashable. fold (name_key f).
  destruct (name_key f) as [k |] eqn:Hf.
  - now rewrite (group_finding_grouped p f k Hf).
  - unfold group_finding. fold (name_key f). now rewrite Hf.
Qed.

(** ** The recommendation engine *)

Lemma recommend_groups_run (order : list pyval -> list pyval) (g : groups_t)
    (new : list recommendation) (w : world) :
  rmap (fun item => make_recommendation order (fst (snd item)) (snd (snd item))) g
  = Ok new ->
  for_each g (recommend_group order) w
  = (with_self (with_recommendations (recommendations (self w) ++ new) (self w)) w,
     Ok tt).
Proof.
  revert new w. induction g as [| item g IH]; intros new w H; simpl in H.
  - inversion H. simpl. unfold ret, with_self, with_recommendations.
    rewrite app_nil_r. now destruct w as [[dir fs recs rs] out dsk ord clk].
  - destruct (make_recommendation order (fst (snd item)) (snd (snd item)))
      as [r |] eqn:Hr; [| discriminate].
    destruct (rmap _ g) as [new' |] eqn:Hg; [| discriminate].
    inversion H; subst new; clear H.
    cbn [for_each]. unfold bind at 1. unfold recommend_group at 1. cbv zeta.
    rewrite bind_lift, Hr.
    unfold append_recommendation, bind, get_self, set_self. cbn [self].
    rewrite (IH new' _ eq_refl).
    unfold with_self, with_recommendations; simpl. now rewrite <- app_assoc.
Qed.

Lemma recommend_groups_raise (order : list pyval -> list pyval) (g : groups_t)
    (w : world) :
  rmap (fun item => make_recommendation order (fst (snd item)) (snd (snd item))) g
  = Raise ->
  snd (for_each g (recommend_group order) w) = Raise.
Proof.
  revert w. induction g as [| item g IH]; intros w H; simpl in H; [discriminate |].
  cbn [for_each]. unfold bind at 1. unfold recommend_group at 1. cbv zeta.
  rewrite bind_lift.
  destruct (make_recommendation order (fst (snd item)) (snd (snd item)))
    as [r |] eqn:Hr; [| reflexivity].
  destruct (rmap _ g) as [new' |] eqn:Hg; [discriminate |].
  unfold append_recommendation, bind, get_self, set_self. cbn [self].
  apply IH. reflexivity.
Qed.

(** One run of the engine: the entries of the groups are appended to the
    list the analyzer holds and the whole list is sorted. *)
Lemma generate_recommendations_ok (w : world) (new : list recommendation) :
  new_recommendations (set_order w) (findings (self w)) = Ok new ->
  generate_recommendations w
  = (with_self
       (with_recommendations
          (sort_by_key sort_key (recommendations (self w) ++ new)) (self w))
       (with_output [Printed "🔍 Generating security recommendations..."] w),
     Ok tt).
Proof.
  unfold new_recommendations. intro H.
  destruct (group_findings [] (findings (self w))) as [g |] eqn:Hg; [| discriminate].
  simpl in H.
  unfold generate_recommendations.
  unfold bind at 1. unfold print at 1.
  unfold bind at 1. unfold get_self at 1. cbn [self].
  rewrite bind_lift, Hg.
  unfold bind at 1. unfold get_set_order at 1. cbn [set_order].
  rewrite (bind_run _ _ _ _ _ (recommend_groups_run (set_order w) g new _ H)).
  reflexivity.
Qed.

Lemma generate_recommendations_raise (w : world) :
  new_recommendations (set_order w) (findings (self w)) = Raise ->
  snd (generate_recommendations w) = Raise.
Proof.
  unfold new_recommendations. intro H.
  unfold generate_recommendations.
  unfold bind at 1. unfold print at 1.
  unfold bind at 1. unfold get_self at 1. cbn [self].
  rewrite bind_lift.
  destruct (group_findings [] (findings (self w))) as [g |] eqn:Hg; [| reflexivity].
  simpl in H.
  unfold bind at 1. unfold get_set_order at 1. cbn [set_order].
  unfold bind at 1.
  match goal with
  | |- snd (let (w', r0) := for_each g _ ?w0 in _) = _ =>
      pose proof (recommend_groups_raise (set_order w) g w0 H) as Hr;
      destruct (for_each g (recommend_group (set_order w)) w0) as [w' [[] |]]
  end; [discriminate | reflexivity].
Qed.

Lemma generate_recommendations_returns (w : world) :
  snd (generate_recommendations w) = Ok tt ->
  exists new, new_recommendations (set_order w) (findings (self w)) = Ok new.
Proof.
  intro H.
  destruct (new_recommendations (set_order w) (findings (self w))) as [new |] eqn:E;
    [eauto |].
  rewrite (generate_recommendations_raise w E) in H. discriminate.
Qed.




Lemma priority_of_cases (risk : string) :
  (risk = "critical" \/ risk = "high" -> priority_of risk = "HIGH") /\
  (risk = "medium" -> priority_of risk = "MEDIUM") /\
  (risk <> "critical" -> risk <> "high" -> risk <> "medium" ->
   priority_of risk = "LOW").
Proof.
  repeat split.
  - intros [-> | ->]; reflexivity.
  - intros ->; reflexivity.
  - intros H1 H2 H3. unfold priority_of; simpl.
    apply String.eqb_neq in H1, H2, H3. now rewrite H1, H2, H3.
Qed.

Lemma make_recommendation_describes (order : list pyval -> list pyval)
    (fs : list finding) (k : Py.hkey) (r : recommendation) :
  make_recommendation order (fst (snd (group_of fs k))) (snd (snd (group_of fs k)))
  = Ok r ->
  describes_group fs r k.
Proof.
  unfold group_of; cbn [fst snd]. unfold make_recommendation.
  destruct (members k fs) as [| first rest] eqn:Hm; [discriminate |].
  intro H. bind_inv H. inversion H; subst r; clear H.
  assert (Hk : name_key first = Some k).
  { apply (members_In k fs first). rewrite Hm. now left. }
  exists first, rest. rewrite Hm. cbn.
  split; [reflexivity |]. split; [exact Hk |].
  do 5 (split; [reflexivity |]).
  apply priority_of_cases.
Qed.

Lemma rmap_map {A B C : Type} (g : B -> result C) (h : A -> B) (l : list A) :
  rmap g (map h l) = rmap (fun x => g (h x)) l.
Proof.
  induction l as [| x l IH]; simpl; [reflexivity |]. now rewrite IH.
Qed.


Lemma Forall2_flip_map {A B C : Type} (R : C -> A -> Prop) (g : B -> result C)
    (h : A -> B) (l : list A) (l' : list C) :
  (forall a c, g (h a) = Ok c -> R c a) ->
  rmap g (map h l) = Ok l' -> Forall2 R l' l.
Proof.
  intros HR. revert l'. induction l as [| a l IH]; simpl; intros l' H.
  - inversion H. constructor.
  - destruct (g (h a)) as [c |] eqn:E; [| discriminate].
    destruct (rmap g (map h l)) as [cs |]; [| discriminate].
    inversion H; subst. constructor; auto.
Qed.

Lemma new_recommendations_describe (order : list pyval -> list pyval)
    (fs : list finding) (new : list recommendation) :
  new_recommendations order fs = Ok new ->
  Forall2 (describes_group fs) new (distinct (keys_of fs)).
Proof.
  unfold new_recommendations. rewrite group_findings_grouped.
  destruct (forallb _ fs); [| discriminate]. simpl. unfold grouped.
  apply Forall2_flip_map. intros k r. apply make_recommendation_describes.
Qed.















(** ** Running the engine twice *)

Lemma distinct_nil (ks : list Py.hkey) : distinct ks = [] -> ks = [].
Proof. destruct ks; [reflexivity | discriminate]. Qed.

Lemma keys_of_nil (fs : list finding) :
  forallb (fun f => Py.hashable (Finding.name f)) fs = true ->
  keys_of fs = [] -> fs = [].
Proof.
  destruct fs as [| f fs]; [reflexivity |]. simpl.
  unfold Py.hashable. fold (name_key f).
  destruct (name_key f); simpl; discriminate.
Qed.

Lemma new_recommendations_nil (order : list pyval -> list pyval) (fs : list finding) :
  new_recommendations order fs = Ok [] -> fs = [].
Proof.
  intro H. pose proof (new_recommendations_describe order fs [] H) as Hd.
  apply Forall2_length_eq in Hd.
  destruct (distinct (keys_of fs)) eqn:Hnames; [| discriminate].
  apply distinct_nil in Hnames.
  unfold new_recommendations in H. rewrite group_findings_grouped in H.
  destruct (forallb (fun f => Py.hashable (Finding.name f)) fs) eqn:Hall;
    [| discriminate].
  now apply keys_of_nil.
Qed.

(** C1, as the code has it.  The engine appends to the recommendation
    list the analyzer holds and never empties it.  Two runs that each
    start from an empty list, on the same findings and in the same
    interpreter, produce the same list.  A second run on the same
    analyzer returns as the first did, leaves the findings as they were
    and appends every entry once more before sorting: the list is then a
    permutation of the first list taken twice, twice as long, and equal to
    the first list only when there is no finding. *)
Theorem second_run_appends_again (w : world) :
  recommendations (self w) = [] ->
  snd (generate_recommendations w) = Ok tt ->
  let w1 := fst (generate_recommendations w) in
  let w2 := fst (generate_recommendations w1) in
  let recs1 := recommendations (self w1) in
  let recs2 := recommendations (self w2) in
  (forall w' : world,
      findings (self w') = findings (self w) ->
      set_order w' = set_order w ->
      recommendations (self w') = [] ->
      snd (generate_recommendations w') = Ok tt /\
      recommendations (self (fst (generate_recommendations w'))) = recs1) /\
  snd (generate_recommendations w1) = Ok tt /\
  findings (self w1) = findings (self w) /\
  Permutation recs2 (recs1 ++ recs1) /\
  List.length recs2 = 2 * List.length recs1 /\
  (recs2 = recs1 <-> findings (self w) = []).
Proof.
  intros Hempty Hret. cbv zeta.
  destruct (generate_recommendations_returns w Hret) as [new Hnew].
  rewrite (generate_recommendations_ok w new Hnew).
  cbn [fst]. rewrite Hempty. cbn [app].
  set (w1 := with_self
               (with_recommendations (sort_by_key sort_key new) (self w))
               (with_output [Printed "🔍 Generating security recommendations..."] w)).
  assert (Hnew1 : new_recommendations (set_order w1) (findings (self w1)) = Ok new)
    by exact Hnew.
  rewrite (generate_recommendations_ok w1 new Hnew1).
  cbn [fst snd self with_self with_recommendations recommendations findings w1].
  pose proof (sort_by_key_perm _ sort_key new) as Hp1.
  pose proof (sort_by_key_perm _ sort_key (sort_by_key sort_key new ++ new)) as Hp2.
  assert (Hlen : List.length (sort_by_key sort_key (sort_by_key sort_key new ++ new))
                 = 2 * List.length (sort_by_key sort_key new)).
  { rewrite (Permutation_length Hp2), length_app, (Permutation_length Hp1). lia. }
  split; [| split; [reflexivity | split; [reflexivity | split; [| split; [exact Hlen |]]]]].
  - intros w' Hfs Hord Hrecs.
    assert (Hnew' : new_recommendations (set_order w') (findings (self w')) = Ok new)
      by (now rewrite Hfs, Hord).
    rewrite (generate_recommendations_ok w' new Hnew').
    cbn [fst snd self with_self with_recommendations recommendations].
    rewrite Hrecs. split; reflexivity.
  - rewrite Hp2. apply Permutation_app_head. now symmetry.
  - split.
    + intro Heq. rewrite Heq in Hlen.
      assert (Hzero : List.length new = 0)
        by (rewrite (Permutation_length Hp1) in Hlen; lia).
      destruct new; [| discriminate].
      now apply (new_recommendations_nil (set_order w)).
    + intro Hfs. rewrite Hfs in Hnew. inversion Hnew. reflexivity.
Qed.

Lemma second_run_appends_again_witness :
  List.length
    (recommendations
       (self (fst (generate_recommendations
                     (fst (generate_recommendations sample_loaded_world)))))) = 6.
Proof.
  destruct (second_run_appends_again sample_loaded_world eq_refl eq_refl)
    as (_ & _ & _ & _ & Hlen & _).
  rewrite Hlen. reflexivity.
Defined.

(** A second run on the same analyzer and the same findings leaves a
    list other than the first run's. *)
Lemma second_run_differs :
  recommendations
    (self (fst (generate_recommendations
                  (fst (generate_recommendations sample_loaded_world)))))
  <> recommendations (self (fst (generate_recommendations sample_loaded_world))).
Proof.
  intro H. apply (f_equal (@List.length recommendation)) in H.
  vm_compute in H. discriminate H.
Qed.

(** * Further properties of the script *)

(** ** Reports that fail *)

Lemma try_except_print_error_returns (body : M unit) (p : string) (w : world) :
  snd (try_except body (print_error p) w) = Ok tt.
Proof.
  unfold try_except. destruct (body w) as [w' [[] |]]; reflexivity.
Qed.

(** X1.  Neither report method lets an exception escape: whatever the
    file holds and whatever state the analyzer is in, the call returns,
    so one bad report never ends the scan of the directory. *)
Theorem report_methods_never_raise (file : string) (w : world) :
  snd (analyze_zap_json_report file w) = Ok tt /\
  snd (analyze_zap_xml_report file w) = Ok tt.
Proof.
  split; apply try_except_print_error_returns.
Qed.

(** X2.  A file that cannot be loaded as JSON (it is missing, a
    directory, or holds something else) costs the JSON method one error
    line and nothing more: analyzer and file system stay as they were,
    and not even the "Analyzing" line is printed.  The same holds for
    the XML method and a file that does not parse as XML. *)
Theorem unreadable_report_only_logs (file : string) (w : world) :
  ((forall data, Py.lookup file (disk w) <> Some (File (Json data))) ->
   analyze_zap_json_report file w
   = (with_output [Printed_error "❌ Error analyzing ZAP JSON report: "] w, Ok tt)) /\
  ((forall root, Py.lookup file (disk w) <> Some (File (Xml root))) ->
   analyze_zap_xml_report file w
   = (with_output [Printed_error "❌ Error analyzing ZAP XML report: "] w, Ok tt)).
Proof.
  split; intro H.
  - unfold analyze_zap_json_report, try_except, bind, json_load.
    destruct (Py.lookup file (disk w)) as [[[data | root | s] | names] |] eqn:E;
      try reflexivity.
    exfalso. now apply (H data).
  - unfold analyze_zap_xml_report, try_except, bind, et_parse.
    destruct (Py.lookup file (disk w)) as [[[data | root | s] | names] |] eqn:E;
      try reflexivity.
    exfalso. now apply (H root).
Qed.

Lemma unreadable_report_witness :
  analyze_zap_json_report "reports/ZAP-full.xml" sample_world
  = (with_output [Printed_error "❌ Error analyzing ZAP JSON report: "] sample_world,
     Ok tt) /\
  analyze_zap_xml_report "reports/missing.xml" sample_world
  = (with_output [Printed_error "❌ Error analyzing ZAP XML report: "] sample_world,
     Ok tt).
Proof.
  destruct (unreadable_report_only_logs "reports/ZAP-full.xml" sample_world) as [HJ _].
  destruct (unreadable_report_only_logs "reports/missing.xml" sample_world) as [_ HX].
  split; [apply HJ | apply HX]; intros x E; vm_compute in E; discriminate E.
Defined.

(** X3.  A JSON object without a [site] key, or whose [site] is an empty
    array, is reported as holding no alerts: two lines are printed, no
    finding is added and the summary is not touched. *)
Theorem json_report_without_site (file : string) (d : list (string * pyval))
    (w : world) :
  Py.lookup file (disk w) = Some (File (Json (PDict d))) ->
  Py.lookup "site" d = None \/ Py.lookup "site" d = Some (PList []) ->
  analyze_zap_json_report file w
  = (with_output
       [Printed ("📊 Analyzing ZAP JSON report: " +++ file);
        Printed "   No alerts found in ZAP report"] w,
     Ok tt).
Proof.
  intros Hfile Hsite.
  unfold analyze_zap_json_report, try_except.
  unfold bind at 1. unfold json_load at 1. rewrite Hfile.
  unfold bind at 1. unfold print at 1.
  rewrite bind_lift.
  assert (Hs : has_site (PDict d) = Ok false).
  { unfold has_site, py_in, has_key, py_item, subscript.
    destruct Hsite as [-> | ->]; reflexivity. }
  rewrite Hs. unfold print, with_output; simpl. now rewrite <- app_assoc.
Qed.

Lemma json_report_without_site_witness :
  self (fst (analyze_zap_json_report "r/zap.json"
               (world_with_json (PDict [("site", PList [])]))))
  = init_analyzer "r".
Proof.
  rewrite (json_report_without_site "r/zap.json" [("site", PList [])]
             (world_with_json (PDict [("site", PList [])])) eq_refl
             (or_intror eq_refl)).
  reflexivity.
Defined.

Lemma ingest_json_alerts_stop (good : list pyval) (bad : pyval) (rest : list pyval)
    (w : world) :
  forallb valid_json_alert good = true ->
  _parse_zap_alert bad = Raise ->
  exists new,
    for_each (good ++ bad :: rest) ingest_json_alert w
    = (with_self (ingest new (self w)) w, Raise) /\
    rmap _parse_zap_alert good = Ok new.
Proof.
  intros Hgood Hbad.
  destruct (valid_json_alerts_parse good Hgood) as (new & Hparse & _).
  exists new. split; [| exact Hparse].
  clear Hgood. revert new Hparse w.
  induction good as [| alert good IH]; intros new Hparse w.
  - inversion Hparse. simpl. unfold bind at 1. unfold ingest_json_alert at 1.
    unfold bind at 1, lift at 1. rewrite Hbad. now rewrite with_self_ingest_nil.
  - simpl in Hparse.
    destruct (_parse_zap_alert alert) as [f |] eqn:Hf; [| discriminate].
    destruct (rmap _parse_zap_alert good) as [new' |]; [| discriminate].
    inversion Hparse; subst new; clear Hparse.
    cbn [app for_each]. unfold bind at 1. unfold ingest_json_alert at 1.
    unfold bind at 1, lift at 1. rewrite Hf.
    rewrite ingest_one_step, (IH new' eq_refl).
    unfold with_self; simpl. now rewrite ingest_cons.
Qed.

(** X4.  When an alert of a JSON report cannot be parsed, the report
    ends there with an error line, but the findings of the alerts before
    it have already been appended and classified and they stay: the
    report does not contribute all or nothing. *)
Theorem malformed_alert_keeps_earlier_findings (file : string) (data : pyval)
    (good : list pyval) (bad : pyval) (rest : list pyval) (w : world) :
  Py.lookup file (disk w) = Some (File (Json data)) ->
  json_alerts data = Some (good ++ bad :: rest) ->
  forallb valid_json_alert good = true ->
  _parse_zap_alert bad = Raise ->
  exists new,
    rmap _parse_zap_alert good = Ok new /\
    List.length new = List.length good /\
    analyze_zap_json_report file w
    = (with_output [Printed_error "❌ Error analyzing ZAP JSON report: "]
         (with_self (ingest new (self w))
            (with_output [Printed ("📊 Analyzing ZAP JSON report: " +++ file)] w)),
       Ok tt).
Proof.
  intros Hfile Hdata Hgood Hbad.
  destruct (json_alerts_shape data _ Hdata) as (d & site0 & others & -> & Hsite & Halerts).
  set (w1 := with_output [Printed ("📊 Analyzing ZAP JSON report: " +++ file)] w).
  destruct (ingest_json_alerts_stop good bad rest w1 Hgood Hbad) as (new & Hrun & Hnew).
  exists new. split; [exact Hnew |]. split; [apply (rmap_length _ _ _ Hnew) |].
  unfold analyze_zap_json_report, try_except.
  unfold bind at 1. unfold json_load at 1. rewrite Hfile.
  unfold bind at 1. unfold print at 1.
  change (mkWorld (self w)
            (stdout w ++ [Printed ("📊 Analyzing ZAP JSON report: " +++ file)])
            (disk w) (set_order w) (clock w)) with w1.
  rewrite bind_lift, (has_site_first_object d site0 others Hsite).
  rewrite bind_lift. unfold py_item, subscript. rewrite Hsite.
  rewrite bind_lift. cbn [py_item0].
  rewrite bind_lift. cbn [Py.obj_get]. rewrite Halerts.
  rewrite bind_lift. cbn [Py.iter].
  unfold bind at 1. rewrite Hrun. reflexivity.
Qed.

Lemma malformed_alert_witness :
  List.length
    (findings
       (self (fst (analyze_zap_json_report "r/zap.json"
                     (world_with_json sample_json_report_malformed))))) = 1.
Proof.
  destruct (malformed_alert_keeps_earlier_findings "r/zap.json"
              sample_json_report_malformed
              [sample_json_alert_high] (PDict [("riskdesc", PInt 3)])
              [sample_json_alert_low] (world_with_json sample_json_report_malformed)
              eq_refl eq_refl eq_refl eq_refl)
    as (new & _ & Hlen & Hrun).
  rewrite Hrun.
  cbn [fst self with_output with_self ingest findings init_analyzer app
         world_with_json].
  exact Hlen.
Defined.

(** ** What a recommendation holds *)

Lemma len_append (s t : string) :
  PyStr.len (s +++ t) = PyStr.len s + PyStr.len t.
Proof.
  induction s as [| c s IH]; simpl; [reflexivity |]. rewrite IH. lia.
Qed.

Lemma len_take (n : nat) (s : string) :
  PyStr.len (PyStr.take n s) = Nat.min n (PyStr.len s).
Proof.
  revert n. induction s as [| c s IH]; intro n; simpl.
  - now rewrite Nat.min_0_r.
  - destruct (PyStr.is_continuation c) eqn:E; simpl.
    + now rewrite E, IH.
    + destruct n as [| n]; simpl; [reflexivity |]. now rewrite E, IH.
Qed.

(** [s[:n]] is the head of [s], and what it leaves begins a character. *)
Lemma take_splits (n : nat) (s : string) :
  exists tail,
    s = PyStr.take n s +++ tail /\ PyStr.continuation tail = EmptyString.
Proof.
  revert n. induction s as [| c s IH]; intro n; simpl.
  - exists EmptyString. now split.
  - destruct (PyStr.is_continuation c) eqn:E.
    + destruct (IH n) as (tail & Hs & Ht). exists tail. simpl. now rewrite <- Hs.
    + destruct n as [| n].
      * exists (String c s). simpl. now rewrite E.
      * destruct (IH n) as (tail & Hs & Ht). exists tail. simpl. now rewrite <- Hs.
Qed.

Lemma truncate_description_string (s : string) :
  truncate_description (PStr s)
  = Ok (PStr (if 200 <? PyStr.len s then PyStr.take 200 s +++ "..." else s)).
Proof.
  unfold truncate_description; simpl. now destruct (200 <? PyStr.len s).
Qed.

Lemma make_recommendation_description (order : list pyval -> list pyval)
    (finding_type : pyval) (first : finding) (rest : list finding) (s : string)
    (r : recommendation) :
  Finding.description first = PStr s ->
  make_recommendation order finding_type (first :: rest) = Ok r ->
  Recommendation.description r
  = PStr (if 200 <? PyStr.len s then PyStr.take 200 s +++ "..." else s).
Proof.
  intros Hs H. unfold make_recommendation in H. rewrite Hs in H.
  rewrite truncate_description_string in H. cbn [rbind] in H.
  destruct (affected_urls_of order (first :: rest)); [| discriminate H].
  cbn [rbind] in H. injection H as <-. reflexivity.
Qed.

(** X5.  The description of a recommendation is the description of the
    group's first finding when that has at most 200 characters; otherwise
    it is the first 200 characters of it, whatever the number of bytes
    that encode them, followed by three dots.  It never has more than 203
    characters. *)
Theorem recommendation_description_bounded (order : list pyval -> list pyval)
    (finding_type : pyval) (first : finding) (rest : list finding) (s : string)
    (r : recommendation) :
  Finding.description first = PStr s ->
  make_recommendation order finding_type (first :: rest) = Ok r ->
  exists t,
    Recommendation.description r = PStr t /\
    PyStr.len t <= 203 /\
    (PyStr.len s <= 200 -> t = s) /\
    (200 < PyStr.len s ->
     exists head tail,
       s = head +++ tail /\
       PyStr.len head = 200 /\
       PyStr.continuation tail = EmptyString /\
       t = head +++ "..." /\
       PyStr.len t = 203).
Proof.
  intros Hs H.
  rewrite (make_recommendation_description order finding_type first rest s r Hs H).
  assert (Hlen : PyStr.len (PyStr.take 200 s +++ "...")
                 = Nat.min 200 (PyStr.len s) + 3).
  { rewrite len_append, len_take. reflexivity. }
  destruct (Nat.ltb_spec 200 (PyStr.len s)) as [Hlong | Hshort];
    eexists; (split; [reflexivity |]).
  - rewrite Hlen. split; [lia |]. split; [intro; lia |].
    intros _. destruct (take_splits 200 s) as (tail & Hsplit & Htail).
    exists (PyStr.take 200 s), tail.
    split; [exact Hsplit |]. split; [rewrite len_take; lia |].
    split; [exact Htail |]. split; [reflexivity | lia].
  - split; [lia |]. split; [reflexivity |]. intro; lia.
Qed.

Lemma recommendation_description_witness :
  (exists r t,
      make_recommendation first_seen_order (PStr "Missing Header")
        [sample_finding_described sample_long_description] = Ok r /\
      Recommendation.description r = PStr t /\
      PyStr.len t = 203 /\ String.length t = 603) /\
  (exists r,
      make_recommendation first_seen_order (PStr "Missing Header")
        [sample_finding_described sample_short_description] = Ok r /\
      Recommendation.description r = PStr sample_short_description /\
      String.length sample_short_description = 201).
Proof.
  split.
  - destruct (make_recommendation first_seen_order (PStr "Missing Header")
                [sample_finding_described sample_long_description]) as [r |] eqn:Hr;
      [| vm_compute in Hr; discriminate Hr].
    destruct (recommendation_description_bounded first_seen_order
                (PStr "Missing Header")
                (sample_finding_described sample_long_description) []
                sample_long_description r eq_refl Hr)
      as (t & Ht & _ & _ & Hlong).
    destruct (Hlong ltac:(vm_compute; lia)) as (head & tail & _ & _ & _ & _ & Hlen).
    exists r, t. split; [reflexivity |]. split; [exact Ht |]. split; [exact Hlen |].
    vm_compute in Hr. injection Hr as <-. cbn in Ht. injection Ht as <-.
    vm_compute. reflexivity.
  - destruct (make_recommendation first_seen_order (PStr "Missing Header")
                [sample_finding_described sample_short_description]) as [r |] eqn:Hr;
      [| vm_compute in Hr; discriminate Hr].
    destruct (recommendation_description_bounded first_seen_order
                (PStr "Missing Header")
                (sample_finding_described sample_short_description) []
                sample_short_description r eq_refl Hr)
      as (t & Ht & _ & Hshort & _).
    rewrite (Hshort ltac:(vm_compute; lia)) in Ht.
    exists r. split; [reflexivity |]. split; [exact Ht |]. vm_compute. reflexivity.
Defined.

Lemma value_keys_hashable (l : list pyval) :
  forallb Py.hashable l = true -> map Py.key_of l = map Some (value_keys l).
Proof.
  induction l as [| x l IH]; [reflexivity |]. cbn [forallb map value_keys flat_map].
  intro H. apply andb_prop in H as [Hx Hl]. unfold Py.hashable in Hx.
  fold (value_keys l). destruct (Py.key_of x); [| discriminate].
  cbn [app map]. now rewrite (IH Hl).
Qed.

Lemma NoDup_map_Some_inv {A : Type} (l : list A) : NoDup (map Some l) -> NoDup l.
Proof.
  induction l as [| x l IH]; simpl; intro H; [constructor |].
  inversion H as [| ? ? Hx Hl]; subst. constructor; [| now apply IH].
  intro Hin. apply Hx. now apply in_map.
Qed.

Lemma listing_length (l all : list pyval) :
  forallb Py.hashable all = true ->
  lists_the_set l all ->
  List.length l = List.length (distinct (value_keys all)).
Proof.
  intros Hall (Hnodup & Hsub & Hsup).
  assert (Hl : forallb Py.hashable l = true).
  { apply forallb_forall. intros x Hx.
    apply (proj1 (forallb_forall _ _) Hall x (Hsub x Hx)). }
  rewrite (value_keys_hashable l Hl) in Hnodup, Hsup.
  apply NoDup_map_Some_inv in Hnodup.
  rewrite <- (length_map Py.key_of l), (value_keys_hashable l Hl), length_map.
  apply Permutation_length, NoDup_Permutation;
    [exact Hnodup | apply NoDup_distinct |].
  intro k. rewrite in_distinct. split; intro Hk.
  - assert (Hin : In (Some k) (map Py.key_of l)).
    { rewrite (value_keys_hashable l Hl). now apply in_map. }
    apply in_map_iff in Hin as (x & Hx & Hxin).
    unfold value_keys. apply in_flat_map. exists x.
    split; [now apply Hsub |]. rewrite Hx. now left.
  - unfold value_keys in Hk. apply in_flat_map in Hk as (x & Hx & Hkx).
    specialize (Hsup x Hx).
    destruct (Py.key_of x) as [k' |]; [| contradiction].
    destruct Hkx as [-> | []].
    apply in_map_iff in Hsup as (k'' & E & Hin). now inversion E; subst.
Qed.

Lemma in_firstn {A : Type} (n : nat) (l : list A) (x : A) :
  In x (firstn n l) -> In x l.
Proof.
  intro H. rewrite <- (firstn_skipn n l). apply in_or_app. now left.
Qed.

Lemma NoDup_firstn {A : Type} (n : nat) (l : list A) : NoDup l -> NoDup (firstn n l).
Proof.
  intro H. revert n. induction H as [| x l Hx Hl IH]; intro n.
  - rewrite firstn_nil. constructor.
  - destruct n as [| n]; simpl; constructor; [| apply IH].
    intro Hin. apply Hx. now apply in_firstn with n.
Qed.

(** X6.  The urls of a recommendation are the first five of the set of
    the urls of the findings of its group, in the order in which the
    interpreter lists that set: five urls when the findings carry five
    distinct urls or more, all of them otherwise; no url twice; each of
    them the url of one of the findings. *)
Theorem recommendation_urls_capped (order : list pyval -> list pyval)
    (finding_type : pyval) (members : list finding) (r : recommendation) :
  let all := flat_map Finding.urls members in
  lists_the_set (order all) all ->
  make_recommendation order finding_type members = Ok r ->
  let urls := Recommendation.affected_urls r in
  List.length urls = Nat.min 5 (List.length (distinct (value_keys all))) /\
  List.length urls <= 5 /\
  NoDup (map Py.key_of urls) /\
  (forall url, In url urls ->
               exists f, In f members /\ In url (Finding.urls f)).
Proof.
  cbv zeta. intros Hset H.
  unfold make_recommendation in H. destruct members as [| first rest]; [discriminate |].
  bind_inv H. inversion H; subst r; clear H.
  cbn [Recommendation.affected_urls].
  unfold affected_urls_of in E0.
  destruct (forallb Py.hashable _) eqn:Hall; [| discriminate].
  assert (Hx : x0 = firstn 5 (order (flat_map Finding.urls (first :: rest))))
    by congruence.
  rewrite Hx. clear Hx E0.
  set (all := flat_map Finding.urls (first :: rest)) in *.
  split; [| split; [| split]].
  - rewrite length_firstn. now rewrite (listing_length _ _ Hall Hset).
  - rewrite length_firstn. lia.
  - destruct Hset as (Hnodup & _). rewrite <- firstn_map. now apply NoDup_firstn.
  - intros url Hurl. apply in_firstn in Hurl.
    destruct Hset as (_ & Hsub & _). apply Hsub in Hurl.
    unfold all in Hurl. apply in_flat_map in Hurl. exact Hurl.
Qed.

Lemma recommendation_urls_capped_witness :
  exists r,
    make_recommendation first_seen_order (PStr "Cross Site Scripting")
      sample_findings_many_urls = Ok r /\
    List.length (flat_map Finding.urls sample_findings_many_urls) = 7 /\
    List.length (Recommendation.affected_urls r) = 5.
Proof.
  destruct (make_recommendation first_seen_order (PStr "Cross Site Scripting")
              sample_findings_many_urls) as [r |] eqn:Hr;
    [| vm_compute in Hr; discriminate Hr].
  exists r. split; [reflexivity |]. split; [reflexivity |].
  assert (Hset : lists_the_set
                   (first_seen_order (flat_map Finding.urls sample_findings_many_urls))
                   (flat_map Finding.urls sample_findings_many_urls)).
  { vm_compute. split; [| split].
    - repeat constructor; simpl; intuition discriminate.
    - intros x Hx. intuition auto.
    - intros x Hx. intuition (subst; auto 10). }
  destruct (recommendation_urls_capped first_seen_order (PStr "Cross Site Scripting")
              sample_findings_many_urls r Hset Hr) as (Hlen & _).
  rewrite Hlen. reflexivity.
Defined.

(** ** Order of the recommendation list *)

Lemma high_priority_key (r : recommendation) :
  is_high_priority r = true <-> fst (sort_key r) = 0.
Proof.
  destruct r as [p ft n risk d sol urls cwe].
  unfold is_high_priority, sort_key, Py.get, priority_order.
  cbn [fst Py.lookup Recommendation.priority].
  destruct (p =? "HIGH")%string; [tauto |].
  split; [discriminate |].
  destruct (p =? "MEDIUM")%string; [discriminate |].
  destruct (p =? "LOW")%string; discriminate.
Qed.

Lemma key_leb_fst (a b : nat * nat) : key_leb a b = true -> fst a <= fst b.
Proof.
  unfold key_leb.
  destruct (Nat.ltb_spec (fst a) (fst b)), (Nat.eqb_spec (fst a) (fst b));
    simpl; intro; try discriminate; lia.
Qed.

Lemma sorted_high_first (recs : list recommendation) :
  sorted_by_key recs ->
  recs = filter is_high_priority recs
         ++ filter (fun r => negb (is_high_priority r)) recs.
Proof.
  unfold sorted_by_key. induction 1 as [| x l Hs IH Hx]; [reflexivity |].
  cbn [filter]. destruct (is_high_priority x) eqn:Ex; simpl.
  - now rewrite <- IH.
  - assert (Hnone : Forall (fun y => is_high_priority y = false) l).
    { revert Hx. apply Forall_impl. intros y Hy.
      apply key_leb_fst in Hy.
      destruct (is_high_priority y) eqn:Ey; [| reflexivity].
      apply high_priority_key in Ey.
      assert (Hx0 : fst (sort_key x) = 0) by lia.
      apply high_priority_key in Hx0. congruence. }
    assert (Hh : filter is_high_priority l = []).
    { clear -Hnone. induction Hnone as [| y l Hy _ IHn]; simpl; [reflexivity |].
      now rewrite Hy. }
    assert (Hl : filter (fun r => negb (is_high_priority r)) l = l).
    { clear -Hnone. induction Hnone as [| y l Hy _ IHn]; simpl; [reflexivity |].
      rewrite Hy. simpl. now rewrite IHn. }
    now rewrite Hh, Hl.
Qed.

(** X7.  After every run of the engine that returns, whatever the list
    held before, the HIGH-priority recommendations stand at the front of
    the list in one block: the list is its HIGH entries followed by its
    other entries.  The renderer, which shows the first ten HIGH entries,
    therefore shows the first ten entries of the list whenever ten are
    HIGH. *)
Theorem high_priority_recommendations_first (w : world) :
  snd (generate_recommendations w) = Ok tt ->
  let recs := recommendations (self (fst (generate_recommendations w))) in
  recs = filter is_high_priority recs
         ++ filter (fun r => negb (is_high_priority r)) recs.
Proof.
  intro Hret. cbv zeta.
  destruct (generate_recommendations_returns w Hret) as [new Hnew].
  rewrite (generate_recommendations_ok w new Hnew).
  cbn [fst self with_self with_recommendations recommendations].
  apply sorted_high_first. apply sort_by_key_sorted.
Qed.

Lemma high_priority_first_witness :
  map Recommendation.priority
    (recommendations (self (fst (generate_recommendations sample_loaded_world))))
  = ["HIGH"; "HIGH"; "LOW"].
Proof.
  pose proof (high_priority_recommendations_first sample_loaded_world eq_refl) as H.
  cbv zeta in H. rewrite H. reflexivity.
Defined.

(** ** Every finding is counted once *)

Lemma list_sum_perm (l l' : list nat) : Permutation l l' -> list_sum l = list_sum l'.
Proof. induction 1; simpl; lia. Qed.

Lemma list_sum_cons (x : nat) (l : list nat) : list_sum (x :: l) = x + list_sum l.
Proof. reflexivity. Qed.

Lemma sum_split_key (g : Py.hkey -> nat) (k0 : Py.hkey) (D : list Py.hkey) :
  NoDup D ->
  list_sum (map g D)
  = (if existsb (Py.hkey_eqb k0) D then g k0 else 0)
    + list_sum (map g (filter (fun k => negb (Py.hkey_eqb k0 k)) D)).
Proof.
  induction 1 as [| k D Hk Hnd IH]; [reflexivity |].
  cbn [map existsb filter]. rewrite list_sum_cons, IH.
  destruct (Py.hkey_eqb k0 k) eqn:E; cbn [negb orb map]; rewrite ?list_sum_cons.
  - apply hkey_eqb_eq in E; subst k.
    assert (Hno : existsb (Py.hkey_eqb k0) D = false).
    { apply not_true_is_false. now rewrite existsb_hkey_In. }
    rewrite Hno. lia.
  - lia.
Qed.

Lemma members_cons_same (k : Py.hkey) (f : finding) (fs : list finding) :
  name_key f = Some k -> members k (f :: fs) = f :: members k fs.
Proof.
  intro H. unfold members, has_name_key; simpl. now rewrite H, hkey_eqb_refl.
Qed.

Lemma members_cons_other (k k' : Py.hkey) (f : finding) (fs : list finding) :
  name_key f = Some k -> Py.hkey_eqb k k' = false ->
  members k' (f :: fs) = members k' fs.
Proof.
  intros H E. unfold members, has_name_key; simpl.
  now rewrite H, hkey_eqb_sym, E.
Qed.

Lemma members_partition (fs : list finding) :
  forallb (fun f => Py.hashable (Finding.name f)) fs = true ->
  list_sum (map (fun k => List.length (members k fs)) (distinct (keys_of fs)))
  = List.length fs.
Proof.
  induction fs as [| f fs IH]; [reflexivity |].
  cbn [forallb]. intro H. apply andb_prop in H as [Hf Hfs].
  unfold Py.hashable in Hf. fold (name_key f) in Hf.
  destruct (name_key f) as [k0 |] eqn:Hk; [| discriminate].
  assert (Hkeys : keys_of (f :: fs) = k0 :: keys_of fs).
  { unfold keys_of; simpl. now rewrite Hk. }
  rewrite Hkeys. cbn [distinct map List.length]. rewrite list_sum_cons.
  rewrite (members_cons_same k0 f fs Hk). cbn [List.length].
  rewrite (map_ext_in
             (fun k => List.length (members k (f :: fs)))
             (fun k => List.length (members k fs))).
  - specialize (IH Hfs).
    rewrite (sum_split_key (fun k => List.length (members k fs)) k0) in IH
      by apply NoDup_distinct.
    destruct (existsb (Py.hkey_eqb k0) (distinct (keys_of fs))) eqn:Em.
    + lia.
    + assert (Hnone : members k0 fs = []).
      { apply members_not_key. rewrite <- in_distinct, <- existsb_hkey_In. congruence. }
      rewrite Hnone. simpl. lia.
  - intros k Hin. apply filter_In in Hin as [_ Hne].
    apply negb_true_iff in Hne.
    now rewrite (members_cons_other k0 k f fs Hk Hne).
Qed.

Lemma describes_group_counts (fs : list finding) (recs : list recommendation)
    (names : list Py.hkey) :
  Forall2 (describes_group fs) recs names ->
  map Recommendation.count recs = map (fun k => List.length (members k fs)) names.
Proof.
  induction 1 as [| r k recs names (first & rest & _ & _ & _ & Hc & _) _ IH];
    simpl; [reflexivity |].
  now rewrite Hc, IH.
Qed.

Lemma new_recommendations_hashable (order : list pyval -> list pyval)
    (fs : list finding) (new : list recommendation) :
  new_recommendations order fs = Ok new ->
  forallb (fun f => Py.hashable (Finding.name f)) fs = true.
Proof.
  unfold new_recommendations. rewrite group_findings_grouped.
  destruct (forallb _ fs); [reflexivity | discriminate].
Qed.

(** X8.  After one run of the engine on an analyzer without
    recommendations, the counts of the recommendations add up to the
    number of findings: every finding is counted by exactly one
    recommendation. *)
Theorem recommendation_counts_cover_findings (w : world) :
  recommendations (self w) = [] ->
  snd (generate_recommendations w) = Ok tt ->
  list_sum
    (map Recommendation.count
       (recommendations (self (fst (generate_recommendations w)))))
  = List.length (findings (self w)).
Proof.
  intros Hempty Hret.
  destruct (generate_recommendations_returns w Hret) as [new Hnew].
  rewrite (generate_recommendations_ok w new Hnew).
  cbn [fst self with_self with_recommendations recommendations].
  rewrite Hempty. cbn [app].
  rewrite (list_sum_perm _ (map Recommendation.count new))
    by (apply Permutation_map, sort_by_key_perm).
  rewrite (describes_group_counts _ _ _ (new_recommendations_describe _ _ _ Hnew)).
  apply members_partition.
  exact (new_recommendations_hashable _ _ _ Hnew).
Qed.

Lemma recommendation_counts_witness :
  list_sum
    (map Recommendation.count
       (recommendations (self (fst (generate_recommendations sample_loaded_world)))))
  = 4.
Proof.
  exact (recommendation_counts_cover_findings sample_loaded_world eq_refl eq_refl).
Defined.

(** ** Findings the engine cannot process *)

Lemma rmap_raise_in {A B : Type} (g : A -> result B) (l : list A) (x : A) :
  In x l -> g x = Raise -> rmap g l = Raise.
Proof.
  induction l as [| y l IH]; simpl; [tauto |].
  intros [-> | Hin] Hx.
  - now rewrite Hx.
  - destruct (g y); [| reflexivity]. now rewrite (IH Hin Hx).
Qed.

(** X9.  The engine takes the length of the description of the first
    finding of every name.  When that description is a value without a
    length, the call raises a [TypeError] that nothing catches and the
    run ends before the report is written.  [None] is such a value, and
    it is what the XML normalizer stores for a [desc] element without
    text. *)
Theorem unsized_description_raises :
  (forall (w : world) (before after : list finding) (f : finding),
      findings (self w) = before ++ f :: after ->
      Forall (fun f' => name_key f' <> name_key f) before ->
      Py.len (Finding.description f) = Raise ->
      snd (generate_recommendations w) = Raise) /\
  (forall alert desc : xml,
      ET.find "desc" alert = Some desc -> ET.text desc = None ->
      Finding.description (_parse_zap_xml_alert alert) = PNone /\
      Py.len (Finding.description (_parse_zap_xml_alert alert)) = Raise).
Proof.
  split.
  - intros w before after f Hfs Hfirst Hlen.
    apply generate_recommendations_raise.
    unfold new_recommendations. rewrite group_findings_grouped.
    destruct (forallb (fun f0 => Py.hashable (Finding.name f0)) (findings (self w)))
      eqn:Hall; [| reflexivity].
    cbn [rbind]. unfold grouped. rewrite rmap_map.
    assert (Hf : Py.hashable (Finding.name f) = true).
    { rewrite forallb_forall in Hall. apply Hall. rewrite Hfs.
      apply in_or_app. right. now left. }
    unfold Py.hashable in Hf. fold (name_key f) in Hf.
    destruct (name_key f) as [k |] eqn:Hk; [| discriminate].
    apply rmap_raise_in with k.
    + apply in_distinct. rewrite Hfs, keys_of_app. apply in_or_app. right.
      unfold keys_of; simpl. rewrite Hk. now left.
    + unfold group_of; cbn [fst snd].
      assert (Hm : members k (findings (self w)) = f :: members k after).
      { rewrite Hfs, members_app, (members_cons_same k f after Hk).
        assert (Hb : members k before = []).
        { unfold members. clear -Hfirst.
          induction Hfirst as [| f' l Hf' _ IH]; simpl; [reflexivity |].
          unfold has_name_key at 1.
          destruct (name_key f') as [k' |] eqn:E; [| exact IH].
          destruct (Py.hkey_eqb k k') eqn:Ek; [| exact IH].
          apply hkey_eqb_eq in Ek; subst k'. congruence. }
        now rewrite Hb. }
      rewrite Hm. unfold make_recommendation, truncate_description.
      now rewrite Hlen.
  - intros alert desc Hfind Htext.
    unfold _parse_zap_xml_alert; cbn [Finding.description].
    unfold ET.text_or. rewrite Hfind, Htext. split; reflexivity.
Qed.

Lemma unsized_description_witness :
  snd (generate_recommendations
         (world_with_findings
            [sample_finding "Cross Site Scripting" "high" [];
             _parse_zap_xml_alert sample_xml_alert_empty_desc])) = Raise.
Proof.
  destruct unsized_description_raises as [Hraise Hxml].
  apply (Hraise
           (world_with_findings
              [sample_finding "Cross Site Scripting" "high" [];
               _parse_zap_xml_alert sample_xml_alert_empty_desc])
           [sample_finding "Cross Site Scripting" "high" []] []
           (_parse_zap_xml_alert sample_xml_alert_empty_desc) eq_refl).
  - constructor; [discriminate | constructor].
  - apply (Hxml sample_xml_alert_empty_desc (Element "desc" None [])); reflexivity.
Defined.

(** X10.  A finding whose name cannot be a dict key (a JSON array or
    object) makes the grouping loop raise a [TypeError]: the engine
    produces no recommendation for any finding. *)
Theorem unhashable_name_raises (w : world) (f : finding) :
  In f (findings (self w)) ->
  Py.key_of (Finding.name f) = None ->
  snd (generate_recommendations w) = Raise /\
  recommendations (self (fst (generate_recommendations w))) = recommendations (self w).
Proof.
  intros Hin Hkey.
  assert (Hg : group_findings [] (findings (self w)) = Raise).
  { rewrite group_findings_grouped.
    destruct (forallb (fun f0 => Py.hashable (Finding.name f0)) (findings (self w)))
      eqn:Hall; [| reflexivity].
    rewrite forallb_forall in Hall. specialize (Hall f Hin).
    unfold Py.hashable in Hall. now rewrite Hkey in Hall. }
  assert (Hrun : generate_recommendations w
                 = (with_output [Printed "🔍 Generating security recommendations..."] w,
                    Raise)).
  { unfold generate_recommendations.
    unfold bind at 1. unfold print at 1.
    unfold bind at 1. unfold get_self at 1. cbn [self].
    rewrite bind_lift, Hg. reflexivity. }
  rewrite Hrun. split; reflexivity.
Qed.

Lemma unhashable_name_witness :
  snd (generate_recommendations
         (world_with_findings
            [sample_finding "Cross Site Scripting" "high" [];
             sample_finding_list_name])) = Raise.
Proof.
  apply (unhashable_name_raises
           (world_with_findings
              [sample_finding "Cross Site Scripting" "high" [];
               sample_finding_list_name])
           sample_finding_list_name).
  - right. now left.
  - reflexivity.
Defined.

(** ** Properties kept by every step *)

Section Keeping.

Variable I : world -> Prop.

Lemma keeps_unchanged {A : Type} (m : M A) :
  (forall w, fst (m w) = w) -> keeps I m.
Proof. intros H w Hw. now rewrite H. Qed.

Lemma keeps_ret {A : Type} (a : A) : keeps I (ret a).
Proof. now apply keeps_unchanged. Qed.

Lemma keeps_lift {A : Type} (r : result A) : keeps I (lift r).
Proof. now apply keeps_unchanged. Qed.

Lemma keeps_get_self : keeps I get_self.
Proof. now apply keeps_unchanged. Qed.

Lemma keeps_get_set_order : keeps I get_set_order.
Proof. now apply keeps_unchanged. Qed.

Lemma keeps_get_clock : keeps I get_clock.
Proof. now apply keeps_unchanged. Qed.

Lemma keeps_path_exists (p : string) : keeps I (path_exists p).
Proof. now apply keeps_unchanged. Qed.

Lemma keeps_listdir (p : string) : keeps I (listdir p).
Proof.
  apply keeps_unchanged. intro w. unfold listdir.
  destruct (Py.lookup p (disk w)) as [[c | names] |]; reflexivity.
Qed.

Lemma keeps_json_load (p : string) : keeps I (json_load p).
Proof.
  apply keeps_unchanged. intro w. unfold json_load.
  destruct (Py.lookup p (disk w)) as [[[data | root | s] | names] |]; reflexivity.
Qed.

Lemma keeps_et_parse (p : string) : keeps I (et_parse p).
Proof.
  apply keeps_unchanged. intro w. unfold et_parse.
  destruct (Py.lookup p (disk w)) as [[[data | root | s] | names] |]; reflexivity.
Qed.

Lemma keeps_bind {A B : Type} (m : M A) (k : A -> M B) :
  keeps I m -> (forall a, keeps I (k a)) -> keeps I (bind m k).
Proof.
  intros Hm Hk w Hw. unfold bind. specialize (Hm w Hw).
  destruct (m w) as [w' [a |]]; simpl in Hm; [now apply Hk | exact Hm].
Qed.

Lemma keeps_try_except (body handler : M unit) :
  keeps I body -> keeps I handler -> keeps I (try_except body handler).
Proof.
  intros Hb Hh w Hw. unfold try_except. specialize (Hb w Hw).
  destruct (body w) as [w' [[] |]]; simpl in Hb; [exact Hb | now apply Hh].
Qed.

Lemma keeps_for_each {A : Type} (l : list A) (body : A -> M unit) :
  (forall x, keeps I (body x)) -> keeps I (for_each l body).
Proof.
  intro Hb. induction l as [| x l IH]; simpl.
  - apply keeps_ret.
  - apply keeps_bind; [apply Hb | intros _; exact IH].
Qed.

Lemma keeps_if {A : Type} (b : bool) (m1 m2 : M A) :
  keeps I m1 -> keeps I m2 -> keeps I (if b then m1 else m2).
Proof. now destruct b. Qed.

Hypothesis I_stdout : ignores_stdout I.

Lemma keeps_print (s : string) : keeps I (print s).
Proof. intros w Hw. apply I_stdout, Hw. Qed.

Lemma keeps_print_error (s : string) : keeps I (print_error s).
Proof. intros w Hw. apply I_stdout, Hw. Qed.

Hypothesis I_recommendations : ignores_recommendations I.

Lemma keeps_append_recommendation (r : recommendation) :
  keeps I (append_recommendation r).
Proof.
  intros w Hw.
  apply (I_recommendations w (recommendations (self w) ++ [r]) Hw).
Qed.

Lemma keeps_sort_recommendations : keeps I sort_recommendations.
Proof.
  intros w Hw.
  apply (I_recommendations w (sort_by_key sort_key (recommendations (self w))) Hw).
Qed.

Lemma keeps_generate_recommendations : keeps I generate_recommendations.
Proof.
  unfold generate_recommendations.
  apply keeps_bind; [apply keeps_print | intros _].
  apply keeps_bind; [apply keeps_get_self | intro a].
  apply keeps_bind; [apply keeps_lift | intro g].
  apply keeps_bind; [apply keeps_get_set_order | intro order].
  apply keeps_bind; [| intros _; apply keeps_sort_recommendations].
  apply keeps_for_each. intro item. unfold recommend_group. cbv zeta.
  apply keeps_bind; [apply keeps_lift | intro r].
  apply keeps_append_recommendation.
Qed.

Hypothesis I_disk : ignores_disk I.

Lemma keeps_write_file (p doc : string) : keeps I (write_file p doc).
Proof.
  intros w Hw. unfold write_file.
  destruct (can_open_for_writing p (disk w)); [apply (I_disk w _ Hw) | exact Hw].
Qed.

Lemma keeps_generate_detailed_report (output_file : string) :
  keeps I (generate_detailed_report output_file).
Proof.
  unfold generate_detailed_report.
  apply keeps_bind; [apply keeps_print | intros _].
  apply keeps_bind; [apply keeps_write_file | intros _].
  apply keeps_bind; [apply keeps_get_clock | intro now].
  apply keeps_bind; [apply keeps_get_self | intro a].
  unfold write_report. destruct (detailed_report now a); [apply keeps_write_file |].
  apply keeps_bind; [apply keeps_write_file | intros _]. now intros w Hw.
Qed.

Lemma keeps_generate_executive_summary : keeps I generate_executive_summary.
Proof.
  unfold generate_executive_summary.
  apply keeps_bind; [apply keeps_get_self | intro a]. apply keeps_lift.
Qed.

Hypothesis I_json : forall alert, keeps I (ingest_json_alert alert).
Hypothesis I_xml : forall alert, keeps I (ingest_xml_alert alert).

Lemma keeps_analyze_zap_json_report (json_file : string) :
  keeps I (analyze_zap_json_report json_file).
Proof.
  unfold analyze_zap_json_report.
  apply keeps_try_except; [| apply keeps_print_error].
  apply keeps_bind; [apply keeps_json_load | intro data].
  apply keeps_bind; [apply keeps_print | intros _].
  apply keeps_bind; [apply keeps_lift | intro site_ok].
  apply keeps_if; [| apply keeps_print].
  apply keeps_bind; [apply keeps_lift | intro site].
  apply keeps_bind; [apply keeps_lift | intro site0].
  apply keeps_bind; [apply keeps_lift | intro alerts].
  apply keeps_bind; [apply keeps_lift | intro items].
  apply keeps_bind; [apply keeps_for_each, I_json | intros _].
  apply keeps_bind; [apply keeps_lift | intro n].
  apply keeps_print.
Qed.

Lemma keeps_analyze_zap_xml_report (xml_file : string) :
  keeps I (analyze_zap_xml_report xml_file).
Proof.
  unfold analyze_zap_xml_report.
  apply keeps_try_except; [| apply keeps_print_error].
  apply keeps_bind; [apply keeps_et_parse | intro root].
  apply keeps_bind; [apply keeps_print | intros _]. cbv zeta.
  apply keeps_bind; [apply keeps_for_each, I_xml | intros _].
  apply keeps_print.
Qed.

Lemma keeps_analyze_all_reports : keeps I analyze_all_reports.
Proof.
  unfold analyze_all_reports.
  apply keeps_bind; [apply keeps_get_self | intro a].
  apply keeps_bind; [apply keeps_print | intros _].
  apply keeps_bind; [apply keeps_path_exists | intro found].
  apply keeps_if; [apply keeps_print |].
  apply keeps_bind; [apply keeps_listdir | intro names].
  apply keeps_bind.
  { apply keeps_for_each. intro filename. cbv zeta.
    apply keeps_if; [apply keeps_analyze_zap_json_report |].
    apply keeps_if; [apply keeps_analyze_zap_xml_report | apply keeps_ret]. }
  intros _.
  apply keeps_bind; [apply keeps_get_self | intro a'].
  apply keeps_bind; [apply keeps_print | intros _].
  apply keeps_bind; [apply keeps_generate_recommendations | intros _].
  cbv zeta.
  apply keeps_bind; [apply keeps_generate_detailed_report | intros _].
  apply keeps_bind; [apply keeps_print | intros _].
  apply keeps_bind; [apply keeps_print | intros _].
  apply keeps_bind; [apply keeps_print | intros _].
  apply keeps_bind; [apply keeps_generate_executive_summary | intro summary].
  apply keeps_bind; [apply keeps_print | intros _].
  apply keeps_print.
Qed.

End Keeping.

(** ** What the engine leaves alone *)

(** X11.  The recommendation engine changes nothing but the
    recommendation list and the console: findings, risk summary, reports
    directory, file system, set order and clock are after the call what
    they were before it, whether the call returns or raises. *)
Theorem engine_touches_only_recommendations (w : world) :
  same_but_recommendations w (fst (generate_recommendations w)).
Proof.
  apply (keeps_generate_recommendations (same_but_recommendations w)).
  - intros w' out H. exact H.
  - intros w' recs H. exact H.
  - unfold same_but_recommendations. repeat split.
Qed.

(** ** No finding is critical *)

Lemma get_in_values (m : list (string * string)) (k dflt : string) :
  In (Py.get m k dflt) (dflt :: map snd m).
Proof.
  unfold Py.get. induction m as [| [k' v] m IH]; simpl; [now left |].
  destruct (String.eqb k k'); [right; now left |].
  destruct IH as [IH | IH]; [now left | right; now right].
Qed.

Lemma parse_zap_alert_normalized (alert : pyval) (f : finding) :
  _parse_zap_alert alert = Ok f -> normalized f.
Proof.
  unfold _parse_zap_alert. intro H. bind_inv H.
  inversion H; subst f; clear H. unfold normalized; cbn [Finding.risk Finding.source].
  split; [| reflexivity].
  unfold zap_json_risk in E. bind_inv E. inversion E; subst x.
  pose proof (get_in_values zap_json_risk_map x15 "unknown") as Hin.
  simpl in Hin. simpl. tauto.
Qed.

Lemma parse_zap_xml_alert_normalized (alert : xml) :
  normalized (_parse_zap_xml_alert alert).
Proof.
  unfold normalized, _parse_zap_xml_alert; cbn [Finding.risk Finding.source].
  split; [| reflexivity].
  unfold zap_xml_risk.
  destruct (ET.find "riskcode" alert) as [rc |]; [| simpl; tauto].
  destruct (ET.text rc) as [code |]; [| simpl; tauto].
  pose proof (get_in_values zap_xml_risk_map code "unknown") as Hin.
  simpl in Hin. simpl. tauto.
Qed.

Lemma normalized_not_critical (f : finding) :
  normalized f -> String.eqb (Finding.risk f) "critical" = false.
Proof.
  intros [H _]. simpl in H.
  destruct H as [H | [H | [H | [H | [H | []]]]]]; rewrite <- H; reflexivity.
Qed.

Lemma main_findings_normalized (dir : string) (w : world) :
  Forall normalized (findings (self (fst (main dir w)))).
Proof.
  unfold main, bind. cbn [set_self].
  apply (keeps_analyze_all_reports
           (fun w' => Forall normalized (findings (self w')))).
  - intros w' out H. exact H.
  - intros w' recs H. exact H.
  - intros w' d H. exact H.
  - intros alert w' H. unfold ingest_json_alert, bind, lift.
    destruct (_parse_zap_alert alert) as [f |] eqn:Hf; [| exact H].
    cbn. apply Forall_app. split; [exact H |].
    constructor; [| constructor]. now apply parse_zap_alert_normalized with alert.
  - intros alert w' H. unfold ingest_xml_alert. cbn.
    apply Forall_app. split; [exact H |].
    constructor; [| constructor]. apply parse_zap_xml_alert_normalized.
  - constructor.
Qed.

(** X12.  Neither normalizer has "critical" in its table, so a run of
    [main] never holds a critical finding: every finding has one of the
    risks high, medium, low, informational and unknown and the source tag
    "ZAP", and the critical bucket of the summary stays at zero. *)
Theorem critical_bucket_stays_empty (dir : string) (w : world) :
  let a := self (fst (main dir w)) in
  Forall normalized (findings a) /\
  count_risk "critical" (findings a) = 0 /\
  Py.get (risk_summary a) "critical" 7 = 0.
Proof.
  cbv zeta. pose proof (main_findings_normalized dir w) as Hn.
  assert (Hc : count_risk "critical" (findings (self (fst (main dir w)))) = 0).
  { unfold count_risk.
    induction Hn as [| f fs Hf _ IH]; [reflexivity |].
    simpl. now rewrite (normalized_not_critical f Hf). }
  split; [exact Hn |]. split; [exact Hc |].
  pose proof (main_consistent dir w) as Hcons. unfold consistent in Hcons.
  rewrite Hcons, summary_after_findings, Hc. reflexivity.
Qed.

(** ** Paths *)

Lemma endswith_slash_nonempty (a : string) :
  PyStr.endswith "/" a = true -> a <> EmptyString.
Proof. intros H ->. discriminate H. Qed.

Lemma dir_part_app_bare (a b : string) :
  dir_part b = EmptyString -> dir_part (a +++ b) = dir_part a.
Proof.
  intro Hb. induction a as [| c a IH]; [exact Hb |].
  cbn [String.append dir_part]. now rewrite IH.
Qed.

Lemma dir_part_endswith_slash (a : string) :
  PyStr.endswith "/" a = true -> dir_part a = a.
Proof.
  induction a as [| c a IH]; [discriminate |].
  cbn [PyStr.endswith dir_part]. intro H. apply orb_prop in H as [H | H].
  - apply String.eqb_eq in H. injection H as <- <-. reflexivity.
  - rewrite (IH H). pose proof (endswith_slash_nonempty a H) as Hne.
    apply String.eqb_neq in Hne. rewrite Hne. cbn [negb]. now rewrite orb_true_r.
Qed.

Lemma endswith_app_slash (a : string) : PyStr.endswith "/" (a +++ "/") = true.
Proof.
  induction a as [| c a IH]; [reflexivity |].
  cbn [String.append PyStr.endswith]. rewrite IH. apply orb_true_r.
Qed.

Lemma rstrip_app_slash (a : string) :
  rstrip_slashes (a +++ "/") = rstrip_slashes a.
Proof.
  induction a as [| c a IH]; [reflexivity |].
  cbn [String.append rstrip_slashes]. now rewrite IH.
Qed.

Lemma rstrip_no_slash (a : string) :
  PyStr.endswith "/" a = false -> rstrip_slashes a = a.
Proof.
  induction a as [| c a IH]; [reflexivity |].
  cbn [PyStr.endswith rstrip_slashes]. intro H.
  apply orb_false_elim in H as [Hc Ha].
  rewrite (IH Ha). destruct a as [| c' a].
  - destruct (Ascii.eqb_spec c "/") as [-> | _]; [discriminate Hc | reflexivity].
  - cbn [String.eqb]. now rewrite andb_false_r.
Qed.

Lemma append_eq_left (a b : string) : a +++ b = a -> b = EmptyString.
Proof.
  induction a as [| c a IH]; simpl; [auto |]. intro H. injection H as H. auto.
Qed.

(** The path [os.path.join] makes of a directory that exists and a bare
    name can be opened for writing, unless it is a directory. *)
Lemma joined_path_can_be_written (dir name : string) (d : list (string * node)) :
  is_dir dir d = true ->
  name <> EmptyString ->
  dir_part name = EmptyString ->
  (forall names, Py.lookup (path_join dir name) d <> Some (Dir names)) ->
  can_open_for_writing (path_join dir name) d = true.
Proof.
  intros Hdir Hname Hbare Hout. unfold can_open_for_writing.
  destruct (Py.lookup (path_join dir name) d) as [[c | names] |] eqn:E;
    [reflexivity | now destruct (Hout names) |].
  clear E Hout. unfold path_join.
  assert (Hstart : PyStr.startswith "/" name = false).
  { destruct name as [| c name]; [reflexivity |].
    unfold PyStr.startswith. cbn [String.prefix].
    destruct (Ascii.eqb_spec "/" c) as [<- | Hc].
    - cbn [dir_part] in Hbare. discriminate Hbare.
    - destruct (ascii_dec "/" c); [contradiction | reflexivity]. }
  rewrite Hstart. unfold parent_is_dir.
  destruct (String.eqb dir EmptyString) eqn:Eempty; cbn [orb].
  - apply String.eqb_eq in Eempty. subst dir. cbn [String.append].
    rewrite Hbare. rewrite String.eqb_refl. cbn [orb]. rewrite andb_true_r.
    apply String.eqb_neq in Hname. rewrite (String.eqb_sym EmptyString name), Hname.
    reflexivity.
  - apply String.eqb_neq in Eempty.
    destruct (PyStr.endswith "/" dir) eqn:Eslash.
    + rewrite (dir_part_app_bare dir name Hbare), (dir_part_endswith_slash dir Eslash).
      rewrite Hdir. rewrite orb_true_r. cbn [orb]. rewrite andb_true_r.
      apply andb_true_intro. split; apply negb_true_iff, String.eqb_neq.
      * intro H. destruct dir; [contradiction | discriminate H].
      * intro H. symmetry in H. now apply append_eq_left in H.
    + assert (Hhead : dir_part (dir +++ "/" +++ name) = dir +++ "/").
      { rewrite <- append_assoc, (dir_part_app_bare _ name Hbare).
        apply dir_part_endswith_slash, endswith_app_slash. }
      unfold dirname. rewrite Hhead, rstrip_app_slash, (rstrip_no_slash dir Eslash).
      apply String.eqb_neq in Eempty. rewrite Eempty, Hdir.
      rewrite !orb_true_r, andb_true_r.
      apply andb_true_intro. split; apply negb_true_iff, String.eqb_neq.
      * intro H. destruct dir; discriminate H.
      * intro H. rewrite <- append_assoc in H. symmetry in H.
        now apply append_eq_left in H.
Qed.


(** ** The written document *)

Lemma lookup_assign_same {V : Type} (k : string) (v : V) (d : list (string * V)) :
  Py.lookup k (assign k v d) = Some v.
Proof.
  induction d as [| [k' v'] d IH]; simpl.
  - now rewrite String.eqb_refl.
  - destruct (String.eqb k k') eqn:E; simpl.
    + now rewrite String.eqb_refl.
    + now rewrite E.
Qed.

Lemma lookup_assign_other {V : Type} (k p : string) (v : V) (d : list (string * V)) :
  p <> k -> Py.lookup p (assign k v d) = Py.lookup p d.
Proof.
  intro Hne. apply String.eqb_neq in Hne.
  induction d as [| [k' v'] d IH]; simpl.
  - now rewrite Hne.
  - destruct (String.eqb k k') eqn:E; simpl.
    + apply String.eqb_eq in E; subst k'. now rewrite Hne.
    + destruct (String.eqb p k'); [reflexivity | exact IH].
Qed.

Lemma generate_detailed_report_run (output_file doc : string) (w : world) :
  can_open_for_writing output_file (disk w) = true ->
  detailed_report (clock w) (self w) = Ok doc ->
  generate_detailed_report output_file w
  = (mkWorld (self w)
       (stdout w ++ [Printed ("📝 Generating detailed report: " +++ output_file)])
       (assign output_file (File (Text doc))
          (assign output_file (File (Text EmptyString)) (disk w)))
       (set_order w) (clock w),
     Ok tt).
Proof.
  intros Hopen Hdoc. unfold generate_detailed_report.
  unfold bind at 1. unfold print at 1.
  unfold bind at 1. unfold write_file at 1. cbn [disk self stdout set_order clock].
  rewrite Hopen.
  unfold bind at 1; unfold get_clock at 1; cbn [clock].
  unfold bind at 1; unfold get_self at 1; cbn [self].
  unfold write_report. rewrite Hdoc. unfold write_file.
  cbn [disk self stdout set_order clock].
  unfold can_open_for_writing. rewrite lookup_assign_same. reflexivity.
Qed.





(** ** The five rows of the table *)

Lemma classify_all_keys (risks : list string) (rs : risk_summary_t) :
  map fst (classify_all risks rs) = map fst rs.
Proof.
  unfold classify_all. revert rs.
  induction risks as [| r risks IH]; intro rs; simpl; [reflexivity |].
  now rewrite IH, update_keys.
Qed.

Lemma five_keys_shape (rs : risk_summary_t) :
  map fst rs = map fst initial_risk_summary ->
  exists c h m l i,
    rs = [("critical", c); ("high", h); ("medium", m); ("low", l);
          ("informational", i)].
Proof.
  destruct rs as [| [k1 c] [| [k2 h] [| [k3 m] [| [k4 l] [| [k5 i] [| x rs]]]]]];
    simpl; intro H; try discriminate.
  injection H as -> -> -> -> ->. eauto 10.
Qed.

Lemma five_keys_render (now : string) (a : analyzer) :
  map fst (risk_summary a) = map fst initial_risk_summary ->
  exists doc, detailed_report now a = Ok doc.
Proof.
  intro Hkeys. unfold detailed_report.
  destruct (risk_table_total (risk_summary a)) as [table ->].
  destruct (five_keys_shape _ Hkeys) as (c & h & m & l & i & Hrs).
  assert (Hs : exists s, executive_summary (risk_summary a) = Ok s).
  { rewrite Hrs. unfold executive_summary.
    destruct (sum_values _ =? 0); [eauto |].
    cbn [subscript Py.lookup String.eqb Ascii.eqb Bool.eqb rbind]. eauto. }
  destruct Hs as [s ->]. cbn [rbind]. eauto.
Qed.

(** X14.  The summary an analyzer holds after a run of [main] still has
    its five keys in their original order, so the risk table always has
    the rows Critical, High, Medium, Low, Informational, and rendering
    that analyzer never fails: no key is missing and no division by zero
    occurs. *)
Theorem summary_keeps_its_five_keys (dir : string) (w : world) :
  let a := self (fst (main dir w)) in
  map fst (risk_summary a)
  = ["critical"; "high"; "medium"; "low"; "informational"] /\
  forall now : string, exists doc, detailed_report now a = Ok doc.
Proof.
  cbv zeta.
  assert (Hkeys : map fst (risk_summary (self (fst (main dir w))))
                  = map fst initial_risk_summary).
  { pose proof (main_consistent dir w) as Hc. unfold consistent in Hc.
    rewrite Hc. apply classify_all_keys. }
  split; [exact Hkeys |].
  intro now. now apply five_keys_render.
Qed.

(** ** Directories *)

(** X15.  When the reports path exists but is a regular file, the run
    prints the scanning line and then raises at [os.listdir]: nothing
    catches the exception, and analyzer and file system are left as they
    were. *)
Theorem reports_path_is_a_file (w : world) (c : content) :
  Py.lookup (reports_dir (self w)) (disk w) = Some (File c) ->
  analyze_all_reports w
  = (with_output
       [Printed ("🔍 Scanning for security reports in: " +++ reports_dir (self w))] w,
     Raise).
Proof.
  intro Hfile. unfold analyze_all_reports.
  unfold bind at 1. unfold get_self at 1.
  unfold bind at 1. unfold print at 1.
  unfold bind at 1. unfold path_exists at 1. cbn [disk self].
  unfold has_key. rewrite Hfile. cbn [negb].
  unfold bind at 1. unfold listdir at 1. cbn [disk]. rewrite Hfile.
  reflexivity.
Qed.

Lemma reports_path_is_a_file_witness :
  snd (analyze_all_reports
         (mkWorld (init_analyzer "reports/notes.txt") [] (disk sample_world)
            first_seen_order "2024-05-01 12:00:00")) = Raise.
Proof.
  rewrite (reports_path_is_a_file
             (mkWorld (init_analyzer "reports/notes.txt") [] (disk sample_world)
                first_seen_order "2024-05-01 12:00:00")
             (Text "remember to rescan") eq_refl).
  reflexivity.
Defined.

Lemma skip_other_files (dir : string) (names : list string) (w : world) :
  forallb (fun n => negb (is_zap_report ".json" n) && negb (is_zap_report ".xml" n))
    names = true ->
  for_each names (fun filename =>
    let filepath := path_join dir filename in
    if is_zap_report ".json" filename then analyze_zap_json_report filepath
    else if is_zap_report ".xml" filename then analyze_zap_xml_report filepath
    else ret tt) w
  = (w, Ok tt).
Proof.
  induction names as [| n names IH]; [reflexivity |].
  cbn [forallb]. intro H. apply andb_prop in H as [Hn Hrest].
  apply andb_prop in Hn as [Hj Hx].
  apply negb_true_iff in Hj, Hx.
  cbn [for_each]. cbv zeta. rewrite Hj, Hx.
  unfold bind at 1. unfold ret at 1. now apply IH.
Qed.

(** X16.  A reports directory that holds no file named like a scanner
    report still gets its document: the run returns, the analyzer ends
    as it started, with no finding, no recommendation and an all-zero
    summary, the document rendered from that state is written into the
    directory, and the summary printed on the console is the
    no-vulnerabilities sentence. *)
Theorem directory_without_reports (dir : string) (names : list string) (w : world) :
  Py.lookup dir (disk w) = Some (Dir names) ->
  forallb (fun n => negb (is_zap_report ".json" n) && negb (is_zap_report ".xml" n))
    names = true ->
  (forall ns, Py.lookup (path_join dir "security-analysis-report.md") (disk w)
              <> Some (Dir ns)) ->
  let w' := fst (main dir w) in
  let output_file := path_join dir "security-analysis-report.md" in
  snd (main dir w) = Ok tt /\
  self w' = init_analyzer dir /\
  (exists doc,
      detailed_report (clock w) (init_analyzer dir) = Ok doc /\
      Py.lookup output_file (disk w') = Some (File (Text doc))) /\
  (forall p, p <> output_file -> Py.lookup p (disk w') = Py.lookup p (disk w)) /\
  In (Printed status_excellent) (stdout w').
Proof.
  intros Hdir Hnames Hout. cbv zeta.
  assert (Hdoc : exists doc, detailed_report (clock w) (init_analyzer dir) = Ok doc).
  { apply five_keys_render. reflexivity. }
  destruct Hdoc as [doc Hdoc].
  set (output_file := path_join dir "security-analysis-report.md") in *.
  assert (Hopen : can_open_for_writing output_file (disk w) = true).
  { apply joined_path_can_be_written;
      [unfold is_dir; now rewrite Hdir | discriminate | reflexivity | exact Hout]. }
  assert (Hrun : exists out,
            main dir w
            = (mkWorld (init_analyzer dir) (out ++ [Printed status_excellent;
                 Printed (nl +++ "📄 Detailed report saved to: " +++ output_file)])
                 (assign output_file (File (Text doc))
                    (assign output_file (File (Text EmptyString)) (disk w)))
                 (set_order w) (clock w), Ok tt)).
  { unfold main. unfold bind at 1. cbn [set_self].
    set (w0 := mkWorld (init_analyzer dir) (stdout w) (disk w) (set_order w) (clock w)).
    unfold analyze_all_reports.
    unfold bind at 1. unfold get_self at 1. cbn [self w0 reports_dir init_analyzer].
    unfold bind at 1. unfold print at 1.
    unfold bind at 1. unfold path_exists at 1. cbn [disk w0].
    unfold has_key. rewrite Hdir. cbn [negb].
    unfold bind at 1. unfold listdir at 1. cbn [disk w0]. rewrite Hdir.
    unfold bind at 1. rewrite (skip_other_files dir names _ Hnames).
    unfold bind at 1. unfold get_self at 1.
    unfold bind at 1. unfold print at 1.
    cbn [self stdout disk set_order clock w0 findings init_analyzer List.length].
    unfold bind at 1.
    match goal with
    | |- context [generate_recommendations ?w1] =>
        rewrite (generate_recommendations_ok w1 [] eq_refl)
    end.
    cbn [self stdout disk set_order clock with_self with_output with_recommendations
           recommendations reports_dir findings risk_summary init_analyzer app
           sort_by_key fold_right].
    fold output_file.
    unfold bind at 1.
    match goal with
    | |- context [generate_detailed_report output_file ?w2] =>
        rewrite (generate_detailed_report_run output_file doc w2 Hopen Hdoc)
    end.
    cbn [self stdout disk set_order clock].
    unfold bind at 1. unfold print at 1. cbn [self stdout disk set_order clock].
    unfold bind at 1. unfold print at 1. cbn [self stdout disk set_order clock].
    unfold bind at 1. unfold print at 1. cbn [self stdout disk set_order clock].
    unfold bind at 1. unfold generate_executive_summary at 1.
    unfold bind at 1. unfold get_self at 1. cbn [self]. unfold lift at 1.
    unfold with_self, with_output, with_recommendations.
    cbn [self stdout disk set_order clock risk_summary init_analyzer].
    change (executive_summary initial_risk_summary) with (Ok status_excellent).
    cbv iota.
    unfold bind at 1. unfold print at 1. cbn [self stdout disk set_order clock].
    unfold print. cbn [self stdout disk set_order clock reports_dir findings
      recommendations risk_summary].
    eexists. rewrite <- app_assoc. reflexivity. }
  destruct Hrun as [out Hrun]. rewrite Hrun. cbn [fst snd self disk stdout].
  split; [reflexivity |]. split; [reflexivity |]. split; [| split].
  - exists doc. split; [exact Hdoc | apply lookup_assign_same].
  - intros p Hp. now rewrite !lookup_assign_other.
  - apply in_or_app. right. now left.
Qed.

Lemma directory_without_reports_witness :
  snd (main "empty"
         (mkWorld (init_analyzer "elsewhere") []
            [("empty", Dir ["notes.txt"; "zap.txt"; "report.json"])]
            first_seen_order "2024-05-01 12:00:00")) = Ok tt.
Proof.
  destruct (directory_without_reports "empty" ["notes.txt"; "zap.txt"; "report.json"]
              (mkWorld (init_analyzer "elsewhere") []
                 [("empty", Dir ["notes.txt"; "zap.txt"; "report.json"])]
                 first_seen_order "2024-05-01 12:00:00")
              eq_refl eq_refl
              ltac:(intros ns E; vm_compute in E; discriminate E)) as (Hret & _).
  exact Hret.
Defined.

(** ** Percentages *)

(** X17.  When the counts add up to a positive total, every percentage
    of the risk table, the float that line 224 computes with its two
    roundings, is finite and lies between 0 and 100; so does the value
    printed with one decimal, which is never below 0.0 nor above 100.0. *)
Theorem percentages_within_bounds (rs : risk_summary_t) (item : string * nat) :
  0 < sum_values rs ->
  In item rs ->
  exists p,
    percentage (snd item) (sum_values rs) = Ok (Float.Finite p) /\
    (0 <= p)%Q /\ (p <= 100)%Q /\
    (0 <= tenths p <= 1000)%Z /\
    format_1f (Float.Finite p)
    = PyStr.of_Z (tenths p / 10) +++ "." +++ PyStr.of_Z (tenths p mod 10).
Proof.
  intros Hpos Hin.
  destruct (percentage_bounds (snd item) (sum_values rs) Hpos (count_le_sum rs item Hin))
    as (p & Hp & H0 & H100 & _).
  exists p. split; [exact Hp |]. split; [exact H0 |]. split; [exact H100 |].
  split; [apply (tenths_bounds p H0 H100) | apply (format_1f_nonneg p H0)].
Qed.

Lemma percentages_within_bounds_witness :
  exists p,
    percentage 23 80 = Ok (Float.Finite p) /\
    (0 <= p)%Q /\ (p <= 100)%Q /\ (0 <= tenths p <= 1000)%Z.
Proof.
  destruct (percentages_within_bounds
              [("critical", 0); ("high", 23); ("medium", 49); ("low", 8);
               ("informational", 0)] ("high", 23))
    as (p & Hp & H0 & H100 & Ht & _).
  - vm_compute. lia.
  - right. now left.
  - exists p. auto.
Defined.

(** ** Order of the findings *)

Lemma has_key_increment (k j : string) (d : risk_summary_t) :
  has_key j (increment k d) = has_key j d.
Proof. apply has_key_by_keys, increment_keys. Qed.

Lemma increment_comm (k j : string) (d : risk_summary_t) :
  increment k (increment j d) = increment j (increment k d).
Proof.
  induction d as [| [k' n] d IH]; [reflexivity |].
  cbn [increment].
  destruct (String.eqb j k') eqn:Ej, (String.eqb k k') eqn:Ek;
    cbn [increment]; rewrite ?Ej, ?Ek; try reflexivity.
  now rewrite IH.
Qed.

Lemma update_comm (a b : string) (rs : risk_summary_t) :
  update_risk_summary a (update_risk_summary b rs)
  = update_risk_summary b (update_risk_summary a rs).
Proof.
  unfold update_risk_summary.
  destruct (has_key b rs) eqn:Hb, (has_key a rs) eqn:Ha;
    rewrite ?has_key_increment, ?Ha, ?Hb; try reflexivity.
  apply increment_comm.
Qed.

Lemma classify_all_perm (r1 r2 : list string) :
  Permutation r1 r2 -> forall rs, classify_all r1 rs = classify_all r2 rs.
Proof.
  unfold classify_all.
  induction 1 as [| x l l' _ IH | x y l | l l' l'' _ IH1 _ IH2]; intro rs; simpl.
  - reflexivity.
  - apply IH.
  - now rewrite update_comm.
  - now rewrite IH1.
Qed.

(** X18.  The summary does not depend on the order in which the
    findings were classified: two lists of findings that are
    permutations of each other, as two listings of the same directory in
    different orders give, lead from the same summary to the same
    summary. *)
Theorem summary_independent_of_order (fs1 fs2 : list finding) (rs : risk_summary_t) :
  Permutation fs1 fs2 ->
  classify_all (map Finding.risk fs1) rs = classify_all (map Finding.risk fs2) rs.
Proof.
  intro H. apply classify_all_perm. now apply Permutation_map.
Qed.

Lemma summary_independent_of_order_witness :
  classify_all (map Finding.risk sample_findings) initial_risk_summary
  = classify_all (map Finding.risk (rev sample_findings)) initial_risk_summary.
Proof.
  apply (summary_independent_of_order sample_findings (rev sample_findings)).
  apply Permutation_rev.
Defined.

(** ** Which files are read *)

Lemma endswith_last_char (suf s : string) (c : ascii) :
  PyStr.endswith suf s = true -> last_char suf = Some c -> last_char s = Some c.
Proof.
  intros H Hc. induction s as [| a s IH].
  - simpl in H. rewrite orb_false_r in H. apply String.eqb_eq in H. now subst.
  - cbn [PyStr.endswith] in H. apply orb_prop in H as [H | H].
    + apply String.eqb_eq in H. now subst.
    + specialize (IH H). cbn [last_char]. destruct s; [discriminate IH | exact IH].
Qed.

(** X19.  No file name passes both tests of the discovery loop: a name
    that ends in ".json" does not end in ".xml".  A file is therefore
    handed to one parser at most, and the order of the two tests does
    not matter. *)
Theorem json_and_xml_names_exclusive (filename : string) :
  is_zap_report ".json" filename = true -> is_zap_report ".xml" filename = false.
Proof.
  unfold is_zap_report. intro H. apply andb_prop in H as [Hj _].
  destruct (PyStr.endswith ".xml" filename) eqn:Hx; [| reflexivity].
  pose proof (endswith_last_char ".json" filename "n" Hj eq_refl) as H1.
  pose proof (endswith_last_char ".xml" filename "l" Hx eq_refl) as H2.
  rewrite H1 in H2. discriminate H2.
Qed.

Lemma json_and_xml_names_witness :
  is_zap_report ".xml" "ZAP-Baseline.xml.json" = false.
Proof. apply json_and_xml_names_exclusive. reflexivity. Defined.

(** ** Findings accumulate *)

(** X20.  A scan of the directory never drops, changes or reorders a
    finding the analyzer already held: the findings after
    [analyze_all_reports] are the findings before it followed by the new
    ones, and the summary after it is the summary before it with exactly
    the new findings classified.  This holds however the scan ends. *)
Theorem scan_only_appends_findings (w : world) :
  exists new,
    findings (self (fst (analyze_all_reports w))) = findings (self w) ++ new /\
    risk_summary (self (fst (analyze_all_reports w)))
    = classify_all (map Finding.risk new) (risk_summary (self w)).
Proof.
  destruct (accumulates_analyze_all_reports w) as (new & Hfindings & Hsummary).
  exists new. split; [exact Hfindings | exact Hsummary].
Qed.

(** X21.  The same XML report analysed twice contributes its findings
    twice: reports are not compared with what was read before, and the
    second pass appends the same findings, in the same order, after
    those of the first. *)
Theorem same_xml_report_twice (w : world) (xml_file : string) (root : xml) :
  Py.lookup xml_file (disk w) = Some (File (Xml root)) ->
  let new := map _parse_zap_xml_alert (ET.findall_desc "alertitem" root) in
  let w1 := fst (analyze_zap_xml_report xml_file w) in
  let w2 := fst (analyze_zap_xml_report xml_file w1) in
  findings (self w1) = findings (self w) ++ new /\
  findings (self w2) = findings (self w) ++ new ++ new /\
  sum_values (risk_summary (self w2))
  = sum_values (risk_summary (self w))
    + 2 * List.length
            (filter (fun f => has_key (Finding.risk f) (risk_summary (self w))) new).
Proof.
  intro Hfile. cbv zeta.
  rewrite (analyze_parsed_xml_report w xml_file root Hfile). cbv zeta. cbn [fst].
  set (new := map _parse_zap_xml_alert (ET.findall_desc "alertitem" root)).
  match goal with
  | |- context [analyze_zap_xml_report xml_file ?w1] =>
      rewrite (analyze_parsed_xml_report w1 xml_file root Hfile)
  end.
  cbv zeta. fold new.
  cbn [fst self with_output with_self ingest findings risk_summary].
  split; [reflexivity |]. split; [now rewrite <- app_assoc |].
  rewrite !sum_classify_all.
  assert (Hkeys : forall r,
             has_key r (classify_all (map Finding.risk new) (risk_summary (self w)))
             = has_key r (risk_summary (self w))).
  { intro r. apply has_key_by_keys, classify_all_keys. }
  rewrite (filter_ext _ _ Hkeys).
  assert (Hlen : List.length
                   (filter (fun r => has_key r (risk_summary (self w)))
                      (map Finding.risk new))
                 = List.length
                     (filter (fun f => has_key (Finding.risk f) (risk_summary (self w)))
                        new)).
  { clear. induction new as [| f l IH]; simpl; [reflexivity |].
    destruct (has_key (Finding.risk f) (risk_summary (self w))); simpl; now rewrite IH. }
  rewrite Hlen. lia.
Qed.

Lemma same_xml_report_twice_witness :
  List.length
    (findings
       (self (fst (analyze_zap_xml_report "reports/ZAP-full.xml"
                     (fst (analyze_zap_xml_report "reports/ZAP-full.xml"
                             sample_world)))))) = 6.
Proof.
  destruct (same_xml_report_twice sample_world "reports/ZAP-full.xml"
              sample_xml_report eq_refl) as (_ & H2 & _).
  rewrite H2. reflexivity.
Defined.

(** ** Urls of a JSON alert *)

Lemma instance_uri_of_dicts (l : list pyval) :
  forallb is_dict l = true -> rmap instance_uri l = Ok (map json_instance_uri l).
Proof.
  induction l as [| x l IH]; simpl; intro H; [reflexivity |].
  apply andb_prop in H as [Hx Hl].
  destruct x; try discriminate. simpl. now rewrite (IH Hl).
Qed.

(** X22.  For a well-formed JSON alert the url list has one entry per
    instance, in order: the instance's [uri], or the empty string when
    the instance has none.  Unlike the XML normalizer, the JSON one drops
    no instance. *)
Theorem json_urls_one_per_instance (alert : pyval) :
  valid_json_alert alert = true ->
  exists f,
    _parse_zap_alert alert = Ok f /\
    Finding.urls f = map json_instance_uri (json_instances alert) /\
    Finding.instances f = List.length (json_instances alert).
Proof.
  destruct alert as [| | | | | d]; try discriminate. simpl.
  intro H. apply andb_prop in H as [Hdesc Hinst].
  destruct (Py.get d "riskdesc" (PStr "Unknown")) as [| | | s | |] eqn:Ed;
    try discriminate.
  destruct (Py.get d "instances" (PList [])) as [| | | | l |] eqn:Ei;
    try discriminate.
  unfold _parse_zap_alert.
  rewrite (zap_json_risk_of_desc d s Ed). simpl. rewrite Ei. simpl.
  rewrite (instance_uri_of_dicts l Hinst). simpl. eauto.
Qed.

Lemma json_urls_witness :
  exists f,
    _parse_zap_alert sample_json_alert_high = Ok f /\
    Finding.urls f = [PStr "http://emr.local/login"; PStr EmptyString].
Proof.
  destruct (json_urls_one_per_instance sample_json_alert_high eq_refl)
    as (f & Hf & Hu & _).
  exists f. split; [exact Hf | exact Hu].
Defined.
